(** * Flight scanner agent: field parsers, demo generator, validation and
      the first-success aggregator.

    A shallow embedding of [Agent/flight_scrapers.py], [Agent/demo_scraper.py],
    [Agent/utils.py] and [Agent/flight_scanner_agent.py].

    Conventions of the embedding:
    - Python text is a [string]; the model follows Python on ASCII text
      (on which [\d] is [0-9], and [upper]/[lower] touch letters only).
    - A Python number that is an [int] or an integer-valued [float] is
      [Fin z]; the float [inf] is [PosInf].  Python compares, sorts and
      tests the two kinds of finite number alike.
    - A flight record is a Python [dict]: a [gmap string pyval].
    - An exception is a value of [exn]; fallible code returns a sum. *)

From Stdlib Require Import ZArith Ascii String List Permutation Sorted Lia.
From stdpp Require Import base option list gmap strings pretty.

Open Scope string_scope.
Open Scope Z_scope.

(** ** Characters and text *)

Module Text.

Definition code (c : ascii) : Z := Z.of_nat (nat_of_ascii c).

Definition is_digit (c : ascii) : bool :=
  (48 <=? code c) && (code c <=? 57).

(** [str.isspace] on the code points below 256. *)
Definition is_space (c : ascii) : bool :=
  let n := code c in
  ((9 <=? n) && (n <=? 13)) || ((28 <=? n) && (n <=? 32))
  || (n =? 133) || (n =? 160).

Definition upper_char (c : ascii) : ascii :=
  let n := code c in
  if (97 <=? n) && (n <=? 122) then ascii_of_nat (Z.to_nat (n - 32)) else c.

Definition lower_char (c : ascii) : ascii :=
  let n := code c in
  if (65 <=? n) && (n <=? 90) then ascii_of_nat (Z.to_nat (n + 32)) else c.

Fixpoint map_chars (f : ascii -> ascii) (s : string) : string :=
  match s with
  | EmptyString => EmptyString
  | String c t => String (f c) (map_chars f t)
  end.

(** [s.upper()] and [s.lower()]. *)
Definition upper : string -> string := map_chars upper_char.
Definition lower : string -> string := map_chars lower_char.

Fixpoint forallb_str (p : ascii -> bool) (s : string) : bool :=
  match s with
  | EmptyString => true
  | String c t => p c && forallb_str p t
  end.

Fixpoint existsb_str (p : ascii -> bool) (s : string) : bool :=
  match s with
  | EmptyString => false
  | String c t => p c || existsb_str p t
  end.

Fixpoint lstrip (s : string) : string :=
  match s with
  | EmptyString => EmptyString
  | String c t => if is_space c then lstrip t else s
  end.

(** [rstrip] keeps a character when it, or something to its right, is not
    white space. *)
Fixpoint rstrip (s : string) : string :=
  match s with
  | EmptyString => EmptyString
  | String c t =>
      match rstrip t with
      | EmptyString => if is_space c then EmptyString else String c EmptyString
      | t' => String c t'
      end
  end.

(** [s.strip()]. *)
Definition strip (s : string) : string := rstrip (lstrip s).

(** [s.replace(old, '')] for a one-character [old]. *)
Fixpoint remove_char (old : ascii) (s : string) : string :=
  match s with
  | EmptyString => EmptyString
  | String c t =>
      if Ascii.eqb c old then remove_char old t
      else String c (remove_char old t)
  end.

(** Python truthiness of a string: [not s] holds for the empty string. *)
Definition truthy (s : string) : bool :=
  match s with EmptyString => false | _ => true end.

Definition digit_val (c : ascii) : Z := code c - 48.

Fixpoint int_of_digits_from (acc : Z) (s : string) : Z :=
  match s with
  | EmptyString => acc
  | String c t => int_of_digits_from (10 * acc + digit_val c) t
  end.

(** The number a string of decimal digits denotes. *)
Definition int_of_digits (s : string) : Z := int_of_digits_from 0 s.

(** Lexicographic [<] on strings by code point, as Python compares [str]. *)
Fixpoint ltb (s t : string) : bool :=
  match s, t with
  | _, EmptyString => false
  | EmptyString, String _ _ => true
  | String a s', String b t' =>
      if code a <? code b then true
      else if code b <? code a then false
      else ltb s' t'
  end.

End Text.

(** ** Numbers *)

Inductive number := Fin (z : Z) | PosInf.

Module Number.

Definition ltb (a b : number) : bool :=
  match a, b with
  | Fin x, Fin y => x <? y
  | Fin _, PosInf => true
  | PosInf, _ => false
  end.

(** [float(n)] for a non-negative integer [n]: the nearest binary64 value,
    ties to even, overflowing to [inf]. *)
Definition float_of_Z (n : Z) : number :=
  let len := Z.log2 n + 1 in
  if len <=? 53 then Fin n
  else
    let e := len - 53 in
    let q := Z.shiftr n e in
    let r := Z.land n (Z.ones e) in
    let half := Z.shiftl 1 (e - 1) in
    let q' := if (half <? r) || ((r =? half) && Z.odd q) then q + 1 else q in
    let v := Z.shiftl q' e in
    if 2 ^ 1024 <=? v then PosInf else Fin v.

(** [float(s)] for a string of decimal digits. *)
Definition float_of_digits (s : string) : number :=
  float_of_Z (Text.int_of_digits s).

End Number.

(** ** Regular expressions used by the parsers *)

Module Re.

Import Text.

(** [re.findall] for a pattern [[class]+]: the maximal runs of characters of
    the class, left to right.  [cur] is the run being matched, reversed. *)
Fixpoint findall_runs (cls : ascii -> bool) (cur : list ascii) (s : string)
  : list string :=
  match s with
  | EmptyString =>
      match cur with
      | [] => []
      | _ => [string_of_list_ascii (rev cur)]
      end
  | String c t =>
      if cls c then findall_runs cls (c :: cur) t
      else
        match cur with
        | [] => findall_runs cls [] t
        | _ => string_of_list_ascii (rev cur) :: findall_runs cls [] t
        end
  end.

(** The class of the pattern [[\d,]+]. *)
Definition digit_or_comma (c : ascii) : bool :=
  is_digit c || Ascii.eqb c ",".

(** [re.findall(r'(\d+)x', s)] for a literal character [x] that is not a
    digit: the digit runs that are directly followed by [x]; a match ends
    after its [x].  [cur] is the digit run being matched, reversed. *)
Fixpoint findall_num_then (x : ascii) (cur : list ascii) (s : string)
  : list string :=
  match s with
  | EmptyString => []
  | String c t =>
      if is_digit c then findall_num_then x (c :: cur) t
      else
        match cur with
        | [] => findall_num_then x [] t
        | _ =>
            if Ascii.eqb c x
            then string_of_list_ascii (rev cur) :: findall_num_then x [] t
            else findall_num_then x [] t
        end
  end.

End Re.

(** ** Python values, exceptions and fallible code *)

Inductive pyval := VNum (n : number) | VStr (s : string) | VNone.

Inductive exn :=
| ValueError (msg : string)
| KeyError (key : string)
| IndexError
| TypeError
| OverflowError.

(** A computation that returns a value or raises. *)
Definition result (A : Type) : Type := exn + A.

Definition ok {A} (a : A) : result A := inr a.
Definition raise {A} (e : exn) : result A := inl e.

Definition bind {A B} (m : result A) (k : A -> result B) : result B :=
  match m with
  | inl e => inl e
  | inr a => k a
  end.

Notation "'let*' x ':=' m 'in' k" := (bind m (fun x => k))
  (at level 10, x name, m at level 100, k at level 200).

(** [d[key]] on a dict: a missing key raises [KeyError]. *)
Definition subscript {A} (key : string) (o : option A) : result A :=
  match o with
  | Some a => ok a
  | None => raise (KeyError key)
  end.

#[global] Instance number_eq_dec : EqDecision number.
Proof. solve_decision. Defined.

#[global] Instance pyval_eq_dec : EqDecision pyval.
Proof. solve_decision. Defined.

#[global] Instance exn_eq_dec : EqDecision exn.
Proof. solve_decision. Defined.

(** A flight record is a dict from field names to values. *)
Abbreviation Flight := (gmap string pyval).

(** ** Field parsers ([BaseFlightScraper]) *)

Module Parsers.

Import Text.

(** [_parse_price]. *)
Definition _parse_price (price_text : string) : string * number :=
  if negb (truthy price_text) then ("N/A", PosInf)
  else
    let numeric_price :=
      Re.findall_runs Re.digit_or_comma [] (remove_char "," price_text) in
    match numeric_price with
    | first :: _ => (strip price_text, Number.float_of_digits first)
    | [] => (strip price_text, PosInf)
    end.

(** [int(s)] for a string of decimal digits: the conversion raises
    [ValueError] for more digits than [sys.get_int_max_str_digits()], which
    is 4300 unless the interpreter is told otherwise; leading zeros count. *)
Definition int_max_str_digits : nat := 4300.

Definition int (s : string) : result Z :=
  if (int_max_str_digits <? String.length s)%nat
  then raise (ValueError
    ("Exceeds the limit (4300 digits) for integer string conversion: value has "
     ++ pretty (String.length s)
     ++ " digits; use sys.set_int_max_str_digits() to increase the limit"))
  else ok (int_of_digits s).

(** [_parse_duration].  Nothing here catches what [int] raises. *)
Definition _parse_duration (duration_text : string) : result (string * number) :=
  if negb (truthy duration_text) then ok ("N/A", PosInf)
  else
    let hours := Re.findall_num_then "h" [] duration_text in
    let minutes := Re.findall_num_then "m" [] duration_text in
    let total_minutes := 0 in
    let* total_minutes :=
      match hours with
      | h :: _ => let* n := int h in ok (total_minutes + n * 60)
      | [] => ok total_minutes
      end in
    let* total_minutes :=
      match minutes with
      | m :: _ => let* n := int m in ok (total_minutes + n)
      | [] => ok total_minutes
      end in
    ok (strip duration_text,
        if 0 <? total_minutes then Fin total_minutes else PosInf).

End Parsers.

(** ** [list.sort(key=...)] and slicing *)

Module PyList.

(** [a < b] on Python values: numbers compare with numbers, strings with
    strings, anything else raises [TypeError]. *)
Definition py_lt (a b : pyval) : result bool :=
  match a, b with
  | VNum x, VNum y => ok (Number.ltb x y)
  | VStr s, VStr t => ok (Text.ltb s t)
  | _, _ => raise TypeError
  end.

Section Sort.
Context {A : Type}.

(** The list is sorted on (key, item) pairs; only the keys are compared.
    [x] precedes every pair already placed whose key is not below its
    own: pairs are inserted from the right end of the input, so equal
    keys keep their input order. *)
Fixpoint insert (x : pyval * A) (l : list (pyval * A))
  : result (list (pyval * A)) :=
  match l with
  | [] => ok [x]
  | y :: l' =>
      let* below := py_lt (fst y) (fst x) in
      if below : bool then (let* r := insert x l' in ok (y :: r))
      else ok (x :: l)
  end.

Fixpoint sort_pairs (l : list (pyval * A)) : result (list (pyval * A)) :=
  match l with
  | [] => ok []
  | x :: l' => let* s := sort_pairs l' in insert x s
  end.

(** The key function is called once on every item, in order, before any
    comparison. *)
Fixpoint decorate (key : A -> result pyval) (l : list A)
  : result (list (pyval * A)) :=
  match l with
  | [] => ok []
  | x :: l' =>
      let* k := key x in
      let* r := decorate key l' in
      ok ((k, x) :: r)
  end.

(** [l.sort(key=key)]: the stable sort of [l] by [key]; it raises what
    the key function raises, and [TypeError] when two keys cannot be
    compared. *)
Definition sort (key : A -> result pyval) (l : list A) : result (list A) :=
  let* d := decorate key l in
  let* s := sort_pairs d in
  ok (map snd s).
End Sort.

(** [l[:n]]: the first [n] elements, and for a negative [n] all but the
    last [-n]. *)
Definition slice_to {A} (l : list A) (n : Z) : list A :=
  if 0 <=? n then take (Z.to_nat n) l
  else take (length l - Z.to_nat (- n)) l.

End PyList.

(** The pure stable insertion sort over a key type with a boolean [<]. *)
Module StableSort.
Section Defs.
Context {A K : Type} (lt : K -> K -> bool) (key : A -> K).

Fixpoint insert (x : A) (l : list A) : list A :=
  match l with
  | [] => [x]
  | y :: l' => if lt (key y) (key x) then y :: insert x l' else x :: l
  end.

Fixpoint sort (l : list A) : list A :=
  match l with
  | [] => []
  | x :: l' => insert x (sort l')
  end.

(** [a] may stand before [b]: the key of [b] is not below that of [a]. *)
Definition in_order (a b : A) : Prop := lt (key b) (key a) = false.
End Defs.
End StableSort.

(** ** [datetime]: the two [strptime] formats the code uses, and adding a
       duration *)

Module Datetime.

Import Text.

Record date := { year : Z; month : Z; day : Z }.
Record datetime := { on : date; hour : Z; minute : Z }.

Definition between (lo hi : Z) (c : ascii) : bool :=
  (lo <=? code c) && (code c <=? hi).

(** Pieces of the regular expression [_strptime] builds for a directive:
    two digits, one digit, or a blank and a digit, with a class for each
    character, giving the number read and the text that is left. *)
Definition digits2 (p q : ascii -> bool) (s : string) : option (Z * string) :=
  match s with
  | String a (String b r) =>
      if p a && q b then Some (10 * digit_val a + digit_val b, r) else None
  | _ => None
  end.

Definition digits1 (p : ascii -> bool) (s : string) : option (Z * string) :=
  match s with
  | String a r => if p a then Some (digit_val a, r) else None
  | _ => None
  end.

Definition blank_digit (q : ascii -> bool) (s : string) : option (Z * string) :=
  match s with
  | String a (String b r) =>
      if (code a =? 32) && q b then Some (digit_val b, r) else None
  | _ => None
  end.

(** Alternation: the first alternative that matches is the one taken.  In
    the patterns below a longer alternative is never followed by text that
    a shorter one could give back, so no backtracking is lost. *)
Fixpoint alternatives (alts : list (string -> option (Z * string)))
  (s : string) : option (Z * string) :=
  match alts with
  | [] => None
  | f :: rest =>
      match f s with
      | Some r => Some r
      | None => alternatives rest s
      end
  end.

(** [%Y]: [\d\d\d\d]. *)
Definition match_Y (s : string) : option (Z * string) :=
  match s with
  | String a (String b (String c (String d r))) =>
      if is_digit a && is_digit b && is_digit c && is_digit d
      then Some (1000 * digit_val a + 100 * digit_val b
                 + 10 * digit_val c + digit_val d, r)
      else None
  | _ => None
  end.

(** [%m]: [1[0-2]|0[1-9]|[1-9]]. *)
Definition match_m : string -> option (Z * string) :=
  alternatives [digits2 (between 49 49) (between 48 50);
                digits2 (between 48 48) (between 49 57);
                digits1 (between 49 57)].

(** [%d]: [3[0-1]|[1-2]\d|0[1-9]|[1-9]| [1-9]]. *)
Definition match_d : string -> option (Z * string) :=
  alternatives [digits2 (between 51 51) (between 48 49);
                digits2 (between 49 50) is_digit;
                digits2 (between 48 48) (between 49 57);
                digits1 (between 49 57);
                blank_digit (between 49 57)].

(** [%H]: [2[0-3]|[0-1]\d|\d]. *)
Definition match_H : string -> option (Z * string) :=
  alternatives [digits2 (between 50 50) (between 48 51);
                digits2 (between 48 49) is_digit;
                digits1 is_digit].

(** [%M]: [[0-5]\d|\d]. *)
Definition match_M : string -> option (Z * string) :=
  alternatives [digits2 (between 48 53) is_digit;
                digits1 is_digit].

Definition literal (c : ascii) (s : string) : option string :=
  match s with
  | String a r => if Ascii.eqb a c then Some r else None
  | EmptyString => None
  end.

(** A blank in the format: [\s+]. *)
Definition spaces (s : string) : option string :=
  match s with
  | String a r => if is_space a then Some (lstrip r) else None
  | EmptyString => None
  end.

Definition is_leap (y : Z) : bool :=
  (y mod 4 =? 0) && (negb (y mod 100 =? 0) || (y mod 400 =? 0)).

Definition days_in_month (y m : Z) : Z :=
  if m =? 2 then (if is_leap y then 29 else 28)
  else if (m =? 4) || (m =? 6) || (m =? 9) || (m =? 11) then 30
  else 31.

(** The checks of the [date] constructor. *)
Definition valid_date (d : date) : bool :=
  (1 <=? year d) && (year d <=? 9999)
  && (1 <=? month d) && (month d <=? 12)
  && (1 <=? day d) && (day d <=? days_in_month (year d) (month d)).

(** The match of ['%Y-%m-%d'] at the start of the text. *)
Definition match_ymd (s : string) : option (date * string) :=
  '(y, s) ← match_Y s;
  s ← literal "-" s;
  '(m, s) ← match_m s;
  s ← literal "-" s;
  '(d, s) ← match_d s;
  Some ({| year := y; month := m; day := d |}, s).

(** [datetime.strptime(s, '%Y-%m-%d')]; [None] stands for its
    [ValueError]: no match, unconverted data, or a date that does not
    exist. *)
Definition strptime_ymd (s : string) : option date :=
  '(d, rest) ← match_ymd s;
  match rest with
  | EmptyString => if valid_date d then Some d else None
  | _ => None
  end.

(** The rest of the format ['%Y-%m-%d %H:%M'] after the date: blanks, the
    hour, a colon and the minute, up to the end of the text. *)
Definition match_time (s : string) : option (Z * Z) :=
  s ← spaces s;
  '(h, s) ← match_H s;
  s ← literal ":" s;
  '(mi, rest) ← match_M s;
  match rest with
  | EmptyString => Some (h, mi)
  | _ => None
  end.

(** [datetime.strptime(s, '%Y-%m-%d %H:%M')]. *)
Definition strptime_ymd_hm (s : string) : option datetime :=
  '(d, s) ← match_ymd s;
  '(h, mi) ← match_time s;
  if valid_date d then Some {| on := d; hour := h; minute := mi |}
  else None.

Definition days_before_year (y : Z) : Z :=
  let p := y - 1 in p * 365 + p / 4 - p / 100 + p / 400.

Fixpoint days_before_month_from (y : Z) (m : nat) : Z :=
  match m with
  | O => 0
  | S k => days_before_month_from y k + days_in_month y (Z.of_nat (S k))
  end.

(** [date.toordinal()]. *)
Definition toordinal (d : date) : Z :=
  days_before_year (year d)
  + days_before_month_from (year d) (Z.to_nat (month d - 1)) + day d.

(** The ordinal of [date.max], 9999-12-31. *)
Definition MAXORDINAL : Z := 3652059.

(** [dt + timedelta(minutes=n)], as far as the code looks at it: how many
    calendar days later the sum falls and its time of day.  The sum raises
    [OverflowError] outside the years 1 to 9999. *)
Definition add_minutes (dt : datetime) (n : Z) : result (Z * (Z * Z)) :=
  let total := hour dt * 60 + minute dt + n in
  let days := total / 1440 in
  let tod := total mod 1440 in
  let o := toordinal (on dt) + days in
  if (1 <=? o) && (o <=? MAXORDINAL) then ok (days, (tod / 60, tod mod 60))
  else raise OverflowError.

(** The format specification [:02d] on a number that is not negative. *)
Definition pad2 (n : Z) : string :=
  if n <? 10 then "0" ++ pretty n else pretty n.

End Datetime.

(** ** Configuration ([config.json] after [json.load]) *)

Module Cfg.

Record FlightSearch := {
  source : option string;
  destination : option string;
  travel_date : option string;
  return_date : option string;
  passengers : option Z;
  class : option string
}.

Record Websites := {
  primary : option string;
  fallback : option (list string)
}.

Record SearchSettings := {
  max_results : option Z;
  sort_by : option string;
  timeout : option Z;
  retry_attempts : option Z
}.

Record BrowserSettings := {
  headless : option bool;
  window_size : option (list Z);
  user_agent : option string
}.

(** A key that is absent from the document is [None]. *)
Record Config := {
  flight_search : option FlightSearch;
  websites : option Websites;
  search_settings : option SearchSettings;
  browser_settings : option BrowserSettings
}.

End Cfg.

(** ** [utils.validate_config] *)

Module Utils.

Import Cfg.

Definition supported_websites : list string := ["kayak"; "expedia"; "booking"].

(** A section of the document must be present. *)
Definition require {A} (key : string) (o : option A) : result A :=
  match o with
  | Some a => ok a
  | None => raise (ValueError ("Missing required configuration key: " ++ key))
  end.

(** A parameter of the flight search must be present and not empty:
    [key not in flight_search or not flight_search[key]] raises. *)
Definition require_param (key : string) (o : option string) : result string :=
  match o with
  | Some s =>
      if Text.truthy s then ok s
      else raise (ValueError ("Missing required flight search parameter: " ++ key))
  | None => raise (ValueError ("Missing required flight search parameter: " ++ key))
  end.

Definition validate_config (config : Config) : result unit :=
  let* flight_search := require "flight_search" (flight_search config) in
  let* websites := require "websites" (websites config) in
  let* _ := require "search_settings" (search_settings config) in
  let* _ := require "browser_settings" (browser_settings config) in
  let* _ := require_param "source" (source flight_search) in
  let* _ := require_param "destination" (destination flight_search) in
  let* travel_date := require_param "travel_date" (travel_date flight_search) in
  let* _ :=
    match Datetime.strptime_ymd travel_date with
    | Some _ => ok tt
    | None => raise (ValueError "Invalid travel_date format. Use YYYY-MM-DD")
    end in
  let* _ :=
    match return_date flight_search with
    | Some r =>
        if Text.truthy r then
          match Datetime.strptime_ymd r with
          | Some _ => ok tt
          | None => raise (ValueError "Invalid return_date format. Use YYYY-MM-DD")
          end
        else ok tt
    | None => ok tt
    end in
  match primary websites with
  | None => raise (ValueError "Missing primary website in configuration")
  | Some p =>
      if bool_decide (p ∈ supported_websites) then ok tt
      else raise (ValueError
        "Unsupported primary website. Supported: ['kayak', 'expedia', 'booking']")
  end.

End Utils.

(** ** [random] *)

(** The generator behind the [random] module: a state and the one primitive
    every draw goes through, [_randbelow(n)], which yields a number in
    [0, n). *)
Class RandomGen (G : Type) := {
  randbelow : Z -> G -> Z * G;
  randbelow_range : forall n g, 0 < n -> 0 <= fst (randbelow n g) < n
}.

(** Code that draws random numbers and may raise: the generator state is
    threaded through, also past an exception. *)
Definition M (G A : Type) : Type := G -> result A * G.

Definition ret {G A} (a : A) : M G A := fun g => (ok a, g).

Definition lift {G A} (r : result A) : M G A := fun g => (r, g).

Definition draw {G A} (f : G -> A * G) : M G A :=
  fun g => let '(a, g') := f g in (ok a, g').

Definition bindM {G A B} (m : M G A) (k : A -> M G B) : M G B :=
  fun g =>
    match m g with
    | (inl e, g') => (inl e, g')
    | (inr a, g') => k a g'
    end.

Notation "'let!' x ':=' m 'in' k" := (bindM m (fun x => k))
  (at level 10, x name, m at level 100, k at level 200).

Module Random.
Section Draws.
Context {G : Type} `{!RandomGen G}.

(** [random.randint(a, b)]; an empty range raises [ValueError]. *)
Definition randint (a b : Z) : M G Z :=
  if b <? a then lift (raise (ValueError "empty range for randrange()"))
  else let! r := draw (randbelow (b - a + 1)) in ret (a + r).

(** [random.choice(seq)]; an empty sequence raises [IndexError]. *)
Definition choice {A} (seq : list A) : M G A :=
  match seq with
  | [] => lift (raise IndexError)
  | x :: _ =>
      let! i := draw (randbelow (Z.of_nat (length seq))) in
      ret (nth (Z.to_nat i) seq x)
  end.

(** [itertools.accumulate(weights)]. *)
Fixpoint accumulate (acc : Z) (ws : list Z) : list Z :=
  match ws with
  | [] => []
  | w :: ws' => (acc + w) :: accumulate (acc + w) ws'
  end.

(** [bisect.bisect(cum, v)]: how many entries are at most [v]. *)
Fixpoint bisect (cum : list Z) (v : Z) : nat :=
  match cum with
  | [] => O
  | c :: cum' => if v <? c then O else S (bisect cum' v)
  end.

(** [random.choices(population, weights=weights)[0]], with the weights
    given in tenths: the draw [random() * total] becomes a draw below the
    total weight.  An empty population, weights of another length or a
    total that is not positive raise. *)
Definition choices {A} (population : list A) (weights : list Z) : M G A :=
  match population with
  | [] => lift (raise IndexError)
  | x :: _ =>
      let cum := accumulate 0 weights in
      let total := List.last cum 0 in
      if negb (length weights =? length population)%nat || (total <=? 0)
      then lift (raise (ValueError "invalid weights"))
      else
        let! v := draw (randbelow total) in
        ret (nth (Nat.min (bisect cum v) (length population - 1)) population x)
  end.
End Draws.
End Random.

(** ** [DemoFlightScraper] *)

Module Demo.

Import Cfg.

(** [self.airlines], in insertion order. *)
Definition airlines : list (string * (Z * Z)) :=
  [("American Airlines", (200, 800));
   ("Delta Air Lines", (220, 850));
   ("United Airlines", (210, 820));
   ("Southwest Airlines", (150, 600));
   ("JetBlue Airways", (180, 700));
   ("Alaska Airlines", (190, 750));
   ("Spirit Airlines", (100, 400));
   ("Frontier Airlines", (120, 450))].

(** [self.airlines[name]]. *)
Fixpoint airlines_get (name : string) (table : list (string * (Z * Z)))
  : result (Z * Z) :=
  match table with
  | [] => raise (KeyError name)
  | (k, v) :: rest => if String.eqb k name then ok v else airlines_get name rest
  end.

(** [self.flight_durations]. *)
Definition flight_durations : gmap (string * string) (Z * Z) :=
  list_to_map
    [(("NYC", "LAX"), (330, 390));
     (("NYC", "CHI"), (150, 180));
     (("LAX", "CHI"), (240, 280));
     (("NYC", "MIA"), (180, 220));
     (("LAX", "SEA"), (150, 180))].

(** The range the duration is drawn from. *)
Definition duration_range (source destination : string) : Z * Z :=
  let route_key := (Text.upper source, Text.upper destination) in
  let reverse_route_key := (Text.upper destination, Text.upper source) in
  match flight_durations !! route_key with
  | Some r => r
  | None =>
      match flight_durations !! reverse_route_key with
      | Some r => r
      | None => (120, 480)
      end
  end.

Section Generator.
Context {G : Type} `{!RandomGen G}.

(** [_generate_flight]. *)
Definition _generate_flight (source destination travel_date : string)
  : M G Flight :=
  let! airline := Random.choice (map fst airlines) in
  let! price_range := lift (airlines_get airline airlines) in
  let! base_price := Random.randint (fst price_range) (snd price_range) in
  let! jitter := Random.randint (-50) 100 in
  let price_numeric := base_price + jitter in
  let duration_range := duration_range source destination in
  let! duration_minutes :=
    Random.randint (fst duration_range) (snd duration_range) in
  let hours := duration_minutes / 60 in
  let minutes := duration_minutes mod 60 in
  let duration := pretty hours ++ "h " ++ pretty minutes ++ "m" in
  let! departure_hour := Random.randint 6 22 in
  let! departure_minute := Random.choice [0; 15; 30; 45] in
  let departure_time :=
    Datetime.pad2 departure_hour ++ ":" ++ Datetime.pad2 departure_minute in
  let! departure_dt :=
    lift match Datetime.strptime_ymd_hm (travel_date ++ " " ++ departure_time) with
         | Some dt => ok dt
         | None => raise (ValueError "time data does not match format '%Y-%m-%d %H:%M'")
         end in
  let! arrival := lift (Datetime.add_minutes departure_dt duration_minutes) in
  let arrival_time :=
    Datetime.pad2 (fst (snd arrival)) ++ ":" ++ Datetime.pad2 (snd (snd arrival)) in
  let arrival_time :=
    if 0 <? fst arrival then arrival_time ++ " +1" else arrival_time in
  let! stops := Random.choices ["Nonstop"; "1 stop"; "2 stops"] [4; 5; 1] in
  let! price_numeric :=
    if String.eqb stops "Nonstop" then
      (let! extra := Random.randint 50 150 in ret (price_numeric + extra))
    else if String.eqb stops "2 stops" then
      (let! less := Random.randint 30 100 in ret (price_numeric - less))
    else ret price_numeric in
  let price := "$" ++ pretty price_numeric in
  ret (list_to_map
         [("airline", VStr airline);
          ("departure_time", VStr departure_time);
          ("arrival_time", VStr arrival_time);
          ("duration", VStr duration);
          ("duration_minutes", VNum (Fin duration_minutes));
          ("price", VStr price);
          ("price_numeric", VNum (Fin price_numeric));
          ("stops", VStr stops);
          ("departure_airport", VStr (Text.upper source));
          ("arrival_airport", VStr (Text.upper destination));
          ("website", VStr "Demo Data")] : Flight).

(** The loop [for i in range(n): flights.append(...)]. *)
Fixpoint generate_flights (n : nat) (source destination travel_date : string)
  : M G (list Flight) :=
  match n with
  | O => ret []
  | S k =>
      let! flight := _generate_flight source destination travel_date in
      let! flights := generate_flights k source destination travel_date in
      ret (flight :: flights)
  end.

(** [search_flights]. *)
Definition search_flights (config : Config)
  (source destination travel_date : string) (return_date : option string)
  (passengers : Z) (flight_class : string) : M G (list Flight) :=
  let! num_flights :=
    lift (let* settings := subscript "search_settings" (search_settings config) in
          let* max_results := subscript "max_results" (max_results settings) in
          ok (Z.min max_results 8)) in
  let! flights :=
    generate_flights (Z.to_nat num_flights) source destination travel_date in
  lift (PyList.sort
          (fun x : Flight => subscript "price_numeric" (x !! "price_numeric"))
          flights).
End Generator.

End Demo.

(** ** Source adapters and [FlightScraperFactory] *)

(** The arguments of [scraper.search_flights]. *)
Record Query := {
  q_source : string;
  q_destination : string;
  q_travel_date : string;
  q_return_date : option string;
  q_passengers : Z;
  q_flight_class : string
}.

(** The scraper classes. *)
Inductive Scraper :=
| KayakScraper
| ExpediaScraper
| BookingScraper
| DemoFlightScraper.

(** What the aggregator runs against: whether the browser toolkit could be
    imported, and what [search_flights] of a scraper does in a state of the
    outside world (the web sites, the random generator). *)
Class Adapters (W : Type) := {
  SELENIUM_AVAILABLE : bool;
  scraper_search :
    Scraper -> Cfg.Config -> Query -> W -> result (list Flight) * W
}.

Module Scrapers.

Import Cfg.

(** [BaseFlightScraper.__init__] reads two settings. *)
Definition base_init (config : Config) : result unit :=
  let* settings := subscript "search_settings" (search_settings config) in
  let* _ := subscript "timeout" (timeout settings) in
  let* _ := subscript "retry_attempts" (retry_attempts settings) in
  ok tt.

(** [FlightScraperFactory.SCRAPERS.get(name)]. *)
Definition SCRAPERS (name : string) : option Scraper :=
  if String.eqb name "kayak" then Some KayakScraper
  else if String.eqb name "expedia" then Some ExpediaScraper
  else if String.eqb name "booking" then Some BookingScraper
  else None.

(** [FlightScraperFactory.create_scraper]. *)
Definition create_scraper (selenium_available : bool) (website : string)
  (config : Config) : result Scraper :=
  match SCRAPERS (Text.lower website) with
  | None =>
      if negb selenium_available then ok DemoFlightScraper
      else raise (ValueError ("Unsupported website: " ++ website))
  | Some scraper_class => let* _ := base_init config in ok scraper_class
  end.

(** The one record [BookingScraper.search_flights] returns. *)
Definition booking_sample : Flight :=
  list_to_map
    [("airline", VStr "Sample Airline");
     ("departure_time", VStr "12:00 PM");
     ("arrival_time", VStr "4:00 PM");
     ("duration", VStr "4h 0m");
     ("duration_minutes", VNum (Fin 240));
     ("price", VStr "$350");
     ("price_numeric", VNum (Fin 350));
     ("stops", VStr "1 stop");
     ("website", VStr "Booking.com")].

End Scrapers.

(** ** [FlightScannerAgent] *)

Module Agent.

Import Cfg.

(** An agent exists only once [__init__] has returned. *)
Record FlightScannerAgent := { config : Config }.

(** [FlightScannerAgent.__init__] on the loaded configuration document. *)
Definition init (document : Config) : result FlightScannerAgent :=
  let* _ := Utils.validate_config document in
  ok {| config := document |}.

(** One pass through the body of the loop over the web sites: what the
    [try] block yields, an exception standing for the [except] branch. *)
Definition Attempt : Type := string * result (list Flight).

(** The arguments of the adapter call, read from the configuration. *)
Definition query_of (config : Config) : result Query :=
  let* fs := subscript "flight_search" (flight_search config) in
  let* source := subscript "source" (source fs) in
  let* destination := subscript "destination" (destination fs) in
  let* travel_date := subscript "travel_date" (travel_date fs) in
  let* passengers := subscript "passengers" (passengers fs) in
  let* flight_class := subscript "class" (class fs) in
  ok {| q_source := source; q_destination := destination;
        q_travel_date := travel_date; q_return_date := return_date fs;
        q_passengers := passengers; q_flight_class := flight_class |}.

(** [[primary] + fallback]. *)
Definition websites_to_try (config : Config) : result (list string) :=
  let* websites := subscript "websites" (websites config) in
  let* primary := subscript "primary" (primary websites) in
  let* fallback := subscript "fallback" (fallback websites) in
  ok (primary :: fallback).

(** The sort keys of the aggregator. *)
Definition price_key (x : Flight) : pyval :=
  default (VNum PosInf) (x !! "price_numeric").
Definition duration_key (x : Flight) : pyval :=
  default (VNum PosInf) (x !! "duration_minutes").
Definition departure_key (x : Flight) : pyval :=
  default (VStr "") (x !! "departure_time").

(** Lines 81 to 87: sort by the configured key; any other value of
    [sort_by] leaves the list as it is. *)
Definition sort_flights (sort_key : string) (all_flights : list Flight)
  : result (list Flight) :=
  if String.eqb sort_key "price" then
    PyList.sort (fun x => ok (price_key x)) all_flights
  else if String.eqb sort_key "duration" then
    PyList.sort (fun x => ok (duration_key x)) all_flights
  else if String.eqb sort_key "departure_time" then
    PyList.sort (fun x => ok (departure_key x)) all_flights
  else ok all_flights.

(** Lines 80 to 91: sort, then cut. *)
Definition sort_and_limit (config : Config) (all_flights : list Flight)
  : result (list Flight) :=
  let* settings := subscript "search_settings" (search_settings config) in
  let sort_key := default "price" (sort_by settings) in
  let* sorted := sort_flights sort_key all_flights in
  let max_results := default 10 (max_results settings) in
  ok (PyList.slice_to sorted max_results).

Section Search.
Context {W : Type} `{!Adapters W}.

(** The [try] block for one web site. *)
Definition attempt (config : Config) (website : string) (w : W)
  : result (list Flight) * W :=
  match Scrapers.create_scraper SELENIUM_AVAILABLE website config with
  | inl e => (inl e, w)
  | inr scraper =>
      match query_of config with
      | inl e => (inl e, w)
      | inr q => scraper_search scraper config q w
      end
  end.

(** The loop over [websites_to_try]: the flights collected, the attempts
    made in order, and the world afterwards. *)
Fixpoint try_websites (config : Config) (sites : list string) (w : W)
  : list Flight * list Attempt * W :=
  match sites with
  | [] => ([], [], w)
  | website :: rest =>
      let '(r, w') := attempt config website w in
      match r with
      | inr (f :: flights) => (f :: flights, [(website, r)], w')
      | _ =>
          let '(all_flights, attempts, w'') := try_websites config rest w' in
          (all_flights, (website, r) :: attempts, w'')
      end
  end.

(** [search_flights]. *)
Definition search_flights (agent : FlightScannerAgent) (w : W)
  : result (list Flight) * list Attempt * W :=
  let config := config agent in
  match (let* fs := subscript "flight_search" (flight_search config) in
         let* _ := subscript "source" (source fs) in
         let* _ := subscript "destination" (destination fs) in
         let* _ := subscript "travel_date" (travel_date fs) in
         websites_to_try config) with
  | inl e => (inl e, [], w)
  | inr sites =>
      let '(all_flights, attempts, w') := try_websites config sites w in
      match all_flights with
      | [] => (ok [], attempts, w')
      | _ => (sort_and_limit config all_flights, attempts, w')
      end
  end.

(** [main] up to the search: build the agent, then search. *)
Definition main (document : Config) (w : W)
  : result (list Flight) * list Attempt * W :=
  match init document with
  | inl e => (inl e, [], w)
  | inr agent => search_flights agent w
  end.
End Search.

End Agent.

(** ** The adapters of the repository *)

Module Repo.

(** The outside world: the random generator and, for the two scrapers that
    drive a browser, what their calls will return, in call order. *)
Record World (G : Type) := {
  rng : G;
  browser : list (result (list Flight))
}.
Arguments rng {G} _.
Arguments browser {G} _.

Section Instance.
Context {G : Type} `{!RandomGen G}.

Definition browser_search (w : World G) : result (list Flight) * World G :=
  match browser w with
  | [] => (ok [], w)
  | r :: rest => (r, {| rng := rng w; browser := rest |})
  end.

Definition search (scraper : Scraper) (config : Cfg.Config) (q : Query)
  (w : World G) : result (list Flight) * World G :=
  match scraper with
  | KayakScraper | ExpediaScraper => browser_search w
  | BookingScraper => (ok [Scrapers.booking_sample], w)
  | DemoFlightScraper =>
      let '(r, g') :=
        Demo.search_flights config (q_source q) (q_destination q)
          (q_travel_date q) (q_return_date q) (q_passengers q)
          (q_flight_class q) (rng w) in
      (r, {| rng := g'; browser := browser w |})
  end.

Definition adapters (selenium_available : bool) : Adapters (World G) :=
  {| SELENIUM_AVAILABLE := selenium_available; scraper_search := search |}.
End Instance.

End Repo.

(** ** Vocabulary of the specification: text *)

Module TextSpec.

Import Text.

(** The longest prefix whose characters satisfy [p], and what follows it. *)
Fixpoint take_while (p : ascii -> bool) (s : string) : string :=
  match s with
  | EmptyString => EmptyString
  | String c t => if p c then String c (take_while p t) else EmptyString
  end.

Fixpoint drop_while (p : ascii -> bool) (s : string) : string :=
  match s with
  | EmptyString => EmptyString
  | String c t => if p c then drop_while p t else s
  end.

Definition starts_with (x : ascii) (s : string) : bool :=
  match s with
  | String c _ => Ascii.eqb c x
  | EmptyString => false
  end.

(** A match of [\d+x] that begins at the first character of [s]: all the
    digits there, when there is one and [x] follows. *)
Definition match_at (x : ascii) (s : string) : option string :=
  let run := take_while is_digit s in
  if truthy run && starts_with x (drop_while is_digit s)
  then Some run else None.

(** The first number matched by the pattern [<N>x]: the match at the
    leftmost position that has one. *)
Fixpoint first_number_before (x : ascii) (s : string) : option string :=
  match s with
  | EmptyString => None
  | String _ t =>
      match match_at x s with
      | Some run => Some run
      | None => first_number_before x t
      end
  end.

(** The component of a duration: the number before [x], or 0 when the
    pattern is absent. *)
Definition component (x : ascii) (s : string) : Z :=
  match first_number_before x s with
  | Some run => int_of_digits run
  | None => 0
  end.

End TextSpec.

(** ** Vocabulary of the specification: flight records *)

Module RecordSpec.

Definition is_number (v : pyval) : Prop := exists n, v = VNum n.
Definition is_text (v : pyval) : Prop := exists s, v = VStr s.

Definition num_of (v : pyval) : number :=
  match v with VNum n => n | _ => PosInf end.
Definition text_of (v : pyval) : string :=
  match v with VStr s => s | _ => "" end.

(** What the schema asks of the fields the aggregator sorts by.  Where the
    record has a price or a duration, it is a number (finite or the
    sentinel); where it has a departure time, it is a text. *)
Definition numeric_fields (x : Flight) : Prop :=
  (forall v, x !! "price_numeric" = Some v -> is_number v)
  /\ (forall v, x !! "duration_minutes" = Some v -> is_number v).

Definition textual_departure (x : Flight) : Prop :=
  forall v, x !! "departure_time" = Some v -> is_text v.

Definition well_typed (x : Flight) : Prop :=
  numeric_fields x /\ textual_departure x.

(** The key function behind a configured [sort_by]. *)
Definition key_of (sort_key : string) : Flight -> pyval :=
  if String.eqb sort_key "price" then Agent.price_key
  else if String.eqb sort_key "duration" then Agent.duration_key
  else Agent.departure_key.

(** The keys of [l] never decrease: no item is followed, anywhere later,
    by one whose key is below its own. *)
Definition ascending (key : Flight -> pyval) (l : list Flight) : Prop :=
  forall i j a b, (i < j)%nat -> l !! i = Some a -> l !! j = Some b ->
    PyList.py_lt (key b) (key a) = ok false.

(** Items with the same key stand in [l'] as they stand in [l]. *)
Definition keeps_ties (key : Flight -> pyval) (l l' : list Flight) : Prop :=
  forall v, filter (fun x => key x = v) l' = filter (fun x => key x = v) l.


End RecordSpec.

(** ** Vocabulary of the specification: the fallback chain *)

Module ChainSpec.

Import Cfg.

(** A source yields nothing when its call returns the empty list or
    raises. *)
Definition yields_nothing (r : result (list Flight)) : Prop :=
  match r with
  | inr (_ :: _) => False
  | _ => True
  end.

Section Chain.
Context {W : Type} `{!Adapters W}.

(** One source tried, as the specification words it: the factory is asked
    for the adapter of the site and, when it gives one, the adapter is
    invoked with the search of the configuration, in the world [w].
    [source_call config site w r w'] : trying [site] in the world [w]
    returns or raises [r] and leaves the world [w'].
    - When the factory raises, no adapter is invoked and the world stays.
    - When an argument of the call is missing, reading it raises, no
      adapter is invoked and the world stays.
    - Otherwise [r] and [w'] are what the adapter's [search_flights] gives. *)
Inductive source_call (config : Config) (site : string) (w : W)
  : result (list Flight) -> W -> Prop :=
| call_without_adapter e :
    Scrapers.create_scraper SELENIUM_AVAILABLE site config = raise e ->
    source_call config site w (raise e) w
| call_without_arguments scraper e :
    Scrapers.create_scraper SELENIUM_AVAILABLE site config = ok scraper ->
    Agent.query_of config = raise e ->
    source_call config site w (raise e) w
| call_adapter scraper q r w' :
    Scrapers.create_scraper SELENIUM_AVAILABLE site config = ok scraper ->
    Agent.query_of config = ok q ->
    scraper_search scraper config q w = (r, w') ->
    source_call config site w r w'.

(** The transition rule of the aggregator, as the specification words
    it.  [first_success config sites w attempts accepted w'] : from the
    world [w], trying [sites] in order makes the attempts [attempts],
    each in the world the one before left, accepts [accepted] and leaves
    the world [w'].
    - With no source left, nothing is accepted.
    - A source that returns a non-empty list is accepted, and no further
      source is tried.
    - A source that yields nothing is followed by the next. *)
Inductive first_success (config : Config)
  : list string -> W -> list Agent.Attempt -> list Flight -> W -> Prop :=
| chain_exhausted w :
    first_success config [] w [] [] w
| chain_accept site rest w f flights w' :
    source_call config site w (inr (f :: flights)) w' ->
    first_success config (site :: rest) w
      [(site, inr (f :: flights))] (f :: flights) w'
| chain_advance site rest w r w' attempts accepted w'' :
    source_call config site w r w' ->
    yields_nothing r ->
    first_success config rest w' attempts accepted w'' ->
    first_success config (site :: rest) w
      ((site, r) :: attempts) accepted w''.
End Chain.

(** [search_settings.max_results], 10 when the setting is absent. *)
Definition configured_max (config : Config) : Z :=
  match search_settings config with
  | Some settings => default 10 (max_results settings)
  | None => 10
  end.

(** [search_settings.sort_by], 'price' when the setting is absent. *)
Definition configured_sort (config : Config) : string :=
  match search_settings config with
  | Some settings => default "price" (sort_by settings)
  | None => "price"
  end.

End ChainSpec.

(** ** Vocabulary of the specification: configuration errors *)

Module ConfigSpec.

Import Cfg.

(** The form YYYY-MM-DD as the specification words it: four digits, a
    hyphen, two digits, a hyphen, two digits. *)
Definition iso_form (s : string) : bool :=
  match s with
  | String y1 (String y2 (String y3 (String y4 (String h1
      (String m1 (String m2 (String h2 (String d1 (String d2 EmptyString)))))))))
    =>
      Text.is_digit y1 && Text.is_digit y2 && Text.is_digit y3
      && Text.is_digit y4 && Ascii.eqb h1 "-"
      && Text.is_digit m1 && Text.is_digit m2 && Ascii.eqb h2 "-"
      && Text.is_digit d1 && Text.is_digit d2
  | _ => false
  end.

(** The configurations [validate_config] is written to refuse. *)
Inductive config_error (c : Config) : Prop :=
| missing_flight_search : flight_search c = None -> config_error c
| missing_websites : websites c = None -> config_error c
| missing_search_settings : search_settings c = None -> config_error c
| missing_browser_settings : browser_settings c = None -> config_error c
| missing_source fs :
    flight_search c = Some fs ->
    source fs = None \/ source fs = Some "" -> config_error c
| missing_destination fs :
    flight_search c = Some fs ->
    destination fs = None \/ destination fs = Some "" -> config_error c
| missing_travel_date fs :
    flight_search c = Some fs ->
    travel_date fs = None \/ travel_date fs = Some "" -> config_error c
| bad_travel_date fs d :
    flight_search c = Some fs -> travel_date fs = Some d ->
    Datetime.strptime_ymd d = None -> config_error c
| bad_return_date fs r :
    flight_search c = Some fs -> return_date fs = Some r -> r <> "" ->
    Datetime.strptime_ymd r = None -> config_error c
| missing_primary ws :
    websites c = Some ws -> primary ws = None -> config_error c
| unsupported_primary ws p :
    websites c = Some ws -> primary ws = Some p ->
    p ∉ Utils.supported_websites -> config_error c.

End ConfigSpec.

(** ** A generator and sample data to run the code on *)

Module Sample.

(** A linear congruential generator: the state is the last number drawn.
    Any generator would do; nothing proved below depends on this one. *)
Definition lcg_next (g : Z) : Z := (1103515245 * g + 12345) mod 2 ^ 31.

#[global] Instance lcg : RandomGen Z.
Proof.
  refine {| randbelow := fun n g => (g mod n, lcg_next g) |}.
  intros n g Hn. cbn. apply Z.mod_pos_bound. exact Hn.
Defined.

Definition browser_settings : Cfg.BrowserSettings :=
  {| Cfg.headless := Some true;
     Cfg.window_size := Some [1920; 1080];
     Cfg.user_agent := Some "Mozilla/5.0" |}.

(** A configuration in the shape of the repository's [config.json]. *)
Definition document (primary : string) (fallback : list string)
  (travel_date : string) (max_results : option Z) (sort_by : option string)
  : Cfg.Config :=
  {| Cfg.flight_search :=
       Some {| Cfg.source := Some "NYC"; Cfg.destination := Some "LAX";
               Cfg.travel_date := Some travel_date;
               Cfg.return_date := None;
               Cfg.passengers := Some 1; Cfg.class := Some "economy" |};
     Cfg.websites :=
       Some {| Cfg.primary := Some primary; Cfg.fallback := Some fallback |};
     Cfg.search_settings :=
       Some {| Cfg.max_results := max_results; Cfg.sort_by := sort_by;
               Cfg.timeout := Some 30; Cfg.retry_attempts := Some 3 |};
     Cfg.browser_settings := Some browser_settings |}.

(** A record with the two numeric fields. *)
Definition flight (price duration : number) : Flight :=
  {[ "price_numeric" := VNum price; "duration_minutes" := VNum duration ]}.

(** A world in which the browser finds nothing. *)
Definition quiet (seed : Z) : Repo.World Z :=
  {| Repo.rng := seed; Repo.browser := [] |}.

(** A world in which the first browser search finds nothing and the
    second one raises. *)
Definition failing : Repo.World Z :=
  {| Repo.rng := 1;
     Repo.browser := [ok []; raise (ValueError "driver has quit")] |}.

(** A world in which the first browser search finds three records. *)
Definition three_found : Repo.World Z :=
  {| Repo.rng := 1;
     Repo.browser :=
       [ok [flight (Fin 30) (Fin 90); flight (Fin 10) PosInf;
            flight (Fin 20) (Fin 60)]] |}.

(** Records with and without the fields, with and without the sentinel. *)
Definition mixed : list Flight :=
  [flight PosInf (Fin 100); flight (Fin 30) PosInf; ∅; flight (Fin 30) (Fin 5)].

End Sample.

(** ** Vocabulary of the specification: the demo generator *)

Module DemoSpec.

(** The duration [dm] lies in the range the route table gives for the
    pair, looked up as given or reversed, and in [120, 480] for a pair the
    table does not have. *)
Definition in_route_range (source destination : string) (dm : Z) : Prop :=
  let route := (Text.upper source, Text.upper destination) in
  let reverse := (Text.upper destination, Text.upper source) in
  (forall lo hi, Demo.flight_durations !! route = Some (lo, hi) -> lo <= dm <= hi)
  /\ (forall lo hi,
        Demo.flight_durations !! reverse = Some (lo, hi) -> lo <= dm <= hi)
  /\ (Demo.flight_durations !! route = None ->
      Demo.flight_durations !! reverse = None -> 120 <= dm <= 480)
  /\ (route = ("NYC", "LAX") \/ reverse = ("NYC", "LAX") -> 330 <= dm <= 390).

Definition duration_in_route_range (source destination : string)
  (flight : Flight) : Prop :=
  exists dm,
    flight !! "duration_minutes" = Some (VNum (Fin dm))
    /\ in_route_range source destination dm.

(** Every record has a finite numeric price, and no record is followed by
    a cheaper one. *)
Definition price_ascending (flights : list Flight) : Prop :=
  forall i j a b, (i <= j)%nat ->
    flights !! i = Some a -> flights !! j = Some b ->
    exists pa pb,
      a !! "price_numeric" = Some (VNum (Fin pa))
      /\ b !! "price_numeric" = Some (VNum (Fin pb))
      /\ pa <= pb.

End DemoSpec.

(** ** [utils.format_airport_code] *)

Module Airports.

Import Text.

Definition is_alpha_char (c : ascii) : bool :=
  let n := code c in
  ((65 <=? n) && (n <=? 90)) || ((97 <=? n) && (n <=? 122)).

(** [s.isalpha()] on ASCII text: not empty, and letters only. *)
Definition isalpha (s : string) : bool :=
  truthy s && forallb_str is_alpha_char s.

(** [format_airport_code]: the empty code is refused; every branch that
    follows returns the trimmed, upper-cased code. *)
Definition format_airport_code (code : string) : result string :=
  if negb (truthy code) then raise (ValueError "Airport code cannot be empty")
  else
    let code := upper (strip code) in
    if (3 <? String.length code)%nat then ok code
    else if (String.length code =? 3)%nat && isalpha code then ok code
    else ok code.

End Airports.

(** ** [KayakScraper]: from the elements of the result page to records *)

Module Kayak.

Import Cfg.

(** What the look-ups of [_parse_kayak_flight] find in one result element.
    [find_element] raises when nothing matches the selector: a field that is
    [None] stands for that.  [get_attribute] gives [None] for an attribute
    the element does not have, and [find_elements] gives a list. *)
Record Element := {
  airline_title : option (option string);
  time_texts : list string;
  duration_text : option string;
  price_text : option string;
  stops_text : option string
}.

(** [_parse_kayak_flight]: the record, or [None] when a look-up raised. *)
Definition _parse_kayak_flight (element : Element)
  (source destination : string) : option Flight :=
  title ← airline_title element;
  let airline := match title with Some t => VStr t | None => VNone end in
  let departure_time := nth 0 (time_texts element) "N/A" in
  let arrival_time := nth 1 (time_texts element) "N/A" in
  duration_elem ← duration_text element;
  '(duration, duration_minutes) ←
    match Parsers._parse_duration duration_elem with
    | inr parsed => Some parsed
    | inl _ => None
    end;
  price_elem ← price_text element;
  let '(price, price_numeric) := Parsers._parse_price price_elem in
  stops ← stops_text element;
  Some (list_to_map
          [("airline", airline);
           ("departure_time", VStr departure_time);
           ("arrival_time", VStr arrival_time);
           ("duration", VStr duration);
           ("duration_minutes", VNum duration_minutes);
           ("price", VStr price);
           ("price_numeric", VNum price_numeric);
           ("stops", VStr stops);
           ("departure_airport", VStr source);
           ("arrival_airport", VStr destination)] : Flight).

(** The loop of [search_flights] over the elements found: the first
    [max_results] of them are parsed, and each record that comes out is
    labelled and kept. *)
Definition collect (max_results : Z) (flight_elements : list Element)
  (source destination : string) : list Flight :=
  omap (fun element =>
          flight_data ← _parse_kayak_flight element source destination;
          Some (<["website" := VStr "Kayak"]> flight_data))
       (PyList.slice_to flight_elements max_results).

(** [search_flights] once the page has shown its results: without the
    setting [max_results] the look-up raises, the [except] clause logs it, and
    the empty list is returned. *)
Definition results (config : Config) (flight_elements : list Element)
  (source destination : string) : list Flight :=
  match (let* settings := subscript "search_settings" (search_settings config) in
         subscript "max_results" (max_results settings)) with
  | inr m => collect m flight_elements source destination
  | inl _ => []
  end.

End Kayak.

(** ** A generator that replays a tape *)

Module Tape.

(** The state is the list of the raw draws still to come; a draw below [n]
    takes the next one modulo [n], and 0 once the tape has run out. *)
Definition replay (n : Z) (g : list Z) : Z * list Z :=
  match g with
  | [] => (0, [])
  | x :: g' => (x mod n, g')
  end.

#[global] Instance tape : RandomGen (list Z).
Proof.
  refine {| randbelow := replay |}.
  intros n [|x g] Hn; cbn; [lia |]. apply Z.mod_pos_bound. exact Hn.
Defined.

End Tape.

(** ** Configurations that lack a field validation does not ask for *)

Module Lacking.

Definition passengers (primary : string) (fallback : list string) : Cfg.Config :=
  {| Cfg.flight_search :=
       Some {| Cfg.source := Some "NYC"; Cfg.destination := Some "LAX";
               Cfg.travel_date := Some "2024-01-05";
               Cfg.return_date := None;
               Cfg.passengers := None; Cfg.class := Some "economy" |};
     Cfg.websites :=
       Some {| Cfg.primary := Some primary; Cfg.fallback := Some fallback |};
     Cfg.search_settings :=
       Some {| Cfg.max_results := Some 5; Cfg.sort_by := Some "price";
               Cfg.timeout := Some 30; Cfg.retry_attempts := Some 3 |};
     Cfg.browser_settings := Some Sample.browser_settings |}.

Definition fallback (primary : string) : Cfg.Config :=
  {| Cfg.flight_search :=
       Some {| Cfg.source := Some "NYC"; Cfg.destination := Some "LAX";
               Cfg.travel_date := Some "2024-01-05";
               Cfg.return_date := None;
               Cfg.passengers := Some 1; Cfg.class := Some "economy" |};
     Cfg.websites :=
       Some {| Cfg.primary := Some primary; Cfg.fallback := None |};
     Cfg.search_settings :=
       Some {| Cfg.max_results := Some 5; Cfg.sort_by := Some "price";
               Cfg.timeout := Some 30; Cfg.retry_attempts := Some 3 |};
     Cfg.browser_settings := Some Sample.browser_settings |}.

End Lacking.

(** ** Records the demo generator draws from New York to Los Angeles *)

Module Drawn.

Definition record (airline departure_time arrival_time duration : string)
  (duration_minutes : Z) (price : string) (price_numeric : Z) (stops : string)
  : Flight :=
  list_to_map
    [("airline", VStr airline);
     ("departure_time", VStr departure_time);
     ("arrival_time", VStr arrival_time);
     ("duration", VStr duration);
     ("duration_minutes", VNum (Fin duration_minutes));
     ("price", VStr price);
     ("price_numeric", VNum (Fin price_numeric));
     ("stops", VStr stops);
     ("departure_airport", VStr "NYC");
     ("arrival_airport", VStr "LAX");
     ("website", VStr "Demo Data")].

(** The tape of the lowest fare: the cheapest airline at the low end of its
    range, the largest markdown, two stops with the largest discount. *)
Definition cheapest_tape : list Z := [6; 0; 0; 0; 0; 0; 9; 70].
Definition cheapest : Flight :=
  record "Spirit Airlines" "06:00" "11:30" "5h 30m" 330 "$-50" (-50) "2 stops".

(** The tape of the latest departure. *)
Definition red_eye_tape : list Z := [0; 0; 0; 0; 16; 3; 0; 0].
Definition red_eye : Flight :=
  record "American Airlines" "22:45" "04:15 +1" "5h 30m" 330 "$200" 200 "Nonstop".

(** The tape of the highest fare: the dearest airline at the high end of
    its range, the largest markup, nonstop with the largest surcharge. *)
Definition dearest_tape : list Z := [1; 630; 150; 0; 0; 0; 0; 100].
Definition dearest : Flight :=
  record "Delta Air Lines" "06:00" "11:30" "5h 30m" 330 "$1100" 1100 "Nonstop".

(** The first record of the generator [Sample.lcg] from seed 1. *)
Definition seeded : Flight :=
  record "Delta Air Lines" "06:30" "12:36" "6h 6m" 366 "$218" 218 "2 stops".

End Drawn.

(** ** Text with a long run of digits *)

Module Digits.

(** [n] times the digit 1. *)
Definition ones (n : nat) : string := string_of_list_ascii (replicate n "1"%char).

End Digits.

(** * Properties *)

(** ** Text *)

Section TextFacts.

Import Text TextSpec.

(** [String.append] is never unfolded by [simpl]: its two equations. *)
Lemma append_cons (c : ascii) (t s : string) :
  String c t ++ s = String c (t ++ s).
Proof. reflexivity. Qed.

Lemma append_empty_l (s : string) : "" ++ s = s.
Proof. reflexivity. Qed.

Lemma append_empty_r (s : string) : s ++ "" = s.
Proof.
  induction s as [|c t IH]; [reflexivity |].
  now rewrite append_cons, IH.
Qed.

Lemma append_assoc (a b c : string) : (a ++ b) ++ c = a ++ (b ++ c).
Proof.
  induction a as [|x a IH]; [reflexivity |].
  now rewrite !append_cons, IH.
Qed.

Lemma string_of_list_ascii_app (l1 l2 : list ascii) :
  string_of_list_ascii (l1 ++ l2)
  = string_of_list_ascii l1 ++ string_of_list_ascii l2.
Proof.
  induction l1 as [|x l IH]; [reflexivity |].
  cbn [app string_of_list_ascii]. now rewrite append_cons, IH.
Qed.

Lemma take_drop_while (p : ascii -> bool) (s : string) :
  take_while p s ++ drop_while p s = s.
Proof.
  induction s as [|c t IH]; [reflexivity |]. cbn [take_while drop_while].
  destruct (p c); [now rewrite append_cons, IH | reflexivity].
Qed.

Lemma take_while_all (p : ascii -> bool) (s : string) :
  forallb_str p (take_while p s) = true.
Proof.
  induction s as [|c t IH]; simpl; [reflexivity |].
  destruct (p c) eqn:E; simpl; [now rewrite E | reflexivity].
Qed.

Lemma drop_while_stops (p : ascii -> bool) (s : string) :
  drop_while p s = ""
  \/ exists c t, drop_while p s = String c t /\ p c = false.
Proof.
  induction s as [|c t IH]; simpl; [now left |].
  destruct (p c) eqn:E; [exact IH | right; eauto].
Qed.

Lemma take_while_none (p : ascii -> bool) (s : string) :
  existsb_str p (take_while (fun c => negb (p c)) s) = false.
Proof.
  induction s as [|c t IH]; simpl; [reflexivity |].
  destruct (p c) eqn:E; simpl; [reflexivity | now rewrite E].
Qed.

Lemma drop_while_absent (p : ascii -> bool) (s : string) :
  existsb_str p s = false -> drop_while (fun c => negb (p c)) s = "".
Proof.
  induction s as [|c t IH]; simpl; [reflexivity |].
  destruct (p c); simpl; [discriminate | exact IH].
Qed.

Lemma drop_while_present (p : ascii -> bool) (s : string) :
  existsb_str p s = true ->
  exists c t, drop_while (fun c => negb (p c)) s = String c t /\ p c = true.
Proof.
  induction s as [|c t IH]; simpl; [discriminate |].
  destruct (p c) eqn:E; simpl; [eauto | exact IH].
Qed.

Lemma remove_char_digits (s : string) :
  existsb_str is_digit (remove_char "," s) = existsb_str is_digit s.
Proof.
  induction s as [|c t IH]; simpl; [reflexivity |].
  destruct (Ascii.eqb_spec c ","%char) as [->|]; simpl; now rewrite IH.
Qed.

Lemma remove_char_gone (s : string) :
  existsb_str (fun c => Ascii.eqb c ",") (remove_char "," s) = false.
Proof.
  induction s as [|c t IH]; simpl; [reflexivity |].
  destruct (Ascii.eqb c ",") eqn:E; simpl; [exact IH | now rewrite E].
Qed.

End TextFacts.

(** ** [re.findall] *)

Section FindallFacts.

Import Text TextSpec Re.

(** With a run under way, the scanner completes it with the characters of
    the class that follow, and goes on after them. *)
Lemma findall_runs_acc (cls : ascii -> bool) (s : string) :
  forall cur, cur <> [] ->
    findall_runs cls cur s
    = (string_of_list_ascii (rev cur) ++ take_while cls s)
        :: findall_runs cls [] (drop_while cls s).
Proof.
  induction s as [|c t IH]; intros cur Hcur; simpl.
  - destruct cur; [congruence |]. now rewrite append_empty_r.
  - destruct (cls c) eqn:E.
    + rewrite IH by discriminate. simpl.
      rewrite string_of_list_ascii_app, append_assoc. reflexivity.
    + destruct cur; [congruence |]. rewrite append_empty_r.
      cbn [findall_runs]. now rewrite E.
Qed.

(** From a fresh start the scanner skips what is outside the class and
    yields the first maximal run. *)
Lemma findall_runs_first (cls : ascii -> bool) (s : string) :
  findall_runs cls [] s
  = match drop_while (fun c => negb (cls c)) s with
    | EmptyString => []
    | rest => take_while cls rest :: findall_runs cls [] (drop_while cls rest)
    end.
Proof.
  induction s as [|c t IH]; [reflexivity |].
  cbn [findall_runs drop_while]. destruct (cls c) eqn:E; cbn [negb].
  - rewrite findall_runs_acc by discriminate.
    cbn [take_while drop_while]. rewrite E. reflexivity.
  - exact IH.
Qed.

(** The same for the scanner of [(\d+)x]: with a digit run under way. *)
Lemma findall_num_then_acc (x : ascii) (s : string) :
  forall cur, cur <> [] ->
    head (findall_num_then x cur s)
    = if starts_with x (drop_while is_digit s)
      then Some (string_of_list_ascii (rev cur) ++ take_while is_digit s)
      else head (findall_num_then x [] (drop_while is_digit s)).
Proof.
  induction s as [|c t IH]; intros cur Hcur; simpl; [reflexivity |].
  destruct (is_digit c) eqn:E.
  - rewrite IH by discriminate. simpl.
    rewrite string_of_list_ascii_app, append_assoc. reflexivity.
  - destruct cur; [congruence |]. simpl. rewrite E.
    destruct (Ascii.eqb c x); simpl; [now rewrite append_empty_r | reflexivity].
Qed.

Lemma findall_num_then_skip (x : ascii) (s : string) :
  starts_with x (drop_while is_digit s) = false ->
  head (findall_num_then x [] s)
  = head (findall_num_then x [] (drop_while is_digit s)).
Proof.
  destruct s as [|c t]; [reflexivity |]. cbn [drop_while].
  destruct (is_digit c) eqn:E; [| reflexivity].
  intros H. cbn [findall_num_then]. rewrite E.
  rewrite findall_num_then_acc by discriminate. now rewrite H.
Qed.

(** The first item [findall] yields is the leftmost match. *)
Lemma findall_num_then_first (x : ascii) (s : string) :
  head (findall_num_then x [] s) = first_number_before x s.
Proof.
  induction s as [|c t IH]; [reflexivity |].
  cbn [first_number_before]. unfold match_at.
  destruct (is_digit c) eqn:E.
  - cbn [findall_num_then take_while drop_while]. rewrite E.
    rewrite findall_num_then_acc by discriminate. cbn [truthy andb].
    destruct (starts_with x (drop_while is_digit t)) eqn:S; [reflexivity |].
    rewrite <- IH. symmetry. now apply findall_num_then_skip.
  - cbn [findall_num_then take_while drop_while]. rewrite E. cbn. exact IH.
Qed.

(** What a match is, in the text. *)
Lemma match_at_sound (x : ascii) (s run : string) :
  match_at x s = Some run ->
  exists post,
    s = run ++ String x post
    /\ run <> "" /\ forallb_str is_digit run = true.
Proof.
  unfold match_at.
  destruct (truthy (take_while is_digit s)) eqn:T; [| discriminate].
  destruct (drop_while is_digit s) as [|d post] eqn:D; [discriminate |].
  cbn [andb starts_with]. destruct (Ascii.eqb_spec d x) as [->|]; [| discriminate].
  intros [= <-]. exists post. split; [| split].
  - rewrite <- D. symmetry. apply take_drop_while.
  - intros Hn. rewrite Hn in T. discriminate.
  - apply take_while_all.
Qed.

Lemma first_number_before_sound (x : ascii) (s run : string) :
  first_number_before x s = Some run ->
  exists pre post,
    s = pre ++ run ++ String x post
    /\ run <> "" /\ forallb_str is_digit run = true.
Proof.
  induction s as [|c t IH]; [discriminate |].
  cbn [first_number_before].
  destruct (match_at x (String c t)) as [r|] eqn:M.
  - intros [= ->]. destruct (match_at_sound _ _ _ M) as (post & E & ? & ?).
    exists "", post. now rewrite append_empty_l.
  - intros H. destruct (IH H) as (pre & post & -> & ? & ?).
    exists (String c pre), post. auto.
Qed.

End FindallFacts.

(** ** The field parsers *)

Section ParserFacts.

Import Text TextSpec Re Parsers.

Lemma truthy_nonempty (s : string) : s <> "" -> truthy s = true.
Proof. destruct s; [congruence | reflexivity]. Qed.

(** On text without a comma the class [[\d,]] is the class of digits. *)
Lemma findall_runs_no_comma (s : string) :
  existsb_str (fun c => Ascii.eqb c ",") s = false ->
  forall cur,
    findall_runs digit_or_comma cur s = findall_runs is_digit cur s.
Proof.
  induction s as [|c t IH]; intros H cur; [reflexivity |].
  cbn [existsb_str] in H. apply orb_false_iff in H as [Hc Ht].
  cbn [findall_runs]. unfold digit_or_comma at 1. rewrite Hc, orb_false_r.
  destruct (is_digit c); rewrite !IH by assumption; reflexivity.
Qed.

(** Integers below 2^53 are floats: [float] is exact on them. *)
Lemma float_of_Z_exact (n : Z) :
  0 <= n < 2 ^ 53 -> Number.float_of_Z n = Fin n.
Proof.
  intros [Hlo Hhi]. unfold Number.float_of_Z.
  assert (Z.log2 n < 53) as Hlog.
  { destruct (Z.eq_dec n 0) as [->|]; [reflexivity |].
    apply Z.log2_lt_pow2; lia. }
  destruct (Z.leb_spec (Z.log2 n + 1) 53); [reflexivity | lia].
Qed.

(** The first item found in comma-free text, in terms of the text. *)
Lemma first_run_of_text (s : string) :
  existsb_str is_digit s = true ->
  exists pre run post,
    s = pre ++ run ++ post
    /\ existsb_str is_digit pre = false
    /\ run <> "" /\ forallb_str is_digit run = true
    /\ (post = "" \/ exists c t, post = String c t /\ is_digit c = false)
    /\ head (findall_runs is_digit [] s) = Some run.
Proof.
  intros Hd.
  destruct (drop_while_present is_digit s Hd) as (c & t & Hrest & Hc).
  exists (take_while (fun c => negb (is_digit c)) s),
    (take_while is_digit (String c t)), (drop_while is_digit (String c t)).
  split; [| split; [| split; [| split; [| split]]]].
  - rewrite take_drop_while, <- Hrest. symmetry. apply take_drop_while.
  - apply take_while_none.
  - cbn [take_while]. rewrite Hc. discriminate.
  - apply take_while_all.
  - apply drop_while_stops.
  - rewrite findall_runs_first, Hrest. reflexivity.
Qed.

End ParserFacts.

(** C2. [_parse_price] returns a pair for every text.  The empty text gives
    ("N/A", +inf).  When the text without its commas has a digit, the number
    is the float of its first run of digits (the run is preceded by no digit
    and followed by none) and the display is the trimmed text.  Text without
    a digit gives the trimmed text and +inf.  "$1,234 round trip" gives
    1234.0. *)
Theorem parse_price_spec (price_text : string) :
  (price_text = "" -> Parsers._parse_price price_text = ("N/A", PosInf))
  /\ (price_text <> "" ->
      Text.existsb_str Text.is_digit (Text.remove_char "," price_text) = true ->
      exists pre run post,
        Text.remove_char "," price_text = pre ++ run ++ post
        /\ Text.existsb_str Text.is_digit pre = false
        /\ run <> "" /\ Text.forallb_str Text.is_digit run = true
        /\ (post = "" \/ exists c t, post = String c t /\ Text.is_digit c = false)
        /\ Parsers._parse_price price_text
           = (Text.strip price_text, Number.float_of_digits run))
  /\ (price_text <> "" ->
      Text.existsb_str Text.is_digit price_text = false ->
      Parsers._parse_price price_text = (Text.strip price_text, PosInf))
  /\ Parsers._parse_price "$1,234 round trip" = ("$1,234 round trip", Fin 1234).
Proof.
  split; [| split; [| split]].
  - intros ->. reflexivity.
  - intros Hne Hd. unfold Parsers._parse_price.
    rewrite (truthy_nonempty _ Hne). cbn [negb].
    rewrite findall_runs_no_comma by apply remove_char_gone.
    destruct (first_run_of_text _ Hd)
      as (pre & run & post & E & Hpre & Hrun & Hall & Hpost & Hfirst).
    exists pre, run, post. repeat (split; [assumption |]).
    destruct (Re.findall_runs Text.is_digit [] (Text.remove_char "," price_text));
      cbn in Hfirst; [discriminate |]. now injection Hfirst as ->.
  - intros Hne Hd. unfold Parsers._parse_price.
    rewrite (truthy_nonempty _ Hne). cbn [negb].
    rewrite findall_runs_no_comma by apply remove_char_gone.
    rewrite findall_runs_first, drop_while_absent; [reflexivity |].
    now rewrite remove_char_digits.
  - reflexivity.
Qed.

(** ** [int] and its cap on digits *)

Section IntFacts.

Import Text TextSpec Re Parsers.

Lemma int_within_cap (s : string) :
  (String.length s <= int_max_str_digits)%nat -> int s = ok (int_of_digits s).
Proof.
  intros Hlen. unfold int.
  destruct (Nat.ltb_spec int_max_str_digits (String.length s)); [lia | reflexivity].
Qed.

Lemma int_beyond_cap (s : string) :
  (int_max_str_digits < String.length s)%nat ->
  exists msg, int s = raise (ValueError msg).
Proof.
  intros Hlen. unfold int.
  destruct (Nat.ltb_spec int_max_str_digits (String.length s)); [eauto | lia].
Qed.

(** [_parse_duration] on a text that is not empty, in terms of the first
    number before [h] and the first number before [m]. *)
Lemma parse_duration_unfold (s : string) :
  s <> "" ->
  _parse_duration s
  = let* hours :=
      match first_number_before "h" s with
      | Some h => let* n := int h in ok (0 + n * 60)
      | None => ok 0
      end in
    let* total :=
      match first_number_before "m" s with
      | Some m => let* n := int m in ok (hours + n)
      | None => ok hours
      end in
    ok (strip s, if 0 <? total then Fin total else PosInf).
Proof.
  intros Hne. unfold _parse_duration.
  rewrite (truthy_nonempty _ Hne). cbn [negb].
  rewrite <- !findall_num_then_first.
  destruct (findall_num_then "h" [] s) as [|h ?];
    destruct (findall_num_then "m" [] s) as [|m ?]; reflexivity.
Qed.

End IntFacts.

(** C3. [_parse_duration] does not return for every text: it hands the
    first number before [h] and the first number before [m] to [int], which
    raises [ValueError] on more than 4300 digits, and catches nothing.  The
    empty text gives ("N/A", +inf).  Of a text that is not empty, when those
    numbers have at most 4300 digits, the minutes are 60 times the first
    number matched by [<N>h] plus the first number matched by [<N>m], a
    component being 0 when its pattern is absent, and +inf when that total
    is zero, so also when neither pattern matches; the display is the
    trimmed text.  When one of them has more digits, [ValueError] is raised.
    "3h" gives 180, "45m" gives 45, "garbled" gives +inf, and 4301 digits
    before an [h] raise. *)
Theorem parse_duration_spec (duration_text : string) :
  (duration_text = "" ->
   Parsers._parse_duration duration_text = ok ("N/A", PosInf))
  /\ (duration_text <> "" ->
      (forall run,
          TextSpec.first_number_before "h" duration_text = Some run
          \/ TextSpec.first_number_before "m" duration_text = Some run ->
          (String.length run <= 4300)%nat) ->
      let total :=
        60 * TextSpec.component "h" duration_text
        + TextSpec.component "m" duration_text in
      Parsers._parse_duration duration_text
      = ok (Text.strip duration_text, if 0 <? total then Fin total else PosInf))
  /\ (duration_text <> "" ->
      TextSpec.first_number_before "h" duration_text = None ->
      TextSpec.first_number_before "m" duration_text = None ->
      Parsers._parse_duration duration_text
      = ok (Text.strip duration_text, PosInf))
  /\ (forall run,
        TextSpec.first_number_before "h" duration_text = Some run
        \/ TextSpec.first_number_before "m" duration_text = Some run ->
        (4300 < String.length run)%nat ->
        exists msg,
          Parsers._parse_duration duration_text = raise (ValueError msg))
  /\ Parsers._parse_duration "3h" = ok ("3h", Fin 180)
  /\ Parsers._parse_duration "45m" = ok ("45m", Fin 45)
  /\ Parsers._parse_duration "garbled" = ok ("garbled", PosInf)
  /\ Parsers._parse_duration (Digits.ones 4301 ++ "h")
     = raise (ValueError
         "Exceeds the limit (4300 digits) for integer string conversion: value has 4301 digits; use sys.set_int_max_str_digits() to increase the limit").
Proof.
  split; [| split; [| split; [| split; [| split; [| split; [| split]]]]]].
  5-8: vm_compute; reflexivity.
  - intros ->. reflexivity.
  - intros Hne Hcap. cbv zeta. rewrite (parse_duration_unfold _ Hne).
    unfold TextSpec.component.
    assert (forall a b : Z, a = b ->
              (if 0 <? a then Fin a else PosInf)
              = (if 0 <? b then Fin b else PosInf)) as Hsame
      by (now intros a b ->).
    destruct (TextSpec.first_number_before "h" duration_text) as [h|] eqn:Hh;
      destruct (TextSpec.first_number_before "m" duration_text) as [m|] eqn:Hm.
    + rewrite (int_within_cap h) by (apply Hcap; now left).
      rewrite (int_within_cap m) by (apply Hcap; now right).
      cbn [bind ok]. unfold ok. do 2 f_equal; try (apply Hsame; lia).
    + rewrite (int_within_cap h) by (apply Hcap; now left).
      cbn [bind ok]. unfold ok. do 2 f_equal; try (apply Hsame; lia).
    + rewrite (int_within_cap m) by (apply Hcap; now right).
      cbn [bind ok]. unfold ok. do 2 f_equal; try (apply Hsame; lia).
    + reflexivity.
  - intros Hne Hh Hm. rewrite (parse_duration_unfold _ Hne), Hh, Hm.
    reflexivity.
  - intros run Hrun Hlong.
    assert (duration_text <> "") as Hne.
    { intros ->. destruct Hrun as [H | H]; discriminate H. }
    rewrite (parse_duration_unfold _ Hne).
    destruct (int_beyond_cap run Hlong) as [msg Hmsg].
    destruct Hrun as [Hh | Hm].
    + rewrite Hh, Hmsg. now exists msg.
    + rewrite Hm, Hmsg.
      destruct (TextSpec.first_number_before "h" duration_text) as [h|];
        [| now exists msg].
      destruct (Parsers.int h) as [e | n] eqn:Hint; [| now exists msg].
      destruct (Nat.ltb_spec Parsers.int_max_str_digits (String.length h))
        as [Hlen | Hlen].
      * destruct (int_beyond_cap h Hlen) as [msg' Hmsg'].
        rewrite Hmsg' in Hint. unfold raise in Hint. injection Hint as <-.
        now exists msg'.
      * rewrite (int_within_cap h Hlen) in Hint. discriminate Hint.
Qed.

(** ** Stable sorting *)

Section StableSortFacts.

Context {A K : Type} (lt : K -> K -> bool) (key : A -> K).

(** [lt] is a strict weak order. *)
Hypothesis lt_irrefl : forall a, lt a a = false.
Hypothesis lt_trans : forall a b c, lt a b = true -> lt b c = true -> lt a c = true.
Hypothesis lt_cotrans :
  forall a b c, lt a b = false -> lt b c = false -> lt a c = false.

Lemma lt_asym (a b : K) : lt a b = true -> lt b a = false.
Proof.
  intros H. destruct (lt b a) eqn:E; [| reflexivity].
  pose proof (lt_irrefl a) as Hi.
  rewrite (lt_trans _ _ _ H E) in Hi. discriminate.
Qed.

Lemma stable_insert_perm (x : A) (l : list A) :
  Permutation (StableSort.insert lt key x l) (x :: l).
Proof.
  induction l as [|y l IH]; cbn; [reflexivity |].
  destruct (lt (key y) (key x)); [| reflexivity].
  rewrite IH. apply perm_swap.
Qed.

Lemma stable_sort_perm (l : list A) :
  Permutation (StableSort.sort lt key l) l.
Proof.
  induction l as [|x l IH]; cbn; [reflexivity |].
  now rewrite stable_insert_perm, IH.
Qed.

Lemma stable_insert_sorted (x : A) (l : list A) :
  StronglySorted (StableSort.in_order lt key) l ->
  StronglySorted (StableSort.in_order lt key) (StableSort.insert lt key x l).
Proof.
  induction 1 as [|y l Hs IH Hy]; cbn.
  - repeat constructor.
  - destruct (lt (key y) (key x)) eqn:E.
    + constructor; [exact IH |].
      rewrite stable_insert_perm. constructor; [| exact Hy].
      now apply lt_asym.
    + constructor; [now constructor |].
      constructor; [exact E |].
      eapply Forall_impl; [exact Hy |]. intros z Hz.
      unfold StableSort.in_order in *. now apply lt_cotrans with (key y).
Qed.

Lemma stable_sort_sorted (l : list A) :
  StronglySorted (StableSort.in_order lt key) (StableSort.sort lt key l).
Proof.
  induction l as [|x l IH]; cbn; [constructor |].
  now apply stable_insert_sorted.
Qed.

(** Stability: the items picked out by a property whose members the order
    does not tell apart come out in their input order. *)
Section Stability.
Context (P : A -> Prop) `{!forall x, Decision (P x)}.
Hypothesis P_ties : forall x y, P x -> P y -> lt (key y) (key x) = false.

Lemma stable_insert_filter (x : A) (l : list A) :
  filter P (StableSort.insert lt key x l) = filter P (x :: l).
Proof.
  induction l as [|y l IH]; cbn [StableSort.insert]; [reflexivity |].
  destruct (lt (key y) (key x)) eqn:E; [| reflexivity].
  rewrite (filter_cons P y), IH, !(filter_cons P x), (filter_cons P y).
  destruct (decide (P y)) as [Py|]; [| reflexivity].
  destruct (decide (P x)) as [Px|]; [| reflexivity].
  now rewrite (P_ties x y Px Py) in E.
Qed.

Lemma stable_sort_filter (l : list A) :
  filter P (StableSort.sort lt key l) = filter P l.
Proof.
  induction l as [|x l IH]; cbn [StableSort.sort]; [reflexivity |].
  now rewrite stable_insert_filter, !filter_cons, IH.
Qed.
End Stability.

(** In a sorted list nothing stands before an item with a smaller key. *)
Lemma sorted_lookup (l : list A) (i j : nat) (a b : A) :
  StronglySorted (StableSort.in_order lt key) l ->
  (i < j)%nat -> l !! i = Some a -> l !! j = Some b -> StableSort.in_order lt key a b.
Proof.
  intros Hs. revert i j. induction Hs as [|x l Hs IH Hx]; intros i j Hij Hi Hj.
  - now rewrite lookup_nil in Hi.
  - destruct j as [|j]; [lia |]. cbn in Hj. destruct i as [|i].
    + cbn in Hi. injection Hi as ->.
      rewrite Forall_forall in Hx. apply Hx.
      eapply list_elem_of_lookup_2. exact Hj.
    + cbn in Hi. apply (IH i j); [lia | assumption | assumption].
Qed.

End StableSortFacts.

(** Sorting commutes with a relabelling that keeps the keys. *)
Lemma stable_sort_map {A B K : Type} (lt : K -> K -> bool)
  (keyA : A -> K) (keyB : B -> K) (h : A -> B) (l : list A) :
  (forall x, keyB (h x) = keyA x) ->
  StableSort.sort lt keyB (map h l) = map h (StableSort.sort lt keyA l).
Proof.
  intros Hk.
  assert (forall x l, StableSort.insert lt keyB (h x) (map h l)
                      = map h (StableSort.insert lt keyA x l)) as Hins.
  { intros x l0. induction l0 as [|y l0 IH]; cbn; [reflexivity |].
    rewrite !Hk. destruct (lt (keyA y) (keyA x)); cbn; [now rewrite IH | reflexivity]. }
  induction l as [|x l IH]; cbn; [reflexivity |].
  now rewrite IH, Hins.
Qed.

(** ** The two orders Python sorts by *)

Section OrderFacts.

Lemma number_ltb_irrefl (a : number) : Number.ltb a a = false.
Proof. destruct a; cbn; [apply Z.ltb_irrefl | reflexivity]. Qed.

Lemma number_ltb_trans (a b c : number) :
  Number.ltb a b = true -> Number.ltb b c = true -> Number.ltb a c = true.
Proof.
  destruct a, b, c; cbn; try congruence; rewrite !Z.ltb_lt; lia.
Qed.

Lemma number_ltb_cotrans (a b c : number) :
  Number.ltb a b = false -> Number.ltb b c = false -> Number.ltb a c = false.
Proof.
  destruct a, b, c; cbn; try congruence; rewrite !Z.ltb_ge; lia.
Qed.

Lemma text_ltb_irrefl (s : string) : Text.ltb s s = false.
Proof.
  induction s as [|c t IH]; cbn; [reflexivity |].
  now rewrite Z.ltb_irrefl.
Qed.

Lemma text_ltb_trans (s t u : string) :
  Text.ltb s t = true -> Text.ltb t u = true -> Text.ltb s u = true.
Proof.
  revert t u. induction s as [|a s IH]; intros [|b t] [|c u]; cbn;
    try congruence.
  destruct (Z.ltb_spec (Text.code a) (Text.code b)),
    (Z.ltb_spec (Text.code b) (Text.code a)),
    (Z.ltb_spec (Text.code b) (Text.code c)),
    (Z.ltb_spec (Text.code c) (Text.code b)),
    (Z.ltb_spec (Text.code a) (Text.code c)),
    (Z.ltb_spec (Text.code c) (Text.code a));
    try congruence; try lia.
  apply IH.
Qed.

Lemma text_ltb_cotrans (s t u : string) :
  Text.ltb s t = false -> Text.ltb t u = false -> Text.ltb s u = false.
Proof.
  revert t u. induction s as [|a s IH]; intros [|b t] [|c u]; cbn;
    try congruence.
  destruct (Z.ltb_spec (Text.code a) (Text.code b)),
    (Z.ltb_spec (Text.code b) (Text.code a)),
    (Z.ltb_spec (Text.code b) (Text.code c)),
    (Z.ltb_spec (Text.code c) (Text.code b)),
    (Z.ltb_spec (Text.code a) (Text.code c)),
    (Z.ltb_spec (Text.code c) (Text.code a));
    try congruence; try lia.
  apply IH.
Qed.

End OrderFacts.

(** ** [list.sort] on keys of one kind *)

Section PySortFacts.

Context {A K : Type}.

(** A kind of key: the values in [dom] compare through [lt] on their
    projection. *)
Context (dom : pyval -> Prop) (proj : pyval -> K) (lt : K -> K -> bool).
Hypothesis compare_in_dom :
  forall a b, dom a -> dom b -> PyList.py_lt a b = ok (lt (proj a) (proj b)).

Lemma py_insert_pure (x : pyval * A) (l : list (pyval * A)) :
  dom (fst x) -> Forall (fun p => dom (fst p)) l ->
  PyList.insert x l = ok (StableSort.insert lt (fun p => proj (fst p)) x l).
Proof.
  intros Hx. induction 1 as [|y l Hy Hl IH]; cbn; [reflexivity |].
  rewrite (compare_in_dom _ _ Hy Hx). cbn.
  destruct (lt (proj (fst y)) (proj (fst x))); [| reflexivity].
  now rewrite IH.
Qed.

Lemma py_sort_pairs_pure (l : list (pyval * A)) :
  Forall (fun p => dom (fst p)) l ->
  PyList.sort_pairs l = ok (StableSort.sort lt (fun p => proj (fst p)) l).
Proof.
  induction 1 as [|x l Hx Hl IH]; cbn; [reflexivity |].
  rewrite IH. cbn. apply py_insert_pure; [exact Hx |].
  eapply Permutation_Forall; [| exact Hl].
  symmetry. apply stable_sort_perm.
Qed.

Lemma py_decorate_pure (key : A -> result pyval) (f : A -> pyval) (l : list A) :
  Forall (fun x => key x = ok (f x)) l ->
  PyList.decorate key l = ok (map (fun x => (f x, x)) l).
Proof.
  induction 1 as [|x l Hx Hl IH]; cbn; [reflexivity |].
  now rewrite Hx, IH.
Qed.

(** When the key function returns on every item and every key is of the
    kind, [sort] returns the stable sort by the projected key. *)
Lemma py_sort_pure (key : A -> result pyval) (f : A -> pyval) (l : list A) :
  Forall (fun x => key x = ok (f x)) l ->
  Forall (fun x => dom (f x)) l ->
  PyList.sort key l = ok (StableSort.sort lt (fun x => proj (f x)) l).
Proof.
  intros Hkey Hdom. unfold PyList.sort.
  rewrite (py_decorate_pure key f l Hkey). cbn.
  rewrite py_sort_pairs_pure.
  - cbn. f_equal.
    rewrite (stable_sort_map lt (fun x => proj (f x))
               (fun p : pyval * A => proj (fst p)) (fun x => (f x, x)))
      by reflexivity.
    rewrite map_map. cbn. apply map_id.
  - rewrite Forall_map. exact Hdom.
Qed.

End PySortFacts.

Section PySortSpec.

Context {K : Type}.
Context (dom : pyval -> Prop) (proj : pyval -> K) (lt : K -> K -> bool).
Hypothesis compare_in_dom :
  forall a b, dom a -> dom b -> PyList.py_lt a b = ok (lt (proj a) (proj b)).
Hypothesis lt_irrefl : forall a, lt a a = false.
Hypothesis lt_trans : forall a b c, lt a b = true -> lt b c = true -> lt a c = true.
Hypothesis lt_cotrans :
  forall a b c, lt a b = false -> lt b c = false -> lt a c = false.

(** Sorting flights by a key function that always returns a key of one
    kind: the sort returns, and its result is the input rearranged, in
    ascending key order, ties in input order. *)
Lemma py_sort_flights (f : Flight -> pyval) (l : list Flight) :
  Forall (fun x => dom (f x)) l ->
  exists sorted,
    PyList.sort (fun x => ok (f x)) l = ok sorted
    /\ Permutation sorted l
    /\ RecordSpec.keeps_ties f l sorted
    /\ RecordSpec.ascending f sorted.
Proof.
  intros Hdom.
  exists (StableSort.sort lt (fun x => proj (f x)) l).
  split; [| split; [| split]].
  - apply (py_sort_pure dom proj lt compare_in_dom); [| exact Hdom].
    apply Forall_forall. intros; reflexivity.
  - apply stable_sort_perm.
  - intros v. apply stable_sort_filter.
    intros x y Hx Hy. rewrite Hx, Hy. apply lt_irrefl.
  - intros i j a b Hij Hi Hj.
    assert (a ∈ l /\ b ∈ l) as [Ha Hb].
    { split; rewrite <- (stable_sort_perm lt (fun x => proj (f x)) l);
        eapply list_elem_of_lookup_2; eassumption. }
    rewrite Forall_forall in Hdom.
    rewrite (compare_in_dom _ _ (Hdom _ Hb) (Hdom _ Ha)). f_equal.
    exact (sorted_lookup lt (fun x => proj (f x)) _ i j a b
             (stable_sort_sorted lt _ lt_irrefl lt_trans lt_cotrans l)
             Hij Hi Hj).
Qed.

End PySortSpec.

(** ** The aggregator's sort *)

Section AggregatorSortFacts.

Import RecordSpec.

Lemma compare_numbers (a b : pyval) :
  is_number a -> is_number b ->
  PyList.py_lt a b = ok (Number.ltb (num_of a) (num_of b)).
Proof. intros [x ->] [y ->]. reflexivity. Qed.

Lemma compare_texts (a b : pyval) :
  is_text a -> is_text b ->
  PyList.py_lt a b = ok (Text.ltb (text_of a) (text_of b)).
Proof. intros [x ->] [y ->]. reflexivity. Qed.

Lemma numeric_fields_price (x : Flight) :
  numeric_fields x -> is_number (Agent.price_key x).
Proof.
  intros [H _]. unfold Agent.price_key.
  destruct (x !! "price_numeric") as [v|]; cbn; [now apply H | now exists PosInf].
Qed.

Lemma numeric_fields_duration (x : Flight) :
  numeric_fields x -> is_number (Agent.duration_key x).
Proof.
  intros [_ H]. unfold Agent.duration_key.
  destruct (x !! "duration_minutes") as [v|]; cbn; [now apply H | now exists PosInf].
Qed.

Lemma textual_departure_key (x : Flight) :
  textual_departure x -> is_text (Agent.departure_key x).
Proof.
  intros H. unfold Agent.departure_key.
  destruct (x !! "departure_time") as [v|] eqn:E; cbn;
    [exact (H v E) | now exists ""].
Qed.


End AggregatorSortFacts.

(** What the sort of the aggregator does on records with numeric fields;
    the order by departure time compares texts, and asks for them. *)
Lemma sort_flights_props (sort_key : string) (all_flights : list Flight) :
  sort_key ∈ ["price"; "duration"; "departure_time"] ->
  Forall RecordSpec.numeric_fields all_flights ->
  (sort_key = "departure_time" ->
   Forall RecordSpec.textual_departure all_flights) ->
  exists sorted,
    Agent.sort_flights sort_key all_flights = ok sorted
    /\ Permutation sorted all_flights
    /\ RecordSpec.keeps_ties (RecordSpec.key_of sort_key) all_flights sorted
    /\ RecordSpec.ascending (RecordSpec.key_of sort_key) sorted.
Proof.
  intros Hkey Hnum Htext.
  rewrite !elem_of_cons in Hkey.
  destruct Hkey as [-> | [-> | [-> | Hnil]]]; [| | | now apply elem_of_nil in Hnil].
  - apply (py_sort_flights RecordSpec.is_number RecordSpec.num_of Number.ltb
             compare_numbers number_ltb_irrefl number_ltb_trans
             number_ltb_cotrans Agent.price_key).
    eapply Forall_impl; [exact Hnum | apply numeric_fields_price].
  - apply (py_sort_flights RecordSpec.is_number RecordSpec.num_of Number.ltb
             compare_numbers number_ltb_irrefl number_ltb_trans
             number_ltb_cotrans Agent.duration_key).
    eapply Forall_impl; [exact Hnum | apply numeric_fields_duration].
  - apply (py_sort_flights RecordSpec.is_text RecordSpec.text_of Text.ltb
             compare_texts text_ltb_irrefl text_ltb_trans
             text_ltb_cotrans Agent.departure_key).
    eapply Forall_impl; [exact (Htext eq_refl) | apply textual_departure_key].
Qed.

(** Whatever the configured key, the sort step returns on well-typed
    records. *)
Lemma sort_flights_returns (sort_key : string) (all_flights : list Flight) :
  Forall RecordSpec.well_typed all_flights ->
  exists sorted, Agent.sort_flights sort_key all_flights = ok sorted.
Proof.
  intros Hwt.
  destruct (decide (sort_key ∈ ["price"; "duration"; "departure_time"])) as [Hin | Hout].
  - destruct (sort_flights_props sort_key all_flights Hin) as (sorted & Hs & _).
    + eapply Forall_impl; [exact Hwt | now intros x [H _]].
    + intros _. eapply Forall_impl; [exact Hwt | now intros x [_ H]].
    + eauto.
  - exists all_flights. unfold Agent.sort_flights.
    destruct (String.eqb_spec sort_key "price") as [-> | _];
      [exfalso; apply Hout; set_solver |].
    destruct (String.eqb_spec sort_key "duration") as [-> | _];
      [exfalso; apply Hout; set_solver |].
    destruct (String.eqb_spec sort_key "departure_time") as [-> | _];
      [exfalso; apply Hout; set_solver |].
    reflexivity.
Qed.



(** The sample sorted by each key: ties in input order, sentinels and
    records without the field last; without a departure time the key is the
    empty text, which every text follows. *)
Example aggregator_sort_mixed :
  Agent.sort_flights "price" Sample.mixed
  = ok [Sample.flight (Fin 30) PosInf; Sample.flight (Fin 30) (Fin 5);
        Sample.flight PosInf (Fin 100); ∅]
  /\ Agent.sort_flights "duration" Sample.mixed
     = ok [Sample.flight (Fin 30) (Fin 5); Sample.flight PosInf (Fin 100);
           Sample.flight (Fin 30) PosInf; ∅]
  /\ Agent.sort_flights "departure_time"
       [{[ "departure_time" := VStr "22:45" ]}; ∅;
        {[ "departure_time" := VStr "N/A" ]};
        {[ "departure_time" := VStr "06:00" ]}]
     = ok [∅; {[ "departure_time" := VStr "06:00" ]};
           {[ "departure_time" := VStr "22:45" ]};
           {[ "departure_time" := VStr "N/A" ]}].
Proof. repeat split; vm_compute; reflexivity. Qed.

(** ** Validation and construction of the agent *)

Section ValidationFacts.

Import Cfg Utils.

(** What a configuration that passes validation has. *)
Lemma validate_config_ok (c : Config) :
  validate_config c = ok tt ->
  exists fs ws ss bs s d t p,
    flight_search c = Some fs /\ websites c = Some ws
    /\ search_settings c = Some ss /\ browser_settings c = Some bs
    /\ source fs = Some s /\ destination fs = Some d
    /\ travel_date fs = Some t /\ primary ws = Some p
    /\ p ∈ supported_websites.
Proof.
  unfold validate_config, require, require_param.
  destruct (flight_search c) as [fs|]; [| discriminate].
  destruct (websites c) as [ws|]; [| discriminate].
  destruct (search_settings c) as [ss|]; [| discriminate].
  destruct (browser_settings c) as [bs|]; [| discriminate].
  cbn [bind ok].
  destruct (source fs) as [s|] eqn:Hs; [| discriminate].
  destruct (Text.truthy s); [| discriminate].
  destruct (destination fs) as [d|] eqn:Hd; [| discriminate].
  destruct (Text.truthy d); [| discriminate].
  destruct (travel_date fs) as [t|] eqn:Ht; [| discriminate].
  destruct (Text.truthy t); [| discriminate]. cbn [bind ok].
  destruct (Datetime.strptime_ymd t); [| discriminate]. cbn [bind ok].
  destruct (match return_date fs with Some _ => _ | None => _ end);
    [discriminate |]. cbn [bind ok].
  destruct (primary ws) as [p|] eqn:Hp; [| discriminate].
  destruct (bool_decide_reflect (p ∈ supported_websites)); [| discriminate].
  intros _. exists fs, ws, ss, bs, s, d, t, p. repeat split; auto.
Qed.

Lemma init_ok (document : Config) (agent : Agent.FlightScannerAgent) :
  Agent.init document = ok agent ->
  Agent.config agent = document /\ validate_config document = ok tt.
Proof.
  unfold Agent.init. destruct (validate_config document) as [e|[]] eqn:V;
    cbn; [discriminate |].
  intros [= <-]. auto.
Qed.

End ValidationFacts.

(** ** The fallback chain *)

Section ChainFacts.

Context {W : Type} `{!Adapters W}.
Import ChainSpec.

(** The [try] block for one web site is one source tried. *)
Lemma attempt_source_call (config : Cfg.Config) (site : string) (w : W) :
  source_call config site w
    (fst (Agent.attempt config site w)) (snd (Agent.attempt config site w)).
Proof.
  unfold Agent.attempt.
  destruct (Scrapers.create_scraper SELENIUM_AVAILABLE site config)
    as [e | scraper] eqn:Hsc.
  - now apply call_without_adapter.
  - destruct (Agent.query_of config) as [e | q] eqn:Hq.
    + now apply call_without_arguments with scraper.
    + apply call_adapter with scraper q; [exact Hsc | exact Hq |].
      now destruct (scraper_search scraper config q w).
Qed.

Lemma source_call_attempt (config : Cfg.Config) (site : string) (w w' : W) r :
  source_call config site w r w' -> Agent.attempt config site w = (r, w').
Proof.
  unfold Agent.attempt.
  intros [e Hsc | scraper e Hsc Hq | scraper q r' w1 Hsc Hq Hcall].
  - now rewrite Hsc.
  - now rewrite Hsc, Hq.
  - now rewrite Hsc, Hq.
Qed.

(** The loop of [search_flights] follows the transition rule. *)
Lemma try_websites_first_success (config : Cfg.Config) (sites : list string) :
  forall w,
    first_success config sites w
      (snd (fst (Agent.try_websites config sites w)))
      (fst (fst (Agent.try_websites config sites w)))
      (snd (Agent.try_websites config sites w)).
Proof.
  induction sites as [|site rest IH]; intros w; cbn [Agent.try_websites].
  - constructor.
  - pose proof (attempt_source_call config site w) as Hcall.
    destruct (Agent.attempt config site w) as [r w1] eqn:E.
    cbn [fst snd] in Hcall.
    destruct r as [e | [|f flights]].
    + specialize (IH w1).
      destruct (Agent.try_websites config rest w1) as [[acc att] w2].
      now apply chain_advance with w1.
    + specialize (IH w1).
      destruct (Agent.try_websites config rest w1) as [[acc att] w2].
      now apply chain_advance with w1.
    + now apply chain_accept.
Qed.

(** The rule leaves no choice: it has one run. *)
Lemma first_success_unique (config : Cfg.Config) (sites : list string)
  (w : W) attempts accepted w' :
  first_success config sites w attempts accepted w' ->
  Agent.try_websites config sites w = (accepted, attempts, w').
Proof.
  induction 1 as [w | site rest w f flights w' E
                 | site rest w r w' attempts accepted w'' E Hr _ IH];
    cbn [Agent.try_websites].
  - reflexivity.
  - now rewrite (source_call_attempt _ _ _ _ _ E).
  - rewrite (source_call_attempt _ _ _ _ _ E), IH.
    destruct r as [e | [|? ?]]; [reflexivity | reflexivity |].
    contradiction.
Qed.

(** What is accepted is what an adapter returned: the factory gave the
    scraper of the last site attempted, and its [search_flights], invoked
    with the search of the configuration, returned the accepted records and
    left the final world. *)
Lemma first_success_accepted (config : Cfg.Config) sites (w : W)
  attempts accepted w' :
  first_success config sites w attempts accepted w' ->
  accepted <> [] ->
  exists site scraper q w1,
    last attempts = Some (site, ok accepted)
    /\ Scrapers.create_scraper SELENIUM_AVAILABLE site config = ok scraper
    /\ Agent.query_of config = ok q
    /\ scraper_search scraper config q w1 = (ok accepted, w').
Proof.
  induction 1 as [w | site rest w f flights w' E
                 | site rest w r w' attempts accepted w'' E Hr Hrest IH];
    intros Hne.
  - congruence.
  - inversion E as [e Hsc | scraper e Hsc Hq | scraper q r' w1 Hsc Hq Hcall];
      subst.
    exists site, scraper, q, w. repeat split; assumption.
  - destruct (IH Hne) as (site' & scraper & q & w1 & Hlast & Hsc & Hq & Hcall).
    exists site', scraper, q, w1. split; [| now repeat split].
    destruct attempts as [|a attempts']; [discriminate |].
    now rewrite last_cons_cons.
Qed.

(** Every attempt is a source tried, in a world the run went through. *)
Lemma first_success_calls (config : Cfg.Config) sites (w : W)
  attempts accepted w' :
  first_success config sites w attempts accepted w' ->
  forall i site r, attempts !! i = Some (site, r) ->
    sites !! i = Some site
    /\ exists w1 w2, source_call config site w1 r w2.
Proof.
  induction 1 as [w | site rest w f flights w' E
                 | site rest w r w' attempts accepted w'' E Hr Hrest IH];
    intros i site0 r0 Hi.
  - now rewrite lookup_nil in Hi.
  - destruct i as [|i]; [| cbn in Hi; discriminate Hi].
    cbn in Hi. injection Hi as <- <-. split; [reflexivity | eauto].
  - destruct i as [|i].
    + cbn in Hi. injection Hi as <- <-. split; [reflexivity | eauto].
    + cbn in Hi. exact (IH i site0 r0 Hi).
Qed.

(** The attempts follow the order of the list. *)
Lemma first_success_prefix (config : Cfg.Config) sites (w : W)
  attempts accepted w' :
  first_success config sites w attempts accepted w' ->
  exists untried, sites = (map fst attempts ++ untried)%list.
Proof.
  induction 1 as [w | site rest w f flights w' E
                 | site rest w r w' attempts accepted w'' E Hr _ IH].
  - now exists [].
  - now exists rest.
  - destruct IH as [untried ->]. now exists untried.
Qed.

(** An attempt that is followed by another yielded nothing. *)
Lemma first_success_advance (config : Cfg.Config) sites (w : W)
  attempts accepted w' :
  first_success config sites w attempts accepted w' ->
  forall i a, attempts !! i = Some a -> (S i < length attempts)%nat ->
    yields_nothing (snd a).
Proof.
  induction 1 as [w | site rest w f flights w' E
                 | site rest w r w' attempts accepted w'' E Hr _ IH];
    intros i a Hi Hlen.
  - now rewrite lookup_nil in Hi.
  - cbn in Hlen. lia.
  - destruct i as [|i].
    + cbn in Hi. now injection Hi as <-.
    + cbn in Hi, Hlen. apply (IH i a Hi). lia.
Qed.

(** What is accepted is what the last attempt returned, when that is not
    empty; otherwise every source was tried and nothing is accepted. *)
Lemma first_success_last (config : Cfg.Config) sites (w : W)
  attempts accepted w' :
  first_success config sites w attempts accepted w' ->
  match last attempts with
  | Some (_, inr (f :: flights)) => accepted = f :: flights
  | _ => accepted = [] /\ map fst attempts = sites
  end.
Proof.
  induction 1 as [w | site rest w f flights w' E
                 | site rest w r w' attempts accepted w'' E Hr _ IH].
  - now split.
  - reflexivity.
  - destruct attempts as [|a attempts'].
    + cbn. destruct IH as [-> <-].
      destruct r as [e | [|? ?]]; [split; reflexivity .. | contradiction].
    + rewrite last_cons_cons.
      destruct (last (a :: attempts')) as [[site' [e|[|f flights]]]|];
        [| | exact IH |]; destruct IH as [-> <-]; split; reflexivity.
Qed.

(** When every attempt yielded nothing, every source was tried and nothing
    is accepted. *)
Lemma first_success_exhausted (config : Cfg.Config) sites (w : W)
  attempts accepted w' :
  first_success config sites w attempts accepted w' ->
  Forall (fun a => yields_nothing (snd a)) attempts ->
  accepted = [] /\ map fst attempts = sites.
Proof.
  induction 1 as [w | site rest w f flights w' E
                 | site rest w r w' attempts accepted w'' E Hr _ IH];
    intros Hall.
  - now split.
  - apply Forall_cons in Hall as [Hf _]. contradiction.
  - apply Forall_cons in Hall as [_ Hall].
    destruct (IH Hall) as [-> <-]. now split.
Qed.

(** [search_flights] of an agent that was constructed, with a fallback
    list in the configuration: the loop, then the post-processing. *)
Lemma search_flights_unfold (document : Cfg.Config) agent sites (w : W) :
  Agent.init document = ok agent ->
  Agent.websites_to_try document = ok sites ->
  Agent.search_flights agent w
  = let '(accepted, attempts, w') := Agent.try_websites document sites w in
    (match accepted with
     | [] => ok []
     | _ => Agent.sort_and_limit document accepted
     end, attempts, w').
Proof.
  intros Hinit Hsites. destruct (init_ok _ _ Hinit) as [Hc Hv].
  destruct (validate_config_ok _ Hv)
    as (fs & ws & ss & bs & s & d & t & p & Hfs & _ & _ & _ & Hs & Hd & Ht & _).
  unfold Agent.search_flights. rewrite Hc, Hfs. cbn.
  rewrite Hs, Hd, Ht. cbn. rewrite Hsites. unfold ok.
  destruct (Agent.try_websites document sites w) as [[[|? ?] ?] ?]; reflexivity.
Qed.

End ChainFacts.

(** ** Post-processing *)

Section PostProcessingFacts.

Import ChainSpec.

Lemma sort_and_limit_unfold (document : Cfg.Config) agent accepted :
  Agent.init document = ok agent ->
  Agent.sort_and_limit document accepted
  = let* sorted := Agent.sort_flights (configured_sort document) accepted in
    ok (PyList.slice_to sorted (configured_max document)).
Proof.
  intros Hinit. destruct (init_ok _ _ Hinit) as [_ Hv].
  destruct (validate_config_ok _ Hv)
    as (fs & ws & ss & bs & s & d & t & p & _ & _ & Hss & _).
  unfold Agent.sort_and_limit, configured_sort, configured_max.
  now rewrite Hss.
Qed.

Lemma slice_to_nonneg {A} (l : list A) (n : Z) :
  0 <= n -> PyList.slice_to l n = take (Z.to_nat n) l.
Proof.
  intros Hn. unfold PyList.slice_to.
  destruct (Z.leb_spec 0 n); [reflexivity | lia].
Qed.

Lemma sort_flights_other (sort_key : string) (all_flights : list Flight) :
  sort_key ∉ ["price"; "duration"; "departure_time"] ->
  Agent.sort_flights sort_key all_flights = ok all_flights.
Proof.
  intros Hout. unfold Agent.sort_flights.
  destruct (String.eqb_spec sort_key "price") as [-> | _];
    [exfalso; apply Hout; set_solver |].
  destruct (String.eqb_spec sort_key "duration") as [-> | _];
    [exfalso; apply Hout; set_solver |].
  destruct (String.eqb_spec sort_key "departure_time") as [-> | _];
    [exfalso; apply Hout; set_solver |].
  reflexivity.
Qed.

End PostProcessingFacts.

(** C1. For a configuration whose web sites are [primary] followed by the
    fallback list, [search_flights] of the constructed agent tries the sources
    in that order, each in the world the one before left: its attempts are a
    run of the first-success rule, in which trying a source is asking the
    factory for its adapter and invoking that adapter's [search_flights].
    The sites attempted are a prefix of the list; an attempt that is
    followed by another returned the empty list or raised; what the last
    attempt returned, when not empty, is accepted as the result set and goes
    to post-processing; and when every attempt yielded nothing, all sites
    were tried and the result is the empty list.  Every attempt is such a
    call on the site at its place in the list; and accepted records are what
    the adapter of the last site attempted returned, the world after that
    call being the world the search leaves: no source is invoked after it. *)
Theorem first_success_wins {W : Type} `{!Adapters W}
  (document : Cfg.Config) (agent : Agent.FlightScannerAgent)
  (primary : string) (fallback : list string) (w : W) :
  Agent.init document = ok agent ->
  Agent.websites_to_try document = ok (primary :: fallback) ->
  exists accepted attempts w',
    ChainSpec.first_success document (primary :: fallback) w attempts accepted w'
    /\ Agent.search_flights agent w
       = (match accepted with
          | [] => ok []
          | _ => Agent.sort_and_limit document accepted
          end, attempts, w')
    /\ (exists untried, primary :: fallback = (map fst attempts ++ untried)%list)
    /\ (forall i a, attempts !! i = Some a -> (S i < length attempts)%nat ->
          ChainSpec.yields_nothing (snd a))
    /\ match last attempts with
       | Some (_, inr (f :: flights)) => accepted = f :: flights
       | _ => accepted = [] /\ map fst attempts = primary :: fallback
       end
    /\ (Forall (fun a => ChainSpec.yields_nothing (snd a)) attempts ->
        map fst attempts = primary :: fallback
        /\ fst (fst (Agent.search_flights agent w)) = ok [])
    /\ (forall i site r, attempts !! i = Some (site, r) ->
          (primary :: fallback) !! i = Some site
          /\ exists w1 w2, ChainSpec.source_call document site w1 r w2)
    /\ (accepted <> [] ->
        exists site scraper q w1,
          last attempts = Some (site, ok accepted)
          /\ Scrapers.create_scraper SELENIUM_AVAILABLE site document = ok scraper
          /\ Agent.query_of document = ok q
          /\ scraper_search scraper document q w1 = (ok accepted, w')).
Proof.
  intros Hinit Hsites.
  pose proof (try_websites_first_success document (primary :: fallback) w) as Hrun.
  pose proof (search_flights_unfold document agent _ w Hinit Hsites) as Hsearch.
  destruct (Agent.try_websites document (primary :: fallback) w)
    as [[accepted attempts] w'].
  cbn [fst snd] in Hrun.
  exists accepted, attempts, w'.
  split; [exact Hrun |]. split; [exact Hsearch |].
  split; [exact (first_success_prefix _ _ _ _ _ _ Hrun) |].
  split; [exact (first_success_advance _ _ _ _ _ _ Hrun) |].
  split; [exact (first_success_last _ _ _ _ _ _ Hrun) |].
  split.
  { intros Hall.
    destruct (first_success_exhausted _ _ _ _ _ _ Hrun Hall) as [-> Hm].
    split; [exact Hm |]. now rewrite Hsearch. }
  split; [exact (first_success_calls _ _ _ _ _ _ Hrun) |].
  exact (first_success_accepted _ _ _ _ _ _ Hrun).
Qed.

(** C5, for the values it holds for.  For a configured [max_results] that
    is not negative (10 when the setting is absent) and any behaviour of the
    sources,
    [search_flights] of the constructed agent returns the empty list when no
    source was accepted, and otherwise the first [max_results] records of
    the sorted accepted records: the cut is made once, after the sort.  A
    list it returns has at most [max_results] records, and it returns one
    whenever the accepted records are well typed. *)
Theorem result_length_bounded {W : Type} `{!Adapters W}
  (document : Cfg.Config) (agent : Agent.FlightScannerAgent)
  (sites : list string) (w : W) :
  Agent.init document = ok agent ->
  Agent.websites_to_try document = ok sites ->
  0 <= ChainSpec.configured_max document ->
  exists accepted attempts w',
    ChainSpec.first_success document sites w attempts accepted w'
    /\ Agent.search_flights agent w
       = (match accepted with
          | [] => ok []
          | _ =>
              let* sorted :=
                Agent.sort_flights (ChainSpec.configured_sort document) accepted in
              ok (take (Z.to_nat (ChainSpec.configured_max document)) sorted)
          end, attempts, w')
    /\ (forall flights,
          fst (fst (Agent.search_flights agent w)) = ok flights ->
          Z.of_nat (length flights) <= ChainSpec.configured_max document)
    /\ (Forall RecordSpec.well_typed accepted ->
        exists flights, fst (fst (Agent.search_flights agent w)) = ok flights).
Proof.
  intros Hinit Hsites Hmax.
  pose proof (try_websites_first_success document sites w) as Hrun.
  pose proof (search_flights_unfold document agent _ w Hinit Hsites) as Hsearch.
  destruct (Agent.try_websites document sites w) as [[accepted attempts] w'].
  cbn [fst snd] in Hrun.
  exists accepted, attempts, w'.
  assert (Agent.search_flights agent w
          = (match accepted with
             | [] => ok []
             | _ =>
                 let* sorted :=
                   Agent.sort_flights (ChainSpec.configured_sort document) accepted in
                 ok (take (Z.to_nat (ChainSpec.configured_max document)) sorted)
             end, attempts, w')) as Hres.
  { rewrite Hsearch. destruct accepted as [|f fl]; [reflexivity |].
    rewrite (sort_and_limit_unfold _ _ _ Hinit).
    destruct (Agent.sort_flights _ _) as [e | sorted]; cbn; [reflexivity |].
    now rewrite slice_to_nonneg. }
  split; [exact Hrun |]. split; [exact Hres |]. rewrite Hres. cbn [fst].
  split.
  - intros flights. destruct accepted as [|f fl].
    + intros [= <-]. cbn. lia.
    + destruct (Agent.sort_flights _ _) as [e | sorted]; cbn; [discriminate |].
      intros [= <-]. rewrite length_take. lia.
  - intros Hwt. destruct accepted as [|f fl]; [now exists [] |].
    destruct (sort_flights_returns (ChainSpec.configured_sort document) _ Hwt)
      as [sorted ->].
    cbn. eauto.
Qed.

(** C9. When [sort_by] is set to a value other than 'price', 'duration' and
    'departure_time', [search_flights] of the constructed agent does not
    sort: it returns the accepted records in the order the adapter gave
    them, cut by the slice [[:max_results]]. *)
Theorem unknown_sort_key_keeps_order {W : Type} `{!Adapters W}
  (document : Cfg.Config) (agent : Agent.FlightScannerAgent)
  (sites : list string) (settings : Cfg.SearchSettings) (sort_key : string)
  (w : W) :
  Agent.init document = ok agent ->
  Agent.websites_to_try document = ok sites ->
  Cfg.search_settings document = Some settings ->
  Cfg.sort_by settings = Some sort_key ->
  sort_key ∉ ["price"; "duration"; "departure_time"] ->
  exists accepted attempts w',
    ChainSpec.first_success document sites w attempts accepted w'
    /\ Agent.search_flights agent w
       = (ok (PyList.slice_to accepted (ChainSpec.configured_max document)),
          attempts, w').
Proof.
  intros Hinit Hsites Hss Hsort Hother.
  pose proof (try_websites_first_success document sites w) as Hrun.
  pose proof (search_flights_unfold document agent _ w Hinit Hsites) as Hsearch.
  destruct (Agent.try_websites document sites w) as [[accepted attempts] w'].
  cbn [fst snd] in Hrun.
  exists accepted, attempts, w'. split; [exact Hrun |].
  rewrite Hsearch. destruct accepted as [|f fl].
  - unfold PyList.slice_to. destruct (0 <=? _); now rewrite take_nil.
  - rewrite (sort_and_limit_unfold _ _ _ Hinit).
    assert (ChainSpec.configured_sort document = sort_key) as ->.
    { unfold ChainSpec.configured_sort. now rewrite Hss, Hsort. }
    now rewrite sort_flights_other.
Qed.

(** The theorem at work: the first source finds nothing, the second raises,
    the third is accepted. *)
Lemma first_success_wins_witness :
  Agent.init (Sample.document "kayak" ["expedia"; "booking"] "2024-01-05" (Some 5) None)
  = ok {| Agent.config :=
            Sample.document "kayak" ["expedia"; "booking"] "2024-01-05" (Some 5) None |}
  /\ Agent.websites_to_try
       (Sample.document "kayak" ["expedia"; "booking"] "2024-01-05" (Some 5) None)
     = ok ["kayak"; "expedia"; "booking"]
  /\ exists accepted attempts w',
       @ChainSpec.first_success _ (Repo.adapters true)
         (Sample.document "kayak" ["expedia"; "booking"] "2024-01-05" (Some 5) None)
         ["kayak"; "expedia"; "booking"] Sample.failing attempts accepted w'
       /\ (forall i a, attempts !! i = Some a -> (S i < length attempts)%nat ->
             ChainSpec.yields_nothing (snd a))
       /\ (forall i site r, attempts !! i = Some (site, r) ->
             ["kayak"; "expedia"; "booking"] !! i = Some site
             /\ exists w1 w2,
                  @ChainSpec.source_call (Repo.World Z) (Repo.adapters true)
                    (Sample.document "kayak" ["expedia"; "booking"] "2024-01-05"
                       (Some 5) None) site w1 r w2)
       /\ (accepted <> [] ->
           exists site scraper q w1,
             last attempts = Some (site, ok accepted)
             /\ Scrapers.create_scraper (@SELENIUM_AVAILABLE (Repo.World Z) (Repo.adapters true)) site
                  (Sample.document "kayak" ["expedia"; "booking"] "2024-01-05"
                     (Some 5) None) = ok scraper
             /\ Agent.query_of
                  (Sample.document "kayak" ["expedia"; "booking"] "2024-01-05"
                     (Some 5) None) = ok q
             /\ @scraper_search (Repo.World Z) (Repo.adapters true) scraper
                  (Sample.document "kayak" ["expedia"; "booking"] "2024-01-05"
                     (Some 5) None) q w1 = (ok accepted, w')).
Proof.
  split; [reflexivity |]. split; [reflexivity |].
  destruct (@first_success_wins _ (Repo.adapters true)
              (Sample.document "kayak" ["expedia"; "booking"] "2024-01-05" (Some 5) None)
              _ "kayak" ["expedia"; "booking"] Sample.failing eq_refl eq_refl)
    as (accepted & attempts & w' & Hrun & _ & _ & Hadv & _ & _ & Hcalls & Hacc).
  exists accepted, attempts, w'.
  split; [exact Hrun |]. split; [exact Hadv |]. split; [exact Hcalls | exact Hacc].
Defined.

(** That run, computed. *)
Example first_success_wins_run :
  @Agent.main _ (Repo.adapters true)
    (Sample.document "kayak" ["expedia"; "booking"] "2024-01-05" (Some 5) None)
    Sample.failing
  = (ok [Scrapers.booking_sample],
     [("kayak", ok []); ("expedia", raise (ValueError "driver has quit"));
      ("booking", ok [Scrapers.booking_sample])],
     {| Repo.rng := 1; Repo.browser := [] |}).
Proof. vm_compute. reflexivity. Qed.

(** C5 does not hold for a negative [max_results]: the slice [[:-1]]
    drops the last record, and what is left is not "at most -1" records.
    With [max_results = -1], the one record of the Booking adapter leaves an
    empty list, and three records found by the first source leave two. *)
Lemma negative_max_results_exceeds :
  ChainSpec.configured_max
    (Sample.document "booking" [] "2024-01-05" (Some (-1)) None) = -1
  /\ fst (fst (@Agent.main _ (Repo.adapters true)
                 (Sample.document "booking" [] "2024-01-05" (Some (-1)) None)
                 (Sample.quiet 1)))
     = ok []
  /\ (-1) < Z.of_nat (length (@nil Flight))
  /\ fst (fst (@Agent.main _ (Repo.adapters true)
                 (Sample.document "kayak" [] "2024-01-05" (Some (-1)) None)
                 Sample.three_found))
     = ok [Sample.flight (Fin 10) PosInf; Sample.flight (Fin 20) (Fin 60)]
  /\ (-1) < Z.of_nat (length [Sample.flight (Fin 10) PosInf;
                            Sample.flight (Fin 20) (Fin 60)]).
Proof. repeat split; vm_compute; reflexivity. Qed.

(** The theorem at work: three records found, two asked for. *)
Lemma result_length_bounded_witness :
  Agent.init (Sample.document "kayak" [] "2024-01-05" (Some 2) None)
  = ok {| Agent.config := Sample.document "kayak" [] "2024-01-05" (Some 2) None |}
  /\ Agent.websites_to_try (Sample.document "kayak" [] "2024-01-05" (Some 2) None)
     = ok ["kayak"]
  /\ 0 <= ChainSpec.configured_max
            (Sample.document "kayak" [] "2024-01-05" (Some 2) None)
  /\ forall flights,
       fst (fst (@Agent.search_flights _ (Repo.adapters true)
                   {| Agent.config :=
                        Sample.document "kayak" [] "2024-01-05" (Some 2) None |}
                   Sample.three_found)) = ok flights ->
       Z.of_nat (length flights)
       <= ChainSpec.configured_max
            (Sample.document "kayak" [] "2024-01-05" (Some 2) None).
Proof.
  split; [reflexivity |]. split; [reflexivity |].
  split; [vm_compute; discriminate |].
  destruct (@result_length_bounded _ (Repo.adapters true)
              (Sample.document "kayak" [] "2024-01-05" (Some 2) None)
              _ ["kayak"] Sample.three_found eq_refl eq_refl
              ltac:(vm_compute; discriminate))
    as (accepted & attempts & w' & _ & _ & Hlen & _).
  exact Hlen.
Defined.

(** The theorem at work: [sort_by] set to 'airline'. *)
Lemma unknown_sort_key_witness :
  Agent.init (Sample.document "kayak" [] "2024-01-05" (Some 2) (Some "airline"))
  = ok {| Agent.config :=
            Sample.document "kayak" [] "2024-01-05" (Some 2) (Some "airline") |}
  /\ ("airline" ∉ ["price"; "duration"; "departure_time"])
  /\ exists accepted attempts w',
       @ChainSpec.first_success _ (Repo.adapters true)
         (Sample.document "kayak" [] "2024-01-05" (Some 2) (Some "airline"))
         ["kayak"] Sample.three_found attempts accepted w'
       /\ @Agent.search_flights _ (Repo.adapters true)
            {| Agent.config :=
                 Sample.document "kayak" [] "2024-01-05" (Some 2) (Some "airline") |}
            Sample.three_found
          = (ok (PyList.slice_to accepted
                   (ChainSpec.configured_max
                      (Sample.document "kayak" [] "2024-01-05" (Some 2)
                         (Some "airline")))),
             attempts, w').
Proof.
  assert ("airline" ∉ ["price"; "duration"; "departure_time"]) as Hother.
  { intros Hin. rewrite !elem_of_cons, elem_of_nil in Hin.
    destruct Hin as [H | [H | [H | []]]]; discriminate H. }
  split; [reflexivity |]. split; [exact Hother |].
  exact (@unknown_sort_key_keeps_order _ (Repo.adapters true)
           (Sample.document "kayak" [] "2024-01-05" (Some 2) (Some "airline"))
           _ ["kayak"] _ "airline" Sample.three_found
           eq_refl eq_refl eq_refl eq_refl Hother).
Defined.

(** That run, computed: the adapter's order, cut to two. *)
Example unknown_sort_key_run :
  fst (fst (@Agent.main _ (Repo.adapters true)
              (Sample.document "kayak" [] "2024-01-05" (Some 2) (Some "airline"))
              Sample.three_found))
  = ok [Sample.flight (Fin 30) (Fin 90); Sample.flight (Fin 10) PosInf].
Proof. vm_compute. reflexivity. Qed.

(** ** Validation against the configuration errors *)

Section ConfigErrorFacts.

Import Cfg Utils ConfigSpec.

(** Validation raises nothing but [ValueError]. *)
Lemma validate_config_raises (c : Config) (e : exn) :
  validate_config c = raise e -> exists msg, e = ValueError msg.
Proof.
  unfold validate_config, require, require_param, raise, ok.
  repeat match goal with
    | |- context [match ?x with _ => _ end] =>
        match x with
        | context [match _ with _ => _ end] => fail 1
        | _ => destruct x eqn:?
        end; cbn [bind]
    end;
    intros [= <-] || discriminate || idtac; eauto.
Qed.

Lemma truthy_empty (s : string) : Text.truthy s = false -> s = "".
Proof. destruct s; [reflexivity | discriminate]. Qed.

(** A configuration in error does not pass. *)
Lemma validate_config_sound (c : Config) :
  config_error c -> validate_config c <> ok tt.
Proof.
  intros Herr Hok.
  unfold validate_config, require, require_param, raise, ok in Hok.
  destruct Herr as [H | H | H | H | fs Hfs [H | H] | fs Hfs [H | H]
                   | fs Hfs [H | H] | fs d Hfs Hd H | fs r Hfs Hr Hne H
                   | ws Hws H | ws p Hws Hp H];
    try (rewrite H in Hok; discriminate);
    destruct (flight_search c) as [fs'|]; try discriminate;
    destruct (websites c) as [ws'|]; try discriminate;
    destruct (search_settings c) as [ss|]; try discriminate;
    destruct (browser_settings c) as [bs|]; try discriminate;
    cbn [bind] in Hok;
    try (injection Hfs as ->); try (injection Hws as ->);
    try (rewrite H in Hok; discriminate);
    destruct (source _) as [s|]; try discriminate;
    destruct (Text.truthy s); try discriminate; cbn [bind] in Hok;
    try (rewrite H in Hok; discriminate);
    destruct (destination _) as [d'|]; try discriminate;
    destruct (Text.truthy d'); try discriminate; cbn [bind] in Hok;
    try (rewrite H in Hok; discriminate);
    destruct (travel_date _) as [t|]; try discriminate;
    try (injection H as ->; discriminate);
    destruct (Text.truthy t); try discriminate; cbn [bind] in Hok;
    try (injection Hd as ->; rewrite H in Hok; discriminate);
    destruct (Datetime.strptime_ymd t); try discriminate; cbn [bind] in Hok.
  - rewrite Hr, (truthy_nonempty r Hne), H in Hok. discriminate.
  - destruct (match return_date _ with Some _ => _ | None => _ end);
      try discriminate; cbn [bind] in Hok.
    rewrite H in Hok. discriminate.
  - destruct (match return_date _ with Some _ => _ | None => _ end);
      try discriminate; cbn [bind] in Hok.
    rewrite Hp in Hok.
    destruct (bool_decide_reflect (p ∈ supported_websites)); [contradiction | discriminate].
Qed.

(** A configuration that does not pass is in error. *)
Lemma validate_config_complete (c : Config) :
  validate_config c <> ok tt -> config_error c.
Proof.
  unfold validate_config, require, require_param, raise, ok.
  destruct (flight_search c) as [fs|] eqn:Hfs;
    [| intros _; now apply missing_flight_search].
  destruct (websites c) as [ws|] eqn:Hws;
    [| intros _; now apply missing_websites].
  destruct (search_settings c) as [ss|] eqn:Hss;
    [| intros _; now apply missing_search_settings].
  destruct (browser_settings c) as [bs|] eqn:Hbs;
    [| intros _; now apply missing_browser_settings].
  cbn [bind].
  destruct (source fs) as [s|] eqn:Hs;
    [| intros _; apply (missing_source c fs); auto].
  destruct (Text.truthy s) eqn:Ts;
    [| intros _; apply truthy_empty in Ts as ->;
       apply (missing_source c fs); auto].
  cbn [bind].
  destruct (destination fs) as [d|] eqn:Hd;
    [| intros _; apply (missing_destination c fs); auto].
  destruct (Text.truthy d) eqn:Td;
    [| intros _; apply truthy_empty in Td as ->;
       apply (missing_destination c fs); auto].
  cbn [bind].
  destruct (travel_date fs) as [t|] eqn:Ht;
    [| intros _; apply (missing_travel_date c fs); auto].
  destruct (Text.truthy t) eqn:Tt;
    [| intros _; apply truthy_empty in Tt as ->;
       apply (missing_travel_date c fs); auto].
  cbn [bind].
  destruct (Datetime.strptime_ymd t) eqn:Pt;
    [| intros _; now apply (bad_travel_date c fs t)].
  cbn [bind].
  destruct (return_date fs) as [r|] eqn:Hr.
  - destruct (Text.truthy r) eqn:Tr.
    + destruct (Datetime.strptime_ymd r) eqn:Pr.
      * cbn [bind].
        destruct (primary ws) as [p|] eqn:Hp;
          [| intros _; now apply (missing_primary c ws)].
        destruct (bool_decide_reflect (p ∈ supported_websites));
          [intros Hne; now destruct Hne | intros _; now apply (unsupported_primary c ws p)].
      * intros _. apply (bad_return_date c fs r); auto.
        intros ->. discriminate.
    + cbn [bind].
      destruct (primary ws) as [p|] eqn:Hp;
        [| intros _; now apply (missing_primary c ws)].
      destruct (bool_decide_reflect (p ∈ supported_websites));
        [intros Hne; now destruct Hne | intros _; now apply (unsupported_primary c ws p)].
  - cbn [bind].
    destruct (primary ws) as [p|] eqn:Hp;
      [| intros _; now apply (missing_primary c ws)].
    destruct (bool_decide_reflect (p ∈ supported_websites));
      [intros Hne; now destruct Hne | intros _; now apply (unsupported_primary c ws p)].
Qed.

(** A web site the factory has no scraper class for is not a supported
    primary site either. *)
Lemma factory_unknown_unsupported (p : string) :
  Scrapers.SCRAPERS (Text.lower p) = None -> p ∉ supported_websites.
Proof.
  intros Hnone Hin. unfold supported_websites in Hin.
  rewrite !elem_of_cons in Hin.
  destruct Hin as [-> | [-> | [-> | Hnil]]];
    [discriminate .. | now apply elem_of_nil in Hnil].
Qed.

End ConfigErrorFacts.

(** C8, for the errors validation checks.  A configuration that lacks one of the four sections,
    lacks or leaves empty [source], [destination] or [travel_date], has a
    [travel_date] or a non-empty [return_date] that
    [strptime(_, '%Y-%m-%d')] refuses, lacks [websites.primary], or names a
    primary site other than 'kayak', 'expedia' and 'booking', makes the
    construction of the agent raise a [ValueError] from validation; the run
    ends there, with no attempt on any source and the world untouched. *)
Theorem invalid_config_fails_before_search {W : Type} `{!Adapters W}
  (document : Cfg.Config) (w : W) :
  ConfigSpec.config_error document ->
  exists msg,
    Utils.validate_config document = raise (ValueError msg)
    /\ Agent.init document = raise (ValueError msg)
    /\ Agent.main document w = (raise (ValueError msg), [], w).
Proof.
  intros Herr. pose proof (validate_config_sound _ Herr) as Hbad.
  destruct (Utils.validate_config document) as [e | []] eqn:V;
    [| exfalso; apply Hbad; reflexivity].
  destruct (validate_config_raises _ _ V) as [msg ->].
  exists msg. unfold Agent.main, Agent.init. rewrite V. auto.
Qed.

(** C8 does not hold for a date that is not in the form YYYY-MM-DD and
    that [strptime] accepts: "2024-1-5".  The agent is constructed and the
    search calls an adapter. *)
Lemma lenient_date_reaches_search :
  ConfigSpec.iso_form "2024-1-5" = false
  /\ Agent.init (Sample.document "booking" [] "2024-1-5" (Some 5) None)
     = ok {| Agent.config :=
               Sample.document "booking" [] "2024-1-5" (Some 5) None |}
  /\ @Agent.main _ (Repo.adapters true)
       (Sample.document "booking" [] "2024-1-5" (Some 5) None) (Sample.quiet 1)
     = (ok [Scrapers.booking_sample],
        [("booking", ok [Scrapers.booking_sample])], Sample.quiet 1).
Proof. repeat split; vm_compute; reflexivity. Qed.

(** The theorem at work: a date written with slashes. *)
Lemma invalid_config_witness :
  ConfigSpec.config_error (Sample.document "kayak" [] "05/01/2024" (Some 5) None)
  /\ exists msg,
       Utils.validate_config
         (Sample.document "kayak" [] "05/01/2024" (Some 5) None)
       = raise (ValueError msg)
       /\ Agent.init (Sample.document "kayak" [] "05/01/2024" (Some 5) None)
          = raise (ValueError msg)
       /\ @Agent.main _ (Repo.adapters true)
            (Sample.document "kayak" [] "05/01/2024" (Some 5) None)
            Sample.three_found
          = (raise (ValueError msg), [], Sample.three_found).
Proof.
  assert (ConfigSpec.config_error
            (Sample.document "kayak" [] "05/01/2024" (Some 5) None)) as Herr.
  { eapply ConfigSpec.bad_travel_date; reflexivity. }
  exact (conj Herr
           (@invalid_config_fails_before_search _ (Repo.adapters true)
              _ Sample.three_found Herr)).
Defined.

(** Fields that validation does not ask for.  Without [passengers] the agent
    is constructed, every attempt raises [KeyError] inside the [try] block
    before the adapter is called, and the search ends with no flights;
    without [fallback] the agent is constructed and the search itself raises
    [KeyError]. *)
Example unvalidated_fields :
  let without_passengers :=
    {| Cfg.flight_search :=
         Some {| Cfg.source := Some "NYC"; Cfg.destination := Some "LAX";
                 Cfg.travel_date := Some "2024-01-05";
                 Cfg.return_date := None;
                 Cfg.passengers := None; Cfg.class := Some "economy" |};
       Cfg.websites :=
         Some {| Cfg.primary := Some "booking"; Cfg.fallback := Some [] |};
       Cfg.search_settings :=
         Cfg.search_settings (Sample.document "booking" [] "" None None);
       Cfg.browser_settings := Some Sample.browser_settings |} in
  let without_fallback :=
    {| Cfg.flight_search :=
         Cfg.flight_search (Sample.document "booking" [] "2024-01-05" None None);
       Cfg.websites :=
         Some {| Cfg.primary := Some "booking"; Cfg.fallback := None |};
       Cfg.search_settings :=
         Cfg.search_settings (Sample.document "booking" [] "" None None);
       Cfg.browser_settings := Some Sample.browser_settings |} in
  @Agent.main _ (Repo.adapters true) without_passengers (Sample.quiet 1)
  = (ok [], [("booking", raise (KeyError "passengers"))], Sample.quiet 1)
  /\ @Agent.main _ (Repo.adapters true) without_fallback (Sample.quiet 1)
     = (raise (KeyError "fallback"), [], Sample.quiet 1).
Proof. split; vm_compute; reflexivity. Qed.

(** ** [strptime] on a date followed by a time *)

Section StrptimeFacts.

Import Text Datetime.

Ltac push_append := rewrite ?append_cons, ?append_empty_l.

Ltac split_classes :=
  repeat match goal with
    | |- context [between ?lo ?hi ?c] =>
        is_var c; destruct (between lo hi c) eqn:?
    | |- context [is_digit ?c] => is_var c; destruct (is_digit c) eqn:?
    | |- context [code ?c =? 32] => is_var c; destruct (code c =? 32) eqn:?
    end.

Lemma match_Y_app (s t : string) y r :
  match_Y s = Some (y, r) -> match_Y (s ++ t) = Some (y, r ++ t).
Proof.
  destruct s as [|a [|b [|c [|d s]]]]; try discriminate.
  push_append. cbn [match_Y].
  destruct (is_digit a && is_digit b && is_digit c && is_digit d);
    [| discriminate].
  now intros [= <- <-].
Qed.

Lemma literal_app (c : ascii) (s t r : string) :
  literal c s = Some r -> literal c (s ++ t) = Some (r ++ t).
Proof.
  destruct s as [|a s]; [discriminate |]. push_append. cbn [literal].
  destruct (Ascii.eqb a c); [| discriminate]. now intros [= <-].
Qed.

Lemma literal_inv (c : ascii) (s r : string) :
  literal c s = Some r -> s = String c r.
Proof.
  destruct s as [|a s]; [discriminate |]. cbn [literal].
  destruct (Ascii.eqb_spec a c) as [->|]; [| discriminate]. now intros [= <-].
Qed.

(** The month is followed by a hyphen: the text at hand has the two
    characters the alternatives look at. *)
Lemma match_m_app (s t : string) m c r :
  match_m s = Some (m, String c r) ->
  match_m (s ++ t) = Some (m, String c r ++ t).
Proof.
  destruct s as [|a [|b s]]; try discriminate.
  - unfold match_m, alternatives, digits2, digits1.
    split_classes; discriminate.
  - push_append. unfold match_m, alternatives, digits2, digits1.
    split_classes; cbn [andb]; intros H; inversion H; subst; now push_append.
Qed.

(** The day ends the date; a blank after it does not change the match. *)
Lemma match_d_blank (s sfx : string) d :
  match_d s = Some (d, "") ->
  match_d (s ++ String " " sfx) = Some (d, String " " sfx).
Proof.
  destruct s as [|a [|b [|c s]]]; try discriminate; push_append;
    unfold match_d, alternatives, digits2, digits1, blank_digit;
    change (between 48 49 " ") with false;
    change (is_digit " ") with false;
    change (between 49 57 " ") with false;
    split_classes; cbn [andb]; try discriminate;
    intros [= <-]; reflexivity.
Qed.

Ltac step := cbn [mbind option_bind].

Lemma match_ymd_blank (s sfx : string) d :
  match_ymd s = Some (d, "") ->
  match_ymd (s ++ String " " sfx) = Some (d, String " " sfx).
Proof.
  unfold match_ymd.
  destruct (match_Y s) as [[y s1]|] eqn:HY; step; [| discriminate].
  rewrite (match_Y_app _ _ _ _ HY). step.
  destruct (literal "-" s1) as [s2|] eqn:H1; step; [| discriminate].
  rewrite (literal_app _ _ _ _ H1). step.
  destruct (match_m s2) as [[m s3]|] eqn:Hm; step; [| discriminate].
  destruct (literal "-" s3) as [s4|] eqn:H2; step; [| discriminate].
  pose proof (literal_inv _ _ _ H2) as Hs3. subst s3.
  rewrite (match_m_app _ _ _ _ _ Hm). step.
  rewrite (literal_app _ _ _ _ H2). step.
  destruct (match_d s4) as [[dd s5]|] eqn:Hd; step; [| discriminate].
  intros [= <- ->].
  rewrite (match_d_blank _ _ _ Hd). reflexivity.
Qed.

End StrptimeFacts.

Section DatetimeFacts.

Import Text Datetime.

Lemma strptime_ymd_inv (s : string) (d : date) :
  strptime_ymd s = Some d -> match_ymd s = Some (d, "") /\ valid_date d = true.
Proof.
  unfold strptime_ymd.
  destruct (match_ymd s) as [[d' [|c r]]|]; cbn [mbind option_bind];
    try discriminate.
  destruct (valid_date d') eqn:V; [| discriminate].
  now intros [= ->].
Qed.

(** The departure times the generator writes are read back as written. *)
Lemma match_time_departure (h mi : Z) :
  6 <= h <= 22 -> mi ∈ [0; 15; 30; 45] ->
  match_time (String " " (pad2 h ++ ":" ++ pad2 mi)) = Some (h, mi).
Proof.
  intros Hh Hmi.
  assert (h = 6 \/ h = 7 \/ h = 8 \/ h = 9 \/ h = 10 \/ h = 11 \/ h = 12 \/ h = 13 \/ h = 14 \/ h = 15 \/ h = 16 \/ h = 17 \/ h = 18 \/ h = 19 \/ h = 20 \/ h = 21 \/ h = 22) as Hin by lia.
  assert (mi = 0 \/ mi = 15 \/ mi = 30 \/ mi = 45) as Hmi'.
  { rewrite !elem_of_cons, elem_of_nil in Hmi. tauto. }
  destruct Hmi' as [-> | [-> | [-> | ->]]];
    destruct Hin as [-> | [-> | [-> | [-> | [-> | [-> | [-> | [-> | [-> | [-> | [-> | [-> | [-> | [-> | [-> | [-> | ->]]]]]]]]]]]]]]]];
    vm_compute; reflexivity.
Qed.

Lemma strptime_departure (s : string) (d : date) (h mi : Z) :
  strptime_ymd s = Some d ->
  6 <= h <= 22 -> mi ∈ [0; 15; 30; 45] ->
  strptime_ymd_hm (s ++ " " ++ pad2 h ++ ":" ++ pad2 mi)
  = Some {| on := d; hour := h; minute := mi |}.
Proof.
  intros Hs Hh Hmi. destruct (strptime_ymd_inv _ _ Hs) as [Hm Hv].
  unfold strptime_ymd_hm. rewrite append_cons, append_empty_l.
  rewrite (match_ymd_blank _ _ _ Hm). cbn [mbind option_bind].
  rewrite match_time_departure by assumption. cbn [mbind option_bind].
  now rewrite Hv.
Qed.

Lemma days_before_month_from_nonneg (y : Z) (m : nat) :
  0 <= days_before_month_from y m.
Proof.
  induction m as [|m IH]; cbn [days_before_month_from]; [lia |].
  assert (28 <= days_in_month y (Z.of_nat (S m))).
  { unfold days_in_month.
    repeat match goal with |- context [if ?b then _ else _] => destruct b end;
      lia. }
  lia.
Qed.

Lemma toordinal_pos (d : date) : valid_date d = true -> 1 <= toordinal d.
Proof.
  unfold valid_date. rewrite !andb_true_iff, !Z.leb_le.
  intros [[[[[Hy _] _] _] Hd] _]. unfold toordinal, days_before_year.
  pose proof (days_before_month_from_nonneg (year d) (Z.to_nat (month d - 1))).
  pose proof (Z.div_pos (year d - 1) 4 ltac:(lia) ltac:(lia)).
  pose proof (Z.div_pos (year d - 1) 400 ltac:(lia) ltac:(lia)).
  assert ((year d - 1) / 100 <= year d - 1).
  { apply Z.div_le_upper_bound; lia. }
  lia.
Qed.

(** Adding a duration that ends before the second midnight, on a date
    before the last one. *)
Lemma add_minutes_ok (dt : datetime) (n : Z) :
  valid_date (on dt) = true ->
  toordinal (on dt) < MAXORDINAL ->
  0 <= hour dt * 60 + minute dt + n < 2880 ->
  exists days h mi, add_minutes dt n = ok (days, (h, mi)).
Proof.
  intros Hv Hmax Htotal. unfold add_minutes.
  pose proof (toordinal_pos _ Hv).
  assert (0 <= (hour dt * 60 + minute dt + n) / 1440 <= 1) as Hdays.
  { split; [apply Z.div_pos; lia |].
    apply Z.lt_succ_r. apply Z.div_lt_upper_bound; lia. }
  destruct (Z.leb_spec 1 (toordinal (on dt) + (hour dt * 60 + minute dt + n) / 1440));
    [| lia].
  destruct (Z.leb_spec (toordinal (on dt) + (hour dt * 60 + minute dt + n) / 1440)
              MAXORDINAL); [| lia].
  cbn. eauto.
Qed.

End DatetimeFacts.

(** ** Code that draws and may raise *)

Section MonadFacts.

Context {G : Type}.

Lemma bindM_ok {A B} (m : M G A) (k : A -> M G B) (g g' : G) (b : B) :
  bindM m k g = (ok b, g') ->
  exists a g1, m g = (ok a, g1) /\ k a g1 = (ok b, g').
Proof.
  unfold bindM. destruct (m g) as [[e | a] g1]; [discriminate |]. eauto.
Qed.

Lemma bindM_step {A B} (m : M G A) (k : A -> M G B) (g g1 : G) (a : A) :
  m g = (ok a, g1) -> bindM m k g = k a g1.
Proof. unfold bindM. now intros ->. Qed.

Lemma lift_ok {A} (r : result A) (g g' : G) (a : A) :
  lift r g = (ok a, g') -> r = ok a /\ g' = g.
Proof. unfold lift. now intros [= -> ->]. Qed.

Lemma ret_ok {A} (a b : A) (g g' : G) :
  ret a g = (ok b, g') -> b = a /\ g' = g.
Proof. unfold ret, ok. now intros [= -> ->]. Qed.

End MonadFacts.

(** ** [random] *)

Section RandomFacts.

Context {G : Type} `{!RandomGen G}.

Lemma randint_ok (a b : Z) (g g' : G) (v : Z) :
  Random.randint a b g = (ok v, g') -> a <= v <= b.
Proof.
  unfold Random.randint. destruct (Z.ltb_spec b a); [discriminate |].
  unfold bindM, draw, ret.
  pose proof (randbelow_range (b - a + 1) g ltac:(lia)) as Hr.
  destruct (randbelow (b - a + 1) g) as [r g1]. cbn in Hr.
  intros [= <- _]. lia.
Qed.

Lemma randint_total (a b : Z) (g : G) :
  a <= b -> exists v g', Random.randint a b g = (ok v, g') /\ a <= v <= b.
Proof.
  intros Hab. unfold Random.randint.
  destruct (Z.ltb_spec b a); [lia |].
  unfold bindM, draw, ret.
  pose proof (randbelow_range (b - a + 1) g ltac:(lia)) as Hr.
  destruct (randbelow (b - a + 1) g) as [r g1]. cbn in Hr.
  exists (a + r), g1. split; [reflexivity | lia].
Qed.

Lemma nth_elem_of {A} (l : list A) (i : Z) (d : A) :
  0 <= i < Z.of_nat (length l) -> nth (Z.to_nat i) l d ∈ l.
Proof.
  intros Hi. apply list_elem_of_In, nth_In. lia.
Qed.

Lemma choice_ok {A} (seq : list A) (g g' : G) (x : A) :
  Random.choice seq g = (ok x, g') -> x ∈ seq.
Proof.
  unfold Random.choice. destruct seq as [|y seq]; [discriminate |].
  unfold bindM, draw, ret.
  pose proof (randbelow_range (Z.of_nat (length (y :: seq))) g
                ltac:(cbn [length]; lia)) as Hr.
  destruct (randbelow (Z.of_nat (length (y :: seq))) g) as [i g1].
  cbn [fst] in Hr. intros [= <- _]. exact (nth_elem_of (y :: seq) i y Hr).
Qed.

Lemma choice_total {A} (seq : list A) (g : G) :
  seq <> [] -> exists x g', Random.choice seq g = (ok x, g') /\ x ∈ seq.
Proof.
  intros Hne. unfold Random.choice. destruct seq as [|y seq]; [congruence |].
  unfold bindM, draw, ret.
  pose proof (randbelow_range (Z.of_nat (length (y :: seq))) g
                ltac:(cbn [length]; lia)) as Hr.
  destruct (randbelow (Z.of_nat (length (y :: seq))) g) as [i g1].
  cbn [fst] in Hr. eexists _, g1. split; [reflexivity |].
  exact (nth_elem_of (y :: seq) i y Hr).
Qed.

(** The weighted draw of the stops. *)
Lemma choices_stops_total (g : G) :
  exists s g',
    Random.choices ["Nonstop"; "1 stop"; "2 stops"] [4; 5; 1] g = (ok s, g')
    /\ s ∈ ["Nonstop"; "1 stop"; "2 stops"].
Proof.
  unfold Random.choices. cbn -[randbelow nth Nat.min Z.add Z.leb Z.ltb].
  change (0 + 4 + 5 + 1 <=? 0) with false. cbn iota.
  unfold bindM, draw, ret.
  destruct (randbelow (0 + 4 + 5 + 1) g) as [v g1].
  eexists _, g1. split; [reflexivity |].
  apply list_elem_of_In, nth_In. cbn [length].
  match goal with |- (Nat.min ?a 2 < 3)%nat => pose proof (Nat.le_min_r a 2) end.
  lia.
Qed.

End RandomFacts.

(** ** The demo generator *)

Section DemoFacts.

Context {G : Type} `{!RandomGen G}.
Import DemoSpec.

Lemma airlines_get_ok (airline : string) :
  airline ∈ map fst Demo.airlines ->
  exists lo hi, Demo.airlines_get airline Demo.airlines = ok (lo, hi) /\ lo <= hi.
Proof.
  cbn [map fst Demo.airlines]. rewrite !elem_of_cons, elem_of_nil.
  intros [-> | [-> | [-> | [-> | [-> | [-> | [-> | [-> | []]]]]]]]];
    eexists _, _; (split; [reflexivity | lia]).
Qed.

(** The route table, entry by entry. *)
Lemma flight_durations_lookup (k : string * string) (r : Z * Z) :
  Demo.flight_durations !! k = Some r ->
  (k, r) ∈ [(("NYC", "LAX"), (330, 390)); (("NYC", "CHI"), (150, 180));
            (("LAX", "CHI"), (240, 280)); (("NYC", "MIA"), (180, 220));
            (("LAX", "SEA"), (150, 180))].
Proof. apply elem_of_list_to_map_2. Qed.

Lemma duration_range_bounds (source destination : string) :
  120 <= fst (Demo.duration_range source destination)
  /\ fst (Demo.duration_range source destination)
     <= snd (Demo.duration_range source destination)
  /\ snd (Demo.duration_range source destination) <= 480.
Proof.
  unfold Demo.duration_range.
  generalize (Text.upper source) (Text.upper destination). intros a b.
  destruct (Demo.flight_durations !! (a, b)) as [r|] eqn:E1.
  - apply flight_durations_lookup in E1.
    rewrite !elem_of_cons, elem_of_nil in E1.
    destruct E1 as [E | [E | [E | [E | [E | []]]]]];
      apply pair_equal_spec in E as [_ ->]; cbn; lia.
  - destruct (Demo.flight_durations !! (b, a)) as [r|] eqn:E2; [| cbn; lia].
    apply flight_durations_lookup in E2.
    rewrite !elem_of_cons, elem_of_nil in E2.
    destruct E2 as [E | [E | [E | [E | [E | []]]]]];
      apply pair_equal_spec in E as [_ ->]; cbn; lia.
Qed.

(** A duration drawn from the range of the pair is in the route range. *)
Lemma duration_range_in_route_range (source destination : string) (dm : Z) :
  fst (Demo.duration_range source destination) <= dm
    <= snd (Demo.duration_range source destination) ->
  in_route_range source destination dm.
Proof.
  unfold Demo.duration_range, in_route_range. cbv zeta.
  generalize (Text.upper source) (Text.upper destination).
  intros a b Hdm.
  destruct (Demo.flight_durations !! (a, b)) as [r|] eqn:E1.
  - pose proof (flight_durations_lookup _ _ E1) as Hin.
    rewrite !elem_of_cons, elem_of_nil in Hin.
    destruct Hin as [E | [E | [E | [E | [E | []]]]]];
      injection E as -> -> ->; cbn in Hdm;
      (split; [intros lo hi [= <- <-]; lia |]);
      (split; [intros lo hi; vm_compute; discriminate |]);
      (split; [discriminate |]);
      (intros [[= ] | [= ]]; lia).
  - destruct (Demo.flight_durations !! (b, a)) as [r|] eqn:E2.
    + pose proof (flight_durations_lookup _ _ E2) as Hin.
      rewrite !elem_of_cons, elem_of_nil in Hin.
      destruct Hin as [E | [E | [E | [E | [E | []]]]]];
        injection E as -> -> ->; cbn in Hdm;
        (split; [discriminate |]);
        (split; [intros lo hi [= <- <-]; lia |]);
        (split; [discriminate |]);
        (intros [[= ] | [= ]]; lia).
    + cbn in Hdm. split; [discriminate |]. split; [discriminate |].
      split; [auto |].
      intros [[= -> ->] | [= -> ->]]; vm_compute in E1, E2; discriminate.
Qed.

End DemoFacts.

Section GenerateFacts.

Context {G : Type} `{!RandomGen G}.
Import DemoSpec.

Ltac invert_binds H :=
  repeat match type of H with
    | bindM _ _ _ = (ok _, _) =>
        let a := fresh "a" in
        let g := fresh "g" in
        let E := fresh "E" in
        apply bindM_ok in H as (a & g & E & H)
    end.

(** The record [_generate_flight] returns. *)
Lemma generate_flight_inv (source destination travel_date : string)
  (g g' : G) (flight : Flight) :
  Demo._generate_flight source destination travel_date g = (ok flight, g') ->
  exists (airline departure_time arrival_time duration price stops : string)
         (duration_minutes price_numeric : Z),
    flight = list_to_map
               [("airline", VStr airline);
                ("departure_time", VStr departure_time);
                ("arrival_time", VStr arrival_time);
                ("duration", VStr duration);
                ("duration_minutes", VNum (Fin duration_minutes));
                ("price", VStr price);
                ("price_numeric", VNum (Fin price_numeric));
                ("stops", VStr stops);
                ("departure_airport", VStr (Text.upper source));
                ("arrival_airport", VStr (Text.upper destination));
                ("website", VStr "Demo Data")]
    /\ fst (Demo.duration_range source destination) <= duration_minutes
       <= snd (Demo.duration_range source destination).
Proof.
  unfold Demo._generate_flight. intros H. invert_binds H.
  apply ret_ok in H as [-> _].
  match goal with
  | E : Random.randint (fst (Demo.duration_range _ _)) _ _ = _ |- _ =>
      apply randint_ok in E
  end.
  eexists _, _, _, _, _, _, _, _. split; [reflexivity | assumption].
Qed.

Lemma generate_flight_duration (source destination travel_date : string)
  (g g' : G) (flight : Flight) :
  Demo._generate_flight source destination travel_date g = (ok flight, g') ->
  duration_in_route_range source destination flight.
Proof.
  intros H.
  destruct (generate_flight_inv _ _ _ _ _ _ H)
    as (airline & dep & arr & dur & price & stops & dm & pn & -> & Hdm).
  exists dm. split; [reflexivity |].
  now apply duration_range_in_route_range.
Qed.

Lemma generate_flight_price (source destination travel_date : string)
  (g g' : G) (flight : Flight) :
  Demo._generate_flight source destination travel_date g = (ok flight, g') ->
  exists pn, flight !! "price_numeric" = Some (VNum (Fin pn)).
Proof.
  intros H.
  destruct (generate_flight_inv _ _ _ _ _ _ H)
    as (airline & dep & arr & dur & price & stops & dm & pn & -> & Hdm).
  exists pn. reflexivity.
Qed.

End GenerateFacts.

Section GenerateTotal.

Context {G : Type} `{!RandomGen G}.
Import DemoSpec.

(** On a travel date that [strptime] accepts and that is not the last
    date of the calendar, [_generate_flight] returns a record. *)
Lemma generate_flight_total (source destination travel_date : string)
  (date : Datetime.date) (g : G) :
  Datetime.strptime_ymd travel_date = Some date ->
  Datetime.toordinal date < Datetime.MAXORDINAL ->
  exists flight g',
    Demo._generate_flight source destination travel_date g = (ok flight, g').
Proof.
  intros Hdate Hmax. unfold Demo._generate_flight.
  destruct (choice_total (map fst Demo.airlines) g ltac:(discriminate))
    as (airline & g1 & E1 & Hin).
  rewrite (bindM_step _ _ _ _ _ E1).
  destruct (airlines_get_ok airline Hin) as (lo & hi & Eget & Hle).
  rewrite (bindM_step (lift _) _ g1 g1 (lo, hi))
    by (unfold lift; now rewrite Eget).
  cbn [fst snd].
  destruct (randint_total lo hi g1 Hle) as (base & g2 & E2 & _).
  rewrite (bindM_step _ _ _ _ _ E2).
  destruct (randint_total (-50) 100 g2 ltac:(lia)) as (jitter & g3 & E3 & _).
  rewrite (bindM_step _ _ _ _ _ E3).
  pose proof (duration_range_bounds source destination) as (Hlo & Hr & Hhi).
  destruct (randint_total _ _ g3 Hr) as (dm & g4 & E4 & Hdm).
  rewrite (bindM_step _ _ _ _ _ E4).
  destruct (randint_total 6 22 g4 ltac:(lia)) as (h & g5 & E5 & Hh).
  rewrite (bindM_step _ _ _ _ _ E5).
  destruct (choice_total [0; 15; 30; 45] g5 ltac:(discriminate))
    as (mi & g6 & E6 & Hmi).
  rewrite (bindM_step _ _ _ _ _ E6).
  rewrite (strptime_departure _ _ _ _ Hdate Hh Hmi).
  rewrite (bindM_step (lift _) _ g6 g6 _ eq_refl).
  destruct (strptime_ymd_inv _ _ Hdate) as [_ Hvalid].
  assert (0 <= mi <= 45) as Hmi'.
  { rewrite !elem_of_cons, elem_of_nil in Hmi. lia. }
  destruct (add_minutes_ok
              {| Datetime.on := date; Datetime.hour := h; Datetime.minute := mi |}
              dm Hvalid Hmax ltac:(cbn; lia))
    as (days & ah & ami & Eadd).
  rewrite (bindM_step (lift _) _ g6 g6 (days, (ah, ami)))
    by (unfold lift; now rewrite Eadd).
  destruct (choices_stops_total g6) as (stops & g7 & E7 & _).
  rewrite (bindM_step _ _ _ _ _ E7).
  destruct (String.eqb stops "Nonstop").
  - destruct (randint_total 50 150 g7 ltac:(lia)) as (extra & g8 & E8 & _).
    rewrite (bindM_step (bindM _ _) _ g7 g8 (base + jitter + extra))
      by (now rewrite (bindM_step _ _ _ _ _ E8)).
    unfold ret. eauto.
  - destruct (String.eqb stops "2 stops").
    + destruct (randint_total 30 100 g7 ltac:(lia)) as (less & g8 & E8 & _).
      rewrite (bindM_step (bindM _ _) _ g7 g8 (base + jitter - less))
        by (now rewrite (bindM_step _ _ _ _ _ E8)).
      unfold ret. eauto.
    + rewrite (bindM_step (ret _) _ g7 g7 _ eq_refl).
      unfold ret. eauto.
Qed.

(** The loop: as many records as iterations, each one a result of
    [_generate_flight]. *)
Lemma generate_flights_inv (P : Flight -> Prop)
  (source destination travel_date : string) :
  (forall g g' flight,
      Demo._generate_flight source destination travel_date g = (ok flight, g') ->
      P flight) ->
  forall n g g' flights,
    Demo.generate_flights n source destination travel_date g = (ok flights, g') ->
    length flights = n /\ Forall P flights.
Proof.
  intros HP. induction n as [|n IH]; intros g g' flights H;
    cbn [Demo.generate_flights] in H.
  - apply ret_ok in H as [-> _]. now split.
  - apply bindM_ok in H as (flight & g1 & E1 & H).
    apply bindM_ok in H as (rest & g2 & E2 & H).
    apply ret_ok in H as [-> _].
    destruct (IH _ _ _ E2) as [Hlen Hall].
    split; [cbn; now rewrite Hlen |].
    constructor; [exact (HP _ _ _ E1) | exact Hall].
Qed.

Lemma generate_flights_total (source destination travel_date : string) :
  (forall g, exists flight g',
      Demo._generate_flight source destination travel_date g = (ok flight, g')) ->
  forall n g, exists flights g',
    Demo.generate_flights n source destination travel_date g = (ok flights, g').
Proof.
  intros Hgen. induction n as [|n IH]; intros g; cbn [Demo.generate_flights].
  - unfold ret. eauto.
  - destruct (Hgen g) as (flight & g1 & E1).
    rewrite (bindM_step _ _ _ _ _ E1).
    destruct (IH g1) as (rest & g2 & E2).
    rewrite (bindM_step _ _ _ _ _ E2). unfold ret. eauto.
Qed.

End GenerateTotal.

Section DemoSearchFacts.

Context {G : Type} `{!RandomGen G}.
Import DemoSpec.

(** [search_flights] returns the generated records, sorted by price. *)
Lemma demo_search_inv (config : Cfg.Config)
  (source destination travel_date : string) (return_date : option string)
  (passengers : Z) (flight_class : string) (g g' : G) (flights : list Flight) :
  Demo.search_flights config source destination travel_date return_date
    passengers flight_class g = (ok flights, g') ->
  exists settings m generated,
    Cfg.search_settings config = Some settings
    /\ Cfg.max_results settings = Some m
    /\ Demo.generate_flights (Z.to_nat (Z.min m 8)) source destination
         travel_date g = (ok generated, g')
    /\ flights = StableSort.sort Number.ltb
                   (fun x => RecordSpec.num_of (Agent.price_key x)) generated.
Proof.
  unfold Demo.search_flights. intros H.
  apply bindM_ok in H as (n & g1 & E1 & H).
  apply lift_ok in E1 as [E1 ->].
  destruct (Cfg.search_settings config) as [settings|] eqn:Hss; [| discriminate].
  cbn in E1. destruct (Cfg.max_results settings) as [m|] eqn:Hm; [| discriminate].
  cbn in E1. injection E1 as <-.
  apply bindM_ok in H as (generated & g2 & E2 & H).
  apply lift_ok in H as [H ->].
  exists settings, m, generated.
  split; [reflexivity |]. split; [exact Hm |]. split; [exact E2 |].
  pose proof (generate_flights_inv
                (fun x => exists pn, x !! "price_numeric" = Some (VNum (Fin pn)))
                _ _ _ (generate_flight_price _ _ _) _ _ _ _ E2) as [_ Hprice].
  rewrite (py_sort_pure RecordSpec.is_number RecordSpec.num_of Number.ltb
             compare_numbers _ Agent.price_key) in H.
  - unfold ok in H. now injection H as <-.
  - eapply Forall_impl; [exact Hprice |]. intros x [pn Hx]. cbn.
    unfold Agent.price_key. now rewrite Hx.
  - eapply Forall_impl; [exact Hprice |]. intros x [pn Hx]. cbn.
    unfold Agent.price_key. rewrite Hx. now exists (Fin pn).
Qed.

Lemma sorted_prices_ascending (generated : list Flight) :
  Forall (fun x => exists pn, x !! "price_numeric" = Some (VNum (Fin pn)))
    generated ->
  price_ascending
    (StableSort.sort Number.ltb
       (fun x => RecordSpec.num_of (Agent.price_key x)) generated).
Proof.
  intros Hprice i j a b Hij Hi Hj.
  set (key := fun x : Flight => RecordSpec.num_of (Agent.price_key x)) in *.
  assert (Forall (fun x => exists pn, x !! "price_numeric" = Some (VNum (Fin pn)))
            (StableSort.sort Number.ltb key generated)) as Hsorted.
  { eapply Permutation_Forall; [| exact Hprice].
    symmetry. apply stable_sort_perm. }
  rewrite Forall_forall in Hsorted.
  destruct (Hsorted a (list_elem_of_lookup_2 _ _ _ Hi)) as [pa Ha].
  destruct (Hsorted b (list_elem_of_lookup_2 _ _ _ Hj)) as [pb Hb].
  exists pa, pb. split; [exact Ha |]. split; [exact Hb |].
  destruct (decide (i = j)) as [-> | Hne].
  - rewrite Hi in Hj. injection Hj as <-. rewrite Ha in Hb.
    injection Hb as <-. lia.
  - pose proof (sorted_lookup Number.ltb key _ i j a b
                  (stable_sort_sorted Number.ltb key number_ltb_irrefl
                     number_ltb_trans number_ltb_cotrans generated)
                  ltac:(lia) Hi Hj) as Hord.
    unfold StableSort.in_order, key, Agent.price_key in Hord. rewrite Ha, Hb in Hord.
    cbn in Hord. apply Z.ltb_ge in Hord. exact Hord.
Qed.

Lemma demo_search_total (config : Cfg.Config) settings (m : Z)
  (source destination travel_date : string) (return_date : option string)
  (passengers : Z) (flight_class : string) (date : Datetime.date) (g : G) :
  Cfg.search_settings config = Some settings ->
  Cfg.max_results settings = Some m ->
  Datetime.strptime_ymd travel_date = Some date ->
  Datetime.toordinal date < Datetime.MAXORDINAL ->
  exists flights g',
    Demo.search_flights config source destination travel_date return_date
      passengers flight_class g = (ok flights, g').
Proof.
  intros Hss Hm Hdate Hmax. unfold Demo.search_flights.
  rewrite Hss. unfold subscript at 1. unfold ok at 1. cbn [bind].
  rewrite Hm. unfold subscript at 1. unfold ok at 1. cbn [bind].
  rewrite (bindM_step (lift _) _ g g (Z.min m 8) eq_refl).
  destruct (generate_flights_total source destination travel_date
              (fun g0 => generate_flight_total _ _ _ _ g0 Hdate Hmax)
              (Z.to_nat (Z.min m 8)) g) as (generated & g1 & E).
  rewrite (bindM_step _ _ _ _ _ E).
  pose proof (generate_flights_inv
                (fun x => exists pn, x !! "price_numeric" = Some (VNum (Fin pn)))
                _ _ _ (generate_flight_price _ _ _) _ _ _ _ E) as [_ Hprice].
  unfold lift.
  rewrite (py_sort_pure RecordSpec.is_number RecordSpec.num_of Number.ltb
             compare_numbers _ Agent.price_key).
  - eauto.
  - eapply Forall_impl; [exact Hprice |]. intros x [pn Hx]. cbn.
    unfold Agent.price_key. now rewrite Hx.
  - eapply Forall_impl; [exact Hprice |]. intros x [pn Hx]. cbn.
    unfold Agent.price_key. rewrite Hx. now exists (Fin pn).
Qed.

End DemoSearchFacts.

(** C6, with the count made exact.  With [max_results] configured as [m], a list that
    [DemoFlightScraper.search_flights] returns has max(0, min(m, 8)) records,
    which is at most min(m, 8) when [m] is not negative and never more than
    8, and its records stand in ascending order of [price_numeric].  It
    returns a list for every travel date that [strptime] accepts, the last
    date of the calendar apart. *)
Theorem demo_search_bounded_sorted {G : Type} `{!RandomGen G}
  (config : Cfg.Config) (settings : Cfg.SearchSettings) (m : Z)
  (source destination travel_date : string) (return_date : option string)
  (passengers : Z) (flight_class : string) (g : G) :
  Cfg.search_settings config = Some settings ->
  Cfg.max_results settings = Some m ->
  (forall flights g',
      Demo.search_flights config source destination travel_date return_date
        passengers flight_class g = (ok flights, g') ->
      length flights = Z.to_nat (Z.min m 8)
      /\ (0 <= m -> Z.of_nat (length flights) <= Z.min m 8)
      /\ (length flights <= 8)%nat
      /\ DemoSpec.price_ascending flights)
  /\ (forall date,
        Datetime.strptime_ymd travel_date = Some date ->
        Datetime.toordinal date < Datetime.MAXORDINAL ->
        exists flights g',
          Demo.search_flights config source destination travel_date return_date
            passengers flight_class g = (ok flights, g')).
Proof.
  intros Hss Hm. split.
  - intros flights g' H.
    destruct (demo_search_inv _ _ _ _ _ _ _ _ _ _ H)
      as (settings' & m' & generated & Hss' & Hm' & Hgen & ->).
    rewrite Hss in Hss'. injection Hss' as <-.
    rewrite Hm in Hm'. injection Hm' as <-.
    pose proof (generate_flights_inv
                  (fun x => exists pn, x !! "price_numeric" = Some (VNum (Fin pn)))
                  _ _ _ (generate_flight_price _ _ _) _ _ _ _ Hgen) as [Hlen Hprice].
    rewrite (Permutation_length (stable_sort_perm _ _ generated)), Hlen.
    split; [reflexivity |]. split; [lia |]. split; [lia |].
    now apply sorted_prices_ascending.
  - intros date Hdate Hmax. eapply demo_search_total; eassumption.
Qed.

(** C7.  The [duration_minutes] of every record of the demo generator lies
    in the range the route table gives for the upper-cased pair, found as
    given or reversed (in [330, 390] for NYC and LAX), and in [120, 480]
    for a pair the table has in neither orientation.  This holds of what
    [_generate_flight] returns and of every record in a list
    [search_flights] returns. *)
Theorem demo_duration_in_route_range {G : Type} `{!RandomGen G}
  (source destination travel_date : string) :
  (forall (g g' : G) flight,
      Demo._generate_flight source destination travel_date g = (ok flight, g') ->
      DemoSpec.duration_in_route_range source destination flight)
  /\ (forall config return_date passengers flight_class (g g' : G) flights,
        Demo.search_flights config source destination travel_date return_date
          passengers flight_class g = (ok flights, g') ->
        Forall (DemoSpec.duration_in_route_range source destination) flights).
Proof.
  split.
  - intros g g' flight. apply generate_flight_duration.
  - intros config return_date passengers flight_class g g' flights H.
    destruct (demo_search_inv _ _ _ _ _ _ _ _ _ _ H)
      as (settings & m & generated & _ & _ & Hgen & ->).
    eapply Permutation_Forall; [symmetry; apply stable_sort_perm |].
    exact (proj2 (generate_flights_inv _ _ _ _
                    (generate_flight_duration _ _ _) _ _ _ _ Hgen)).
Qed.

(** C10.  [DemoFlightScraper.search_flights] does not read [return_date],
    [passengers] or [flight_class]: from the same generator state, with the
    same configuration, source, destination and travel date, two calls
    return the same list (or raise alike) and leave the same generator
    state, whatever these three arguments are; and so for the adapter the
    aggregator calls. *)
Theorem demo_search_ignores_trip_details {G : Type} `{!RandomGen G}
  (config : Cfg.Config) (source destination travel_date : string)
  (return_date1 return_date2 : option string) (passengers1 passengers2 : Z)
  (flight_class1 flight_class2 : string) (g : G)
  (browser : list (result (list Flight))) :
  Demo.search_flights config source destination travel_date return_date1
    passengers1 flight_class1 g
  = Demo.search_flights config source destination travel_date return_date2
      passengers2 flight_class2 g
  /\ Repo.search DemoFlightScraper config
       {| q_source := source; q_destination := destination;
          q_travel_date := travel_date; q_return_date := return_date1;
          q_passengers := passengers1; q_flight_class := flight_class1 |}
       {| Repo.rng := g; Repo.browser := browser |}
     = Repo.search DemoFlightScraper config
         {| q_source := source; q_destination := destination;
            q_travel_date := travel_date; q_return_date := return_date2;
            q_passengers := passengers2; q_flight_class := flight_class2 |}
         {| Repo.rng := g; Repo.browser := browser |}.
Proof. split; reflexivity. Qed.

(** C6 does not hold for a negative [max_results]: with [max_results = -1]
    the generator returns the empty list, which is not "at most
    min(-1, 8) = -1" records. *)
Lemma demo_negative_max_results :
  fst (Demo.search_flights
         (Sample.document "kayak" ["demo"] "2024-01-05" (Some (-1)) None)
         "NYC" "LAX" "2024-01-05" None 1 "economy" (1 : Z))
  = ok []
  /\ Z.min (-1) 8 < Z.of_nat (length (@nil Flight)).
Proof. split; vm_compute; reflexivity. Qed.

(** The theorem at work: five records asked for. *)
Lemma demo_search_witness :
  Cfg.search_settings
    (Sample.document "kayak" ["demo"] "2024-01-05" (Some 5) None)
  = Some {| Cfg.max_results := Some 5; Cfg.sort_by := None;
            Cfg.timeout := Some 30; Cfg.retry_attempts := Some 3 |}
  /\ (forall flights g',
        Demo.search_flights
          (Sample.document "kayak" ["demo"] "2024-01-05" (Some 5) None)
          "NYC" "LAX" "2024-01-05" None 1 "economy" (7 : Z) = (ok flights, g') ->
        length flights = Z.to_nat (Z.min 5 8)
        /\ (0 <= 5 -> Z.of_nat (length flights) <= Z.min 5 8)
        /\ (length flights <= 8)%nat
        /\ DemoSpec.price_ascending flights)
  /\ exists flights g',
       Demo.search_flights
         (Sample.document "kayak" ["demo"] "2024-01-05" (Some 5) None)
         "NYC" "LAX" "2024-01-05" None 1 "economy" (7 : Z) = (ok flights, g').
Proof.
  split; [reflexivity |].
  destruct (demo_search_bounded_sorted
              (Sample.document "kayak" ["demo"] "2024-01-05" (Some 5) None)
              _ 5 "NYC" "LAX" "2024-01-05" None 1 "economy" (7 : Z)
              eq_refl eq_refl) as [Hres Htotal].
  split; [exact Hres |].
  apply (Htotal {| Datetime.year := 2024; Datetime.month := 1; Datetime.day := 5 |});
    reflexivity.
Defined.

(** A run of the generator for NYC to LAX: the prices ascend and the
    durations lie in [330, 390]. *)
Example demo_search_run :
  (fun r => match fst r with
            | inr flights =>
                map (fun x : Flight =>
                       (x !! "price_numeric", x !! "duration_minutes")) flights
            | inl _ => []
            end)
    (Demo.search_flights
       (Sample.document "kayak" ["demo"] "2024-01-05" (Some 3) None)
       "nyc" "lax" "2024-01-05" None 1 "economy" (7 : Z))
  = [(Some (VNum (Fin 223)), Some (VNum (Fin 382)));
     (Some (VNum (Fin 306)), Some (VNum (Fin 366)));
     (Some (VNum (Fin 506)), Some (VNum (Fin 378)))].
Proof. vm_compute. reflexivity. Qed.

(** ** End to end *)

(** The scenario of the specification: NYC to LAX, five results asked for,
    the primary site finds nothing, the fallback is the demo generator (the
    browser toolkit is absent, so the factory hands out the demo scraper).
    The search returns five records, all from the demo generator, in
    ascending order of price. *)
Example fallback_to_demo :
  (fun r =>
     (match fst (fst r) with
      | inr flights =>
          map (fun x : Flight => (x !! "website", x !! "price_numeric")) flights
      | inl _ => []
      end,
      map fst (snd (fst r))))
    (@Agent.main _ (Repo.adapters false)
       (Sample.document "kayak" ["demo"] "2024-01-05" (Some 5) None)
       (Sample.quiet 7))
  = ([(Some (VStr "Demo Data"), Some (VNum (Fin 223)));
      (Some (VStr "Demo Data"), Some (VNum (Fin 306)));
      (Some (VStr "Demo Data"), Some (VNum (Fin 311)));
      (Some (VStr "Demo Data"), Some (VNum (Fin 447)));
      (Some (VStr "Demo Data"), Some (VNum (Fin 506)))],
     ["kayak"; "demo"]).
Proof. vm_compute. reflexivity. Qed.

(** * Further properties *)

(** ** Validation *)

(** X1. [validate_config] returns exactly on the configurations that have
    none of the errors it is written to refuse, whatever their other fields
    hold ([passengers], [class], [fallback] and the contents of the settings
    are not looked at); and an exception it raises is a [ValueError]. *)
Theorem validate_config_exact (c : Cfg.Config) :
  (Utils.validate_config c = ok tt <-> ~ ConfigSpec.config_error c)
  /\ (forall e, Utils.validate_config c = raise e -> exists msg, e = ValueError msg).
Proof.
  split; [split |].
  - intros Hok Herr. exact (validate_config_sound c Herr Hok).
  - intros Hnone. destruct (Utils.validate_config c) as [e | []] eqn:V;
      [| reflexivity].
    exfalso. apply Hnone. apply validate_config_complete. rewrite V. discriminate.
  - intros e. apply validate_config_raises.
Qed.

(** ** The factory *)

Section FactoryFacts.

Import Cfg.

Lemma lower_upper_char (c : ascii) :
  Text.lower_char (Text.upper_char c) = Text.lower_char c.
Proof. destruct c as [[] [] [] [] [] [] [] []]; vm_compute; reflexivity. Qed.

Lemma lower_upper (s : string) : Text.lower (Text.upper s) = Text.lower s.
Proof.
  induction s as [|c t IH]; [reflexivity |].
  cbn [Text.lower Text.upper Text.map_chars].
  rewrite lower_upper_char. f_equal. exact IH.
Qed.

Lemma SCRAPERS_never_demo (name : string) (sc : Scraper) :
  Scrapers.SCRAPERS name = Some sc -> sc <> DemoFlightScraper.
Proof.
  unfold Scrapers.SCRAPERS.
  repeat match goal with
    | |- context [String.eqb ?a ?b] => destruct (String.eqb a b)
    end; intros [= <-]; discriminate.
Qed.

Lemma supported_in_factory (p : string) :
  p ∈ Utils.supported_websites ->
  exists sc, Scrapers.SCRAPERS (Text.lower p) = Some sc.
Proof.
  unfold Utils.supported_websites. rewrite !elem_of_cons, elem_of_nil.
  intros [-> | [-> | [-> | []]]]; eexists; reflexivity.
Qed.

End FactoryFacts.

(** X2. For a configuration that passed validation, the factory has a
    scraper class for the primary site whether or not the browser toolkit
    is there, and never the demo scraper: with [timeout] and
    [retry_attempts] set it returns that scraper; without [timeout] its
    constructor raises [KeyError]. *)
Theorem validated_primary_has_scraper (document : Cfg.Config)
  (agent : Agent.FlightScannerAgent) (selenium_available : bool)
  (ws : Cfg.Websites) (settings : Cfg.SearchSettings) (p : string) :
  Agent.init document = ok agent ->
  Cfg.websites document = Some ws -> Cfg.primary ws = Some p ->
  Cfg.search_settings document = Some settings ->
  (forall t r,
      Cfg.timeout settings = Some t -> Cfg.retry_attempts settings = Some r ->
      exists sc,
        Scrapers.create_scraper selenium_available p document = ok sc
        /\ sc <> DemoFlightScraper)
  /\ (Cfg.timeout settings = None ->
      Scrapers.create_scraper selenium_available p document
      = raise (KeyError "timeout")).
Proof.
  intros Hinit Hws Hp Hss. destruct (init_ok _ _ Hinit) as [_ Hv].
  destruct (validate_config_ok _ Hv)
    as (fs & ws' & ss & bs & s & d & t & p' & _ & Hws' & _ & _ & _ & _ & _ & Hp' & Hin).
  rewrite Hws in Hws'. injection Hws' as <-.
  rewrite Hp in Hp'. injection Hp' as <-.
  destruct (supported_in_factory p Hin) as [sc Hsc].
  unfold Scrapers.create_scraper, Scrapers.base_init. rewrite Hsc, Hss. cbn.
  split.
  - intros t0 r Ht Hr. rewrite Ht, Hr. cbn. exists sc.
    split; [reflexivity | exact (SCRAPERS_never_demo _ _ Hsc)].
  - intros Ht. rewrite Ht. reflexivity.
Qed.

(** The theorem at work on the sample configuration. *)
Lemma validated_primary_witness :
  Agent.init (Sample.document "expedia" [] "2024-01-05" (Some 5) None)
  = ok {| Agent.config :=
            Sample.document "expedia" [] "2024-01-05" (Some 5) None |}
  /\ exists sc,
       Scrapers.create_scraper false "expedia"
         (Sample.document "expedia" [] "2024-01-05" (Some 5) None) = ok sc
       /\ sc <> DemoFlightScraper.
Proof.
  assert (Agent.init (Sample.document "expedia" [] "2024-01-05" (Some 5) None)
          = ok {| Agent.config :=
                    Sample.document "expedia" [] "2024-01-05" (Some 5) None |})
    as Hinit by (vm_compute; reflexivity).
  exact (conj Hinit
           (proj1 (validated_primary_has_scraper
                     (Sample.document "expedia" [] "2024-01-05" (Some 5) None)
                     _ false _ _ "expedia" Hinit eq_refl eq_refl eq_refl)
              30 3 eq_refl eq_refl)).
Defined.

(** X3. The factory does not tell upper from lower case: a site name and
    its upper-cased form get the same scraper.  Validation does: the
    upper-cased form of a supported site is refused as primary site, although
    the factory has a scraper for it. *)
Theorem create_scraper_case_insensitive (selenium_available : bool)
  (website : string) (config : Cfg.Config) :
  (forall sc,
      Scrapers.create_scraper selenium_available (Text.upper website) config = ok sc
      <-> Scrapers.create_scraper selenium_available website config = ok sc)
  /\ (website ∈ Utils.supported_websites ->
      (Text.upper website ∉ Utils.supported_websites)
      /\ Scrapers.SCRAPERS (Text.lower (Text.upper website)) <> None).
Proof.
  split.
  - intros sc. unfold Scrapers.create_scraper. rewrite lower_upper.
    destruct (Scrapers.SCRAPERS (Text.lower website)); [reflexivity |].
    destruct selenium_available; cbn; [| reflexivity].
    split; discriminate.
  - unfold Utils.supported_websites. rewrite !elem_of_cons, elem_of_nil.
    intros [-> | [-> | [-> | []]]];
      (split; [intros [H | [H | [H | H]]];
               [vm_compute in H; discriminate H ..
               | now apply elem_of_nil in H]
              | discriminate]).
Qed.

(** X4. The factory hands out the demo scraper exactly when the browser
    toolkit is absent and the site name, lower-cased, is none of its three
    keys; with the toolkit present it never does. *)
Theorem demo_only_without_selenium (selenium_available : bool)
  (website : string) (config : Cfg.Config) :
  Scrapers.create_scraper selenium_available website config = ok DemoFlightScraper
  <-> selenium_available = false
      /\ Scrapers.SCRAPERS (Text.lower website) = None.
Proof.
  unfold Scrapers.create_scraper.
  destruct (Scrapers.SCRAPERS (Text.lower website)) as [sc|] eqn:Hsc.
  - split; [| intros [_ H]; discriminate H].
    destruct (Scrapers.base_init config); cbn; [discriminate |].
    intros [= ->]. now destruct (SCRAPERS_never_demo _ _ Hsc).
  - destruct selenium_available; cbn.
    + split; [discriminate | intros [H _]; discriminate H].
    + split; auto.
Qed.

(** ** The aggregator: what comes back *)

Section PySortPermutation.

Context {A : Type}.

Lemma py_insert_perm (x : pyval * A) (l r : list (pyval * A)) :
  PyList.insert x l = ok r -> Permutation r (x :: l).
Proof.
  revert r. induction l as [|y l IH]; intros r; cbn.
  - now intros [= <-].
  - destruct (PyList.py_lt (fst y) (fst x)) as [e | []]; cbn; [discriminate | |].
    + destruct (PyList.insert x l) as [e | r']; cbn; [discriminate |].
      intros [= <-]. rewrite (IH r' eq_refl). apply perm_swap.
    + now intros [= <-].
Qed.

Lemma py_sort_pairs_perm (l s : list (pyval * A)) :
  PyList.sort_pairs l = ok s -> Permutation s l.
Proof.
  revert s. induction l as [|x l IH]; intros s; cbn.
  - now intros [= <-].
  - destruct (PyList.sort_pairs l) as [e | s']; cbn; [discriminate |].
    intros H. rewrite (py_insert_perm _ _ _ H). now rewrite (IH s' eq_refl).
Qed.

Lemma py_decorate_items (key : A -> result pyval) (l : list A) d :
  PyList.decorate key l = ok d -> map snd d = l.
Proof.
  revert d. induction l as [|x l IH]; intros d; cbn.
  - now intros [= <-].
  - destruct (key x) as [e | k]; cbn; [discriminate |].
    destruct (PyList.decorate key l) as [e | d']; cbn; [discriminate |].
    intros [= <-]. cbn. now rewrite (IH d' eq_refl).
Qed.

(** Whatever the keys, a sort that returns has rearranged its input. *)
Lemma py_sort_perm (key : A -> result pyval) (l s : list A) :
  PyList.sort key l = ok s -> Permutation s l.
Proof.
  unfold PyList.sort.
  destruct (PyList.decorate key l) as [e | d] eqn:D; cbn; [discriminate |].
  destruct (PyList.sort_pairs d) as [e | p] eqn:P; cbn; [discriminate |].
  intros [= <-]. rewrite <- (py_decorate_items _ _ _ D).
  apply Permutation_map. now apply py_sort_pairs_perm.
Qed.

End PySortPermutation.

Section ResultFacts.

Context {W : Type} `{!Adapters W}.
Import ChainSpec.

Lemma sort_flights_perm (sort_key : string) (l s : list Flight) :
  Agent.sort_flights sort_key l = ok s -> Permutation s l.
Proof.
  unfold Agent.sort_flights.
  repeat match goal with
    | |- context [String.eqb ?a ?b] => destruct (String.eqb a b)
    end; try apply py_sort_perm. now intros [= <-].
Qed.

Lemma sort_flights_singleton (sort_key : string) (x : Flight) :
  Agent.sort_flights sort_key [x] = ok [x].
Proof.
  unfold Agent.sort_flights.
  repeat match goal with
    | |- context [String.eqb ?a ?b] => destruct (String.eqb a b)
    end; reflexivity.
Qed.

Lemma slice_to_sublist {A} (l : list A) (n : Z) :
  PyList.slice_to l n `sublist_of` l.
Proof. unfold PyList.slice_to. destruct (0 <=? n); apply sublist_take. Qed.

Lemma slice_to_count {A} (l : list A) (n : Z) :
  Z.of_nat (length (PyList.slice_to l n))
  = if 0 <=? n then Z.min n (Z.of_nat (length l))
    else Z.max 0 (Z.of_nat (length l) + n).
Proof.
  unfold PyList.slice_to. destruct (Z.leb_spec 0 n); rewrite length_take; lia.
Qed.

(** What [search_flights] returns, when it returns: a slice of the sorted
    accepted records. *)
Lemma search_flights_result (document : Cfg.Config) agent sites (w w' : W)
  flights attempts :
  Agent.init document = ok agent ->
  Agent.websites_to_try document = ok sites ->
  Agent.search_flights agent w = (ok flights, attempts, w') ->
  exists accepted sorted,
    first_success document sites w attempts accepted w'
    /\ Permutation sorted accepted
    /\ flights = PyList.slice_to sorted (configured_max document).
Proof.
  intros Hinit Hsites Hsearch.
  pose proof (try_websites_first_success document sites w) as Hrun.
  rewrite (search_flights_unfold document agent _ w Hinit Hsites) in Hsearch.
  destruct (Agent.try_websites document sites w) as [[accepted att] w1].
  cbn [fst snd] in Hrun. destruct accepted as [|f fl].
  - injection Hsearch as <- <- <-. exists [], []. split; [exact Hrun |].
    split; [reflexivity |].
    unfold PyList.slice_to. destruct (0 <=? _); now rewrite take_nil.
  - rewrite (sort_and_limit_unfold _ _ _ Hinit) in Hsearch.
    destruct (Agent.sort_flights (configured_sort document) (f :: fl))
      as [e | sorted] eqn:S; cbn in Hsearch; [discriminate |].
    injection Hsearch as <- <- <-. exists (f :: fl), sorted.
    split; [exact Hrun |]. split; [| reflexivity].
    exact (sort_flights_perm _ _ _ S).
Qed.

(** Without [passengers] or [class] the arguments of the adapter call cannot
    be read. *)
Lemma query_of_missing (config : Cfg.Config) (fs : Cfg.FlightSearch) :
  Cfg.flight_search config = Some fs ->
  Cfg.passengers fs = None \/ Cfg.class fs = None ->
  exists key, Agent.query_of config = raise (KeyError key).
Proof.
  intros Hfs Hmiss. unfold Agent.query_of. rewrite Hfs. cbn.
  destruct (Cfg.source fs); cbn; [| eauto].
  destruct (Cfg.destination fs); cbn; [| eauto].
  destruct (Cfg.travel_date fs); cbn; [| eauto].
  destruct (Cfg.passengers fs); cbn; [| eauto].
  destruct Hmiss as [H | H]; [discriminate | rewrite H; cbn; eauto].
Qed.

Lemma try_websites_no_query (config : Cfg.Config) (key : string) :
  Agent.query_of config = raise (KeyError key) ->
  forall sites (w : W),
  exists attempts,
    Agent.try_websites config sites w = ([], attempts, w)
    /\ map fst attempts = sites
    /\ Forall (fun a => exists e, snd a = raise e) attempts.
Proof.
  intros Hq. induction sites as [|site rest IH]; intros w.
  - exists []. repeat split. constructor.
  - cbn [Agent.try_websites]. unfold Agent.attempt. rewrite Hq.
    destruct (IH w) as (attempts & Htry & Hm & Hall).
    destruct (Scrapers.create_scraper SELENIUM_AVAILABLE site config) as [e | sc];
      cbn; rewrite Htry.
    + exists ((site, inl e) :: attempts). cbn. rewrite Hm.
      repeat split. constructor; [now exists e | exact Hall].
    + exists ((site, inl (KeyError key)) :: attempts). cbn. rewrite Hm.
      repeat split. constructor; [now exists (KeyError key) | exact Hall].
Qed.

End ResultFacts.

(** X5. The aggregator invents nothing and merges nothing: every record
    [search_flights] returns is one of the records of the single accepted
    source, no more often than that source gave it. *)
Theorem search_returns_accepted_records {W : Type} `{!Adapters W}
  (document : Cfg.Config) (agent : Agent.FlightScannerAgent)
  (sites : list string) (w w' : W) (flights : list Flight)
  (attempts : list Agent.Attempt) :
  Agent.init document = ok agent ->
  Agent.websites_to_try document = ok sites ->
  Agent.search_flights agent w = (ok flights, attempts, w') ->
  exists accepted,
    ChainSpec.first_success document sites w attempts accepted w'
    /\ flights ⊆+ accepted.
Proof.
  intros Hinit Hsites Hsearch.
  destruct (search_flights_result _ _ _ _ _ _ _ Hinit Hsites Hsearch)
    as (accepted & sorted & Hrun & Hperm & ->).
  exists accepted. split; [exact Hrun |].
  transitivity sorted.
  - apply sublist_submseteq, slice_to_sublist.
  - now apply Permutation_submseteq.
Qed.

(** The theorem at work: three records found, two returned. *)
Lemma search_returns_accepted_witness :
  Agent.init (Sample.document "kayak" [] "2024-01-05" (Some 2) None)
  = ok {| Agent.config := Sample.document "kayak" [] "2024-01-05" (Some 2) None |}
  /\ @Agent.search_flights _ (Repo.adapters true)
       {| Agent.config := Sample.document "kayak" [] "2024-01-05" (Some 2) None |}
       Sample.three_found
     = (ok [Sample.flight (Fin 10) PosInf; Sample.flight (Fin 20) (Fin 60)],
        [("kayak",
          ok [Sample.flight (Fin 30) (Fin 90); Sample.flight (Fin 10) PosInf;
              Sample.flight (Fin 20) (Fin 60)])],
        {| Repo.rng := 1; Repo.browser := [] |})
  /\ exists accepted,
       @ChainSpec.first_success _ (Repo.adapters true)
         (Sample.document "kayak" [] "2024-01-05" (Some 2) None) ["kayak"]
         Sample.three_found
         [("kayak",
           ok [Sample.flight (Fin 30) (Fin 90); Sample.flight (Fin 10) PosInf;
               Sample.flight (Fin 20) (Fin 60)])]
         accepted {| Repo.rng := 1; Repo.browser := [] |}
       /\ [Sample.flight (Fin 10) PosInf; Sample.flight (Fin 20) (Fin 60)]
          ⊆+ accepted.
Proof.
  assert (Agent.init (Sample.document "kayak" [] "2024-01-05" (Some 2) None)
          = ok {| Agent.config :=
                    Sample.document "kayak" [] "2024-01-05" (Some 2) None |})
    as Hinit by (vm_compute; reflexivity).
  assert (@Agent.search_flights _ (Repo.adapters true)
            {| Agent.config :=
                 Sample.document "kayak" [] "2024-01-05" (Some 2) None |}
            Sample.three_found
          = (ok [Sample.flight (Fin 10) PosInf; Sample.flight (Fin 20) (Fin 60)],
             [("kayak",
               ok [Sample.flight (Fin 30) (Fin 90); Sample.flight (Fin 10) PosInf;
                   Sample.flight (Fin 20) (Fin 60)])],
             {| Repo.rng := 1; Repo.browser := [] |})) as Hsearch
    by (vm_compute; reflexivity).
  exact (conj Hinit (conj Hsearch
           (@search_returns_accepted_records _ (Repo.adapters true)
              (Sample.document "kayak" [] "2024-01-05" (Some 2) None)
              {| Agent.config :=
                   Sample.document "kayak" [] "2024-01-05" (Some 2) None |}
              ["kayak"] _ _ _ _ Hinit eq_refl Hsearch))).
Defined.

(** X6. How many records [search_flights] returns, for any [max_results]
    [m] and [n] accepted records: min(m, n) when [m] is not negative, and
    max(0, n + m) when it is, the slice [[:m]] then dropping the last [-m]
    records. *)
Theorem search_result_count {W : Type} `{!Adapters W}
  (document : Cfg.Config) (agent : Agent.FlightScannerAgent)
  (sites : list string) (w w' : W) (flights : list Flight)
  (attempts : list Agent.Attempt) :
  Agent.init document = ok agent ->
  Agent.websites_to_try document = ok sites ->
  Agent.search_flights agent w = (ok flights, attempts, w') ->
  exists accepted,
    ChainSpec.first_success document sites w attempts accepted w'
    /\ Z.of_nat (length flights)
       = if 0 <=? ChainSpec.configured_max document
         then Z.min (ChainSpec.configured_max document) (Z.of_nat (length accepted))
         else Z.max 0 (Z.of_nat (length accepted)
                       + ChainSpec.configured_max document).
Proof.
  intros Hinit Hsites Hsearch.
  destruct (search_flights_result _ _ _ _ _ _ _ Hinit Hsites Hsearch)
    as (accepted & sorted & Hrun & Hperm & ->).
  exists accepted. split; [exact Hrun |].
  rewrite slice_to_count. now rewrite (Permutation_length Hperm).
Qed.

(** The theorem at work: three records found and [max_results = -1]. *)
Lemma search_result_count_witness :
  Agent.init (Sample.document "kayak" [] "2024-01-05" (Some (-1)) None)
  = ok {| Agent.config :=
            Sample.document "kayak" [] "2024-01-05" (Some (-1)) None |}
  /\ exists accepted,
       @ChainSpec.first_success _ (Repo.adapters true)
         (Sample.document "kayak" [] "2024-01-05" (Some (-1)) None) ["kayak"]
         Sample.three_found
         [("kayak",
           ok [Sample.flight (Fin 30) (Fin 90); Sample.flight (Fin 10) PosInf;
               Sample.flight (Fin 20) (Fin 60)])]
         accepted {| Repo.rng := 1; Repo.browser := [] |}
       /\ Z.of_nat (length [Sample.flight (Fin 10) PosInf;
                            Sample.flight (Fin 20) (Fin 60)])
          = Z.max 0 (Z.of_nat (length accepted) + -1).
Proof.
  assert (Agent.init (Sample.document "kayak" [] "2024-01-05" (Some (-1)) None)
          = ok {| Agent.config :=
                    Sample.document "kayak" [] "2024-01-05" (Some (-1)) None |})
    as Hinit by (vm_compute; reflexivity).
  assert (@Agent.search_flights _ (Repo.adapters true)
            {| Agent.config :=
                 Sample.document "kayak" [] "2024-01-05" (Some (-1)) None |}
            Sample.three_found
          = (ok [Sample.flight (Fin 10) PosInf; Sample.flight (Fin 20) (Fin 60)],
             [("kayak",
               ok [Sample.flight (Fin 30) (Fin 90); Sample.flight (Fin 10) PosInf;
                   Sample.flight (Fin 20) (Fin 60)])],
             {| Repo.rng := 1; Repo.browser := [] |})) as Hsearch
    by (vm_compute; reflexivity).
  exact (conj Hinit
           (@search_result_count _ (Repo.adapters true)
              (Sample.document "kayak" [] "2024-01-05" (Some (-1)) None)
              {| Agent.config :=
                   Sample.document "kayak" [] "2024-01-05" (Some (-1)) None |}
              ["kayak"] Sample.three_found {| Repo.rng := 1; Repo.browser := [] |}
              [Sample.flight (Fin 10) PosInf; Sample.flight (Fin 20) (Fin 60)]
              [("kayak",
                ok [Sample.flight (Fin 30) (Fin 90); Sample.flight (Fin 10) PosInf;
                    Sample.flight (Fin 20) (Fin 60)])]
              Hinit eq_refl Hsearch)).
Defined.

(** X7. A configuration without [passengers] or without [class] passes
    validation, and then no adapter is ever called: every attempt raises
    inside the [try] block, the world is left as it was, and the search
    returns the empty list as if nothing had been found. *)
Theorem missing_trip_details_call_no_adapter {W : Type} `{!Adapters W}
  (document : Cfg.Config) (agent : Agent.FlightScannerAgent)
  (sites : list string) (fs : Cfg.FlightSearch) (w : W) :
  Agent.init document = ok agent ->
  Agent.websites_to_try document = ok sites ->
  Cfg.flight_search document = Some fs ->
  Cfg.passengers fs = None \/ Cfg.class fs = None ->
  exists attempts,
    Agent.search_flights agent w = (ok [], attempts, w)
    /\ map fst attempts = sites
    /\ Forall (fun a => exists e, snd a = raise e) attempts.
Proof.
  intros Hinit Hsites Hfs Hmiss.
  destruct (query_of_missing _ _ Hfs Hmiss) as [key Hq].
  destruct (try_websites_no_query document key Hq sites w)
    as (attempts & Htry & Hm & Hall).
  exists attempts. split; [| now split].
  rewrite (search_flights_unfold document agent _ w Hinit Hsites).
  now rewrite Htry.
Qed.

(** The theorem at work: no [passengers], two sites, a browser that would
    have found three records. *)
Lemma missing_trip_details_witness :
  Agent.init (Lacking.passengers "kayak" ["demo"])
  = ok {| Agent.config := Lacking.passengers "kayak" ["demo"] |}
  /\ exists attempts,
       @Agent.search_flights _ (Repo.adapters true)
         {| Agent.config := Lacking.passengers "kayak" ["demo"] |}
         Sample.three_found
       = (ok [], attempts, Sample.three_found)
       /\ map fst attempts = ["kayak"; "demo"]
       /\ Forall (fun a => exists e, snd a = raise e) attempts.
Proof.
  assert (Agent.init (Lacking.passengers "kayak" ["demo"])
          = ok {| Agent.config := Lacking.passengers "kayak" ["demo"] |})
    as Hinit by (vm_compute; reflexivity).
  exact (conj Hinit
           (@missing_trip_details_call_no_adapter _ (Repo.adapters true)
              (Lacking.passengers "kayak" ["demo"])
              {| Agent.config := Lacking.passengers "kayak" ["demo"] |}
              ["kayak"; "demo"] _ Sample.three_found
              Hinit eq_refl eq_refl (or_introl eq_refl))).
Defined.


(** X8. A configuration without [websites.fallback] passes validation, and
    the search then raises [KeyError] before it tries any site. *)
Theorem missing_fallback_raises {W : Type} `{!Adapters W}
  (document : Cfg.Config) (agent : Agent.FlightScannerAgent)
  (ws : Cfg.Websites) (w : W) :
  Agent.init document = ok agent ->
  Cfg.websites document = Some ws ->
  Cfg.fallback ws = None ->
  Agent.search_flights agent w = (raise (KeyError "fallback"), [], w).
Proof.
  intros Hinit Hws Hfb. destruct (init_ok _ _ Hinit) as [Hc Hv].
  destruct (validate_config_ok _ Hv)
    as (fs & ws' & ss & bs & s & d & t & p & Hfs & Hws' & _ & _ & Hs & Hd & Ht & Hp & _).
  rewrite Hws in Hws'. injection Hws' as <-.
  unfold Agent.search_flights, Agent.websites_to_try.
  rewrite Hc, Hfs. cbn. rewrite Hs, Hd, Ht. cbn.
  rewrite Hws. cbn. rewrite Hp. cbn. rewrite Hfb. reflexivity.
Qed.

(** The theorem at work. *)
Lemma missing_fallback_witness :
  Agent.init (Lacking.fallback "kayak")
  = ok {| Agent.config := Lacking.fallback "kayak" |}
  /\ @Agent.search_flights _ (Repo.adapters true)
       {| Agent.config := Lacking.fallback "kayak" |} Sample.three_found
     = (raise (KeyError "fallback"), [], Sample.three_found).
Proof.
  assert (Agent.init (Lacking.fallback "kayak")
          = ok {| Agent.config := Lacking.fallback "kayak" |})
    as Hinit by (vm_compute; reflexivity).
  exact (conj Hinit
           (@missing_fallback_raises _ (Repo.adapters true)
              (Lacking.fallback "kayak")
              {| Agent.config := Lacking.fallback "kayak" |}
              _ Sample.three_found Hinit eq_refl eq_refl)).
Defined.

(** X9. With [booking] as the primary site, and the settings its scraper
    reads present, the search is over after one attempt whatever the
    fallback list holds: the one sample record of [BookingScraper] is
    accepted, no other site is tried, the outside world is not touched, and
    the result is that record cut by [max_results]. *)
Theorem booking_primary_short_circuits {G : Type} `{!RandomGen G}
  (selenium_available : bool) (document : Cfg.Config)
  (agent : Agent.FlightScannerAgent) (ws : Cfg.Websites)
  (others : list string) (fs : Cfg.FlightSearch) (n : Z) (cls : string)
  (settings : Cfg.SearchSettings) (t r : Z) (w : Repo.World G) :
  Agent.init document = ok agent ->
  Cfg.websites document = Some ws ->
  Cfg.primary ws = Some "booking" ->
  Cfg.fallback ws = Some others ->
  Cfg.flight_search document = Some fs ->
  Cfg.passengers fs = Some n ->
  Cfg.class fs = Some cls ->
  Cfg.search_settings document = Some settings ->
  Cfg.timeout settings = Some t ->
  Cfg.retry_attempts settings = Some r ->
  @Agent.search_flights _ (Repo.adapters selenium_available) agent w
  = (ok (PyList.slice_to [Scrapers.booking_sample]
           (ChainSpec.configured_max document)),
     [("booking", ok [Scrapers.booking_sample])], w).
Proof.
  intros Hinit Hws Hp Hfb Hfs Hn Hcls Hss Ht Hr.
  assert (Agent.websites_to_try document = ok ("booking" :: others)) as Hsites.
  { unfold Agent.websites_to_try. rewrite Hws. cbn. rewrite Hp. cbn.
    now rewrite Hfb. }
  rewrite (@search_flights_unfold _ (Repo.adapters selenium_available)
             document agent _ w Hinit Hsites).
  destruct (init_ok _ _ Hinit) as [_ Hv].
  destruct (validate_config_ok _ Hv)
    as (fs' & _ & _ & _ & s & d & td & _ & Hfs' & _ & _ & _ & Hs & Hd & Htd & _).
  rewrite Hfs in Hfs'. injection Hfs' as <-.
  cbn [Agent.try_websites]. unfold Agent.attempt, Scrapers.create_scraper.
  change (Scrapers.SCRAPERS (Text.lower "booking")) with (Some BookingScraper).
  unfold Scrapers.base_init, Agent.query_of.
  rewrite Hss, Hfs. cbn. rewrite Ht, Hr, Hs, Hd, Htd, Hn, Hcls. cbn.
  rewrite (sort_and_limit_unfold _ _ _ Hinit).
  now rewrite sort_flights_singleton.
Qed.

(** The theorem at work: the fallback sites are never reached. *)
Lemma booking_primary_witness :
  Agent.init (Sample.document "booking" ["kayak"; "demo"] "2024-01-05" (Some 5) None)
  = ok {| Agent.config :=
            Sample.document "booking" ["kayak"; "demo"] "2024-01-05" (Some 5) None |}
  /\ @Agent.search_flights _ (Repo.adapters true)
       {| Agent.config :=
            Sample.document "booking" ["kayak"; "demo"] "2024-01-05" (Some 5) None |}
       Sample.three_found
     = (ok (PyList.slice_to [Scrapers.booking_sample]
              (ChainSpec.configured_max
                 (Sample.document "booking" ["kayak"; "demo"] "2024-01-05"
                    (Some 5) None))),
        [("booking", ok [Scrapers.booking_sample])], Sample.three_found).
Proof.
  assert (Agent.init (Sample.document "booking" ["kayak"; "demo"] "2024-01-05"
                        (Some 5) None)
          = ok {| Agent.config :=
                    Sample.document "booking" ["kayak"; "demo"] "2024-01-05"
                      (Some 5) None |})
    as Hinit by (vm_compute; reflexivity).
  exact (conj Hinit
           (@booking_primary_short_circuits _ _ true
              (Sample.document "booking" ["kayak"; "demo"] "2024-01-05"
                 (Some 5) None)
              {| Agent.config :=
                   Sample.document "booking" ["kayak"; "demo"] "2024-01-05"
                     (Some 5) None |}
              _ ["kayak"; "demo"] _ 1 "economy" _ 30 3 Sample.three_found
              Hinit eq_refl eq_refl eq_refl eq_refl eq_refl eq_refl eq_refl
              eq_refl eq_refl)).
Defined.

(** ** The field parsers: sign, padding, and reading a display text again *)

Section PaddingFacts.

Import Text TextSpec Re Parsers.

(** White space is outside every class the parsers look for. *)
Lemma space_not_price_char (c : ascii) :
  is_space c = true -> digit_or_comma c = false.
Proof.
  destruct c as [[] [] [] [] [] [] [] []]; vm_compute; congruence.
Qed.

Lemma space_not_digit (c : ascii) : is_space c = true -> is_digit c = false.
Proof.
  destruct c as [[] [] [] [] [] [] [] []]; vm_compute; congruence.
Qed.

Lemma remove_char_app (x : ascii) (a b : string) :
  remove_char x (a ++ b) = remove_char x a ++ remove_char x b.
Proof.
  induction a as [|c a IH]; [reflexivity |].
  rewrite append_cons. cbn [remove_char].
  destruct (Ascii.eqb c x); [exact IH | now rewrite append_cons, IH].
Qed.

Lemma remove_char_spaces (x : ascii) (s : string) :
  forallb_str is_space s = true ->
  forallb_str is_space (remove_char x s) = true.
Proof.
  induction s as [|c t IH]; [reflexivity |]. cbn [forallb_str remove_char].
  intros [Hc Ht]%andb_true_iff. destruct (Ascii.eqb c x); [auto |].
  cbn [forallb_str]. now rewrite Hc, IH.
Qed.

(** What [strip] takes away is white space, at the two ends. *)
Lemma lstrip_padding (s : string) :
  exists pre, s = pre ++ lstrip s /\ forallb_str is_space pre = true.
Proof.
  induction s as [|c t (pre & E & Hpre)]; [now exists "" |].
  cbn [lstrip]. destruct (is_space c) eqn:Hc.
  - exists (String c pre). rewrite append_cons, <- E. split; [reflexivity |].
    cbn [forallb_str]. now rewrite Hc.
  - now exists "".
Qed.

Lemma rstrip_padding (s : string) :
  exists post, s = rstrip s ++ post /\ forallb_str is_space post = true.
Proof.
  induction s as [|c t (post & E & Hpost)]; [now exists "" |].
  cbn [rstrip]. destruct (rstrip t) as [|d t'] eqn:R.
  - rewrite append_empty_l in E. subst post.
    destruct (is_space c) eqn:Hc.
    + exists (String c t). split; [reflexivity |].
      cbn [forallb_str]. now rewrite Hc.
    + now exists t.
  - exists post. rewrite !append_cons. rewrite append_cons in E.
    now rewrite <- E.
Qed.

Lemma strip_padding (s : string) :
  exists pre post,
    s = pre ++ strip s ++ post
    /\ forallb_str is_space pre = true /\ forallb_str is_space post = true.
Proof.
  destruct (lstrip_padding s) as (pre & E1 & Hpre).
  destruct (rstrip_padding (lstrip s)) as (post & E2 & Hpost).
  exists pre, post. unfold strip. now rewrite <- E2, <- E1.
Qed.

(** Padding does not change what [findall] yields. *)
Lemma findall_runs_padding_l (cls : ascii -> bool) (pre s : string) :
  (forall c, is_space c = true -> cls c = false) ->
  forallb_str is_space pre = true ->
  findall_runs cls [] (pre ++ s) = findall_runs cls [] s.
Proof.
  intros Hcls. induction pre as [|c t IH]; [reflexivity |].
  cbn [forallb_str]. intros [Hc Ht]%andb_true_iff.
  rewrite append_cons. cbn [findall_runs]. rewrite (Hcls c Hc). auto.
Qed.

Lemma findall_runs_spaces (cls : ascii -> bool) (post : string) :
  (forall c, is_space c = true -> cls c = false) ->
  forallb_str is_space post = true ->
  forall cur, findall_runs cls cur post = findall_runs cls cur "".
Proof.
  intros Hcls. induction post as [|c t IH]; [reflexivity |].
  cbn [forallb_str]. intros [Hc Ht]%andb_true_iff cur.
  cbn [findall_runs]. rewrite (Hcls c Hc).
  destruct cur; rewrite (IH Ht); reflexivity.
Qed.

Lemma findall_runs_padding_r (cls : ascii -> bool) (s post : string) :
  (forall c, is_space c = true -> cls c = false) ->
  forallb_str is_space post = true ->
  forall cur, findall_runs cls cur (s ++ post) = findall_runs cls cur s.
Proof.
  intros Hcls Hpost. induction s as [|c t IH]; intros cur.
  - rewrite append_empty_l. now apply findall_runs_spaces.
  - rewrite append_cons. cbn [findall_runs].
    destruct (cls c); [apply IH |]. destruct cur; now rewrite IH.
Qed.

Lemma findall_num_then_padding_l (x : ascii) (pre s : string) :
  forallb_str is_space pre = true ->
  findall_num_then x [] (pre ++ s) = findall_num_then x [] s.
Proof.
  induction pre as [|c t IH]; [reflexivity |].
  cbn [forallb_str]. intros [Hc Ht]%andb_true_iff.
  rewrite append_cons. cbn [findall_num_then].
  rewrite (space_not_digit c Hc). auto.
Qed.

Lemma findall_num_then_spaces (x : ascii) (post : string) :
  is_space x = false ->
  forallb_str is_space post = true ->
  forall cur, findall_num_then x cur post = [].
Proof.
  intros Hx. induction post as [|c t IH]; [reflexivity |].
  cbn [forallb_str]. intros [Hc Ht]%andb_true_iff cur.
  cbn [findall_num_then]. rewrite (space_not_digit c Hc).
  destruct cur; [now apply IH |].
  destruct (Ascii.eqb_spec c x) as [-> |]; [congruence | now apply IH].
Qed.

Lemma findall_num_then_padding_r (x : ascii) (s post : string) :
  is_space x = false ->
  forallb_str is_space post = true ->
  forall cur, findall_num_then x cur (s ++ post) = findall_num_then x cur s.
Proof.
  intros Hx Hpost. induction s as [|c t IH]; intros cur.
  - rewrite append_empty_l. now apply findall_num_then_spaces.
  - rewrite append_cons. cbn [findall_num_then].
    destruct (is_digit c); [apply IH |].
    destruct cur; [apply IH |]. destruct (Ascii.eqb c x); now rewrite IH.
Qed.

(** The number [_parse_price] returns depends on the text through
    [findall] alone, the empty text included. *)
Lemma parse_price_number (s : string) :
  snd (_parse_price s)
  = match findall_runs digit_or_comma [] (remove_char "," s) with
    | first :: _ => Number.float_of_digits first
    | [] => PosInf
    end.
Proof.
  unfold _parse_price. destruct s as [|c t]; [reflexivity |].
  cbn [truthy negb]. now destruct (findall_runs _ _ _).
Qed.

Lemma findall_price_strip (s : string) :
  findall_runs digit_or_comma [] (remove_char "," (strip s))
  = findall_runs digit_or_comma [] (remove_char "," s).
Proof.
  destruct (strip_padding s) as (pre & post & E & Hpre & Hpost).
  generalize dependent (strip s). intros m ->.
  rewrite !remove_char_app.
  rewrite findall_runs_padding_l
    by (try apply remove_char_spaces; auto using space_not_price_char).
  rewrite findall_runs_padding_r
    by (try apply remove_char_spaces; auto using space_not_price_char).
  reflexivity.
Qed.

(** [_parse_duration] depends on the text through [findall] and [strip]
    alone, the empty text included. *)
Lemma parse_duration_by_runs (s : string) :
  _parse_duration s
  = let* hours :=
      match findall_num_then "h" [] s with
      | h :: _ => let* n := int h in ok (0 + n * 60)
      | [] => ok 0
      end in
    let* total :=
      match findall_num_then "m" [] s with
      | m :: _ => let* n := int m in ok (hours + n)
      | [] => ok hours
      end in
    ok (if negb (truthy s) then "N/A" else strip s,
        if 0 <? total then Fin total else PosInf).
Proof. unfold _parse_duration. destruct s as [|c t]; reflexivity. Qed.

(** A duration that is returned and finite is positive. *)
Lemma parse_duration_positive (duration_text display : string) (z : Z) :
  _parse_duration duration_text = ok (display, Fin z) -> 0 < z.
Proof.
  rewrite parse_duration_by_runs.
  destruct (match findall_num_then "h" [] duration_text with
            | [] => _ | _ => _ end) as [e | hours]; [discriminate |].
  cbn [bind].
  destruct (match findall_num_then "m" [] duration_text with
            | [] => _ | _ => _ end) as [e | total]; [discriminate |].
  cbn [bind]. unfold ok. intros [= _ H].
  destruct (Z.ltb_spec 0 total); [| discriminate]. injection H as <-. lia.
Qed.

Lemma findall_num_then_strip (x : ascii) (s : string) :
  is_space x = false ->
  findall_num_then x [] (strip s) = findall_num_then x [] s.
Proof.
  intros Hx. destruct (strip_padding s) as (pre & post & E & Hpre & Hpost).
  generalize dependent (strip s). intros m ->.
  rewrite findall_num_then_padding_l by assumption.
  now rewrite findall_num_then_padding_r by assumption.
Qed.

Lemma int_of_digits_from_nonneg (s : string) :
  forallb_str is_digit s = true ->
  forall acc, 0 <= acc -> 0 <= int_of_digits_from acc s.
Proof.
  induction s as [|c t IH]; intros Hd acc Hacc; [exact Hacc |].
  cbn [forallb_str] in Hd. apply andb_true_iff in Hd as [Hc Ht].
  cbn [int_of_digits_from]. apply IH; [exact Ht |].
  unfold is_digit in Hc. unfold digit_val. lia.
Qed.

Lemma float_of_Z_nonneg (n z : Z) :
  0 <= n -> Number.float_of_Z n = Fin z -> 0 <= z.
Proof.
  intros Hn. unfold Number.float_of_Z.
  destruct (Z.log2 n + 1 <=? 53); [now intros [= <-] |].
  set (e := Z.log2 n + 1 - 53).
  set (q := Z.shiftr n e).
  assert (0 <= q) as Hq by (now apply Z.shiftr_nonneg).
  match goal with
  | |- (if _ <=? Z.shiftl ?q' e then _ else _) = _ -> _ =>
      assert (0 <= q') as Hq' by (destruct (_ || _); lia);
      destruct (_ <=? Z.shiftl q' e); [discriminate |];
      intros [= <-]; now apply Z.shiftl_nonneg
  end.
Qed.

End PaddingFacts.

(** Whatever the text, the digits [_parse_price] converts are digits of a
    number that is not negative. *)
Lemma parse_price_nonneg (price_text : string) (z : Z) :
  snd (Parsers._parse_price price_text) = Fin z -> 0 <= z.
Proof.
  rewrite parse_price_number.
  rewrite findall_runs_no_comma by apply remove_char_gone.
  rewrite findall_runs_first.
  destruct (TextSpec.drop_while _ _) as [|c rest]; [discriminate |].
  unfold Number.float_of_digits. apply float_of_Z_nonneg.
  apply int_of_digits_from_nonneg; [apply take_while_all | lia].
Qed.

(** X10. The numbers the field parsers return are never negative, and a
    duration is never zero: each is +inf or a whole number, at least 0 for
    a price and at least 1 for a duration, whatever the text holds, a minus
    sign before the digits included. *)
Theorem parsed_numbers_never_negative (text : string) (z : Z) :
  (snd (Parsers._parse_price text) = Fin z -> 0 <= z)
  /\ (forall display,
        Parsers._parse_duration text = ok (display, Fin z) -> 0 < z).
Proof.
  split; [apply parse_price_nonneg |].
  intros display. apply parse_duration_positive.
Qed.

(** The two halves at work: a price with a minus sign, a duration of no
    minutes. *)
Example parsed_numbers_signs :
  Parsers._parse_price "-$1,250" = ("-$1,250", Fin 1250)
  /\ Parsers._parse_duration "0h 0m" = ok ("0h 0m", PosInf).
Proof. split; reflexivity. Qed.

(** X11. The display text a parser returns carries the number it returns:
    parsing the display text again gives the same number, for prices and
    for durations, the placeholder 'N/A' of the empty text included; a
    duration text that was parsed without raising is parsed again without
    raising. *)
Theorem parsed_display_reparses (text : string) :
  snd (Parsers._parse_price (fst (Parsers._parse_price text)))
  = snd (Parsers._parse_price text)
  /\ (forall display minutes,
        Parsers._parse_duration text = ok (display, minutes) ->
        exists display',
          Parsers._parse_duration display = ok (display', minutes)).
Proof.
  split.
  - destruct text as [|c t]; [reflexivity |].
    assert (fst (Parsers._parse_price (String c t)) = Text.strip (String c t))
      as ->.
    { unfold Parsers._parse_price. cbn [Text.truthy negb].
      now destruct (Re.findall_runs _ _ _). }
    rewrite !parse_price_number. now rewrite findall_price_strip.
  - intros display minutes.
    assert (forall x, Text.is_space x = false ->
              Re.findall_num_then x []
                (if negb (Text.truthy text) then "N/A" else Text.strip text)
              = Re.findall_num_then x [] text) as Hruns.
    { intros x Hx. destruct text as [|c t]; [reflexivity |].
      cbn [Text.truthy negb]. now apply findall_num_then_strip. }
    rewrite (parse_duration_by_runs text).
    destruct (match Re.findall_num_then "h" [] text with
              | [] => _ | _ => _ end) as [e | hours] eqn:Hh; [discriminate |].
    cbn [bind].
    destruct (match Re.findall_num_then "m" [] text with
              | [] => _ | _ => _ end) as [e | total] eqn:Hm; [discriminate |].
    cbn [bind]. unfold ok at 1 2. intros [= <- <-].
    rewrite parse_duration_by_runs, !Hruns by reflexivity.
    rewrite Hh. cbn [bind]. rewrite Hm. cbn [bind]. eauto.
Qed.

(** ** Sorting what is already sorted *)

Section SortedFacts.

Context {A K : Type} (lt : K -> K -> bool) (key : A -> K).

Lemma stable_sort_of_sorted (l : list A) :
  StronglySorted (StableSort.in_order lt key) l -> StableSort.sort lt key l = l.
Proof.
  induction 1 as [|x l Hs IH Hx]; [reflexivity |].
  cbn [StableSort.sort]. rewrite IH. destruct l as [|y l']; [reflexivity |].
  cbn [StableSort.insert]. apply List.Forall_inv in Hx.
  unfold StableSort.in_order in Hx. now rewrite Hx.
Qed.

End SortedFacts.

Section SortAgainFacts.

Import RecordSpec.

Lemma sort_flights_by_price (l : list Flight) :
  Forall numeric_fields l ->
  Agent.sort_flights "price" l
  = ok (StableSort.sort Number.ltb (fun x => num_of (Agent.price_key x)) l).
Proof.
  intros Hnum. unfold Agent.sort_flights. cbn [String.eqb Ascii.eqb Bool.eqb].
  apply (py_sort_pure is_number num_of Number.ltb compare_numbers _
           Agent.price_key).
  - apply Forall_forall. intros x _. reflexivity.
  - eapply Forall_impl; [exact Hnum | apply numeric_fields_price].
Qed.

Lemma sort_flights_by_duration (l : list Flight) :
  Forall numeric_fields l ->
  Agent.sort_flights "duration" l
  = ok (StableSort.sort Number.ltb (fun x => num_of (Agent.duration_key x)) l).
Proof.
  intros Hnum. unfold Agent.sort_flights. cbn [String.eqb Ascii.eqb Bool.eqb].
  apply (py_sort_pure is_number num_of Number.ltb compare_numbers _
           Agent.duration_key).
  - apply Forall_forall. intros x _. reflexivity.
  - eapply Forall_impl; [exact Hnum | apply numeric_fields_duration].
Qed.

Lemma sort_flights_by_departure (l : list Flight) :
  Forall textual_departure l ->
  Agent.sort_flights "departure_time" l
  = ok (StableSort.sort Text.ltb (fun x => text_of (Agent.departure_key x)) l).
Proof.
  intros Htext. unfold Agent.sort_flights. cbn [String.eqb Ascii.eqb Bool.eqb].
  apply (py_sort_pure is_text text_of Text.ltb compare_texts _
           Agent.departure_key).
  - apply Forall_forall. intros x _. reflexivity.
  - eapply Forall_impl; [exact Htext | apply textual_departure_key].
Qed.

Lemma sort_flights_unknown (sort_key : string) (l : list Flight) :
  sort_key ∉ ["price"; "duration"; "departure_time"] ->
  Agent.sort_flights sort_key l = ok l.
Proof.
  intros Hout. unfold Agent.sort_flights.
  destruct (String.eqb_spec sort_key "price") as [-> | _];
    [exfalso; apply Hout; set_solver |].
  destruct (String.eqb_spec sort_key "duration") as [-> | _];
    [exfalso; apply Hout; set_solver |].
  destruct (String.eqb_spec sort_key "departure_time") as [-> | _];
    [exfalso; apply Hout; set_solver |].
  reflexivity.
Qed.

End SortAgainFacts.

(** X12. Sorting is idempotent on well-typed records: what the sort step
    of the aggregator returns, it returns unchanged when it is applied
    again with the same key, whatever the key. *)
Theorem sort_flights_idempotent (sort_key : string)
  (all_flights sorted : list Flight) :
  Forall RecordSpec.well_typed all_flights ->
  Agent.sort_flights sort_key all_flights = ok sorted ->
  Agent.sort_flights sort_key sorted = ok sorted.
Proof.
  intros Hwt Hsort.
  assert (Forall RecordSpec.well_typed sorted) as Hwt'.
  { eapply Permutation_Forall; [| exact Hwt].
    symmetry. exact (sort_flights_perm _ _ _ Hsort). }
  assert (forall l, Forall RecordSpec.well_typed l ->
                    Forall RecordSpec.numeric_fields l) as Hnum.
  { intros l H. eapply Forall_impl; [exact H | now intros x [? _]]. }
  assert (forall l, Forall RecordSpec.well_typed l ->
                    Forall RecordSpec.textual_departure l) as Htext.
  { intros l H. eapply Forall_impl; [exact H | now intros x [_ ?]]. }
  destruct (decide (sort_key ∈ ["price"; "duration"; "departure_time"]))
    as [Hin | Hout]; [| now apply sort_flights_unknown].
  rewrite !elem_of_cons in Hin.
  destruct Hin as [-> | [-> | [-> | Hnil]]]; [| | | now apply elem_of_nil in Hnil].
  - rewrite sort_flights_by_price in Hsort by auto.
    rewrite sort_flights_by_price by auto.
    unfold ok in Hsort. injection Hsort as <-. f_equal.
    apply stable_sort_of_sorted.
    exact (stable_sort_sorted _ _ number_ltb_irrefl number_ltb_trans
             number_ltb_cotrans _).
  - rewrite sort_flights_by_duration in Hsort by auto.
    rewrite sort_flights_by_duration by auto.
    unfold ok in Hsort. injection Hsort as <-. f_equal.
    apply stable_sort_of_sorted.
    exact (stable_sort_sorted _ _ number_ltb_irrefl number_ltb_trans
             number_ltb_cotrans _).
  - rewrite sort_flights_by_departure in Hsort by auto.
    rewrite sort_flights_by_departure by auto.
    unfold ok in Hsort. injection Hsort as <-. f_equal.
    apply stable_sort_of_sorted.
    exact (stable_sort_sorted _ _ text_ltb_irrefl text_ltb_trans
             text_ltb_cotrans _).
Qed.

(** The theorem at work: the sample with sentinels and a record without
    fields, by duration. *)
Lemma sort_flights_idempotent_witness :
  Forall RecordSpec.well_typed Sample.mixed
  /\ Agent.sort_flights "duration" Sample.mixed
     = ok [Sample.flight (Fin 30) (Fin 5); Sample.flight PosInf (Fin 100);
           Sample.flight (Fin 30) PosInf; ∅]
  /\ Agent.sort_flights "duration"
       [Sample.flight (Fin 30) (Fin 5); Sample.flight PosInf (Fin 100);
        Sample.flight (Fin 30) PosInf; ∅]
     = ok [Sample.flight (Fin 30) (Fin 5); Sample.flight PosInf (Fin 100);
           Sample.flight (Fin 30) PosInf; ∅].
Proof.
  assert (Forall RecordSpec.well_typed Sample.mixed) as Hwt.
  { repeat apply List.Forall_cons; try apply List.Forall_nil;
      (split; [split |]); intros v Hv; vm_compute in Hv;
      try discriminate; injection Hv as <-; eexists; reflexivity. }
  assert (Agent.sort_flights "duration" Sample.mixed
          = ok [Sample.flight (Fin 30) (Fin 5); Sample.flight PosInf (Fin 100);
                Sample.flight (Fin 30) PosInf; ∅]) as Hsort
    by (vm_compute; reflexivity).
  exact (conj Hwt (conj Hsort
           (sort_flights_idempotent "duration" Sample.mixed _ Hwt Hsort))).
Defined.

(** ** Numbers written out and read back *)

Section PrettyFacts.

Import Text TextSpec Re Parsers.

Lemma forallb_str_app (p : ascii -> bool) (a b : string) :
  forallb_str p (a ++ b) = forallb_str p a && forallb_str p b.
Proof.
  induction a as [|c a IH]; [reflexivity |].
  rewrite append_cons. cbn [forallb_str]. now rewrite IH, andb_assoc.
Qed.

Lemma int_of_digits_from_app (a b : string) (acc : Z) :
  int_of_digits_from acc (a ++ b) = int_of_digits_from (int_of_digits_from acc a) b.
Proof.
  revert acc. induction a as [|c a IH]; intros acc; [reflexivity |].
  rewrite append_cons. cbn [int_of_digits_from]. apply IH.
Qed.

Lemma pretty_N_char_digit (k : N) : is_digit (pretty_N_char k) = true.
Proof. unfold pretty_N_char. repeat case_match; reflexivity. Qed.

Lemma pretty_N_char_val (k : N) :
  (k < 10)%N -> digit_val (pretty_N_char k) = Z.of_N k.
Proof.
  intros Hk.
  assert (k = 0 \/ k = 1 \/ k = 2 \/ k = 3 \/ k = 4 \/ k = 5 \/ k = 6
          \/ k = 7 \/ k = 8 \/ k = 9)%N as Hcases by lia.
  destruct Hcases as [-> | [-> | [-> | [-> | [-> | [-> | [-> | [-> | [-> | ->]]]]]]]]];
    reflexivity.
Qed.

Lemma string_length_app (a b : string) :
  String.length (a ++ b) = (String.length a + String.length b)%nat.
Proof.
  induction a as [|c a IH]; [reflexivity |].
  rewrite append_cons. cbn [String.length]. now rewrite IH.
Qed.

(** The digits [pretty] writes in front of what it was given: no more of
    them than the number is large. *)
Lemma pretty_N_go_digits (x : N) :
  forall s, exists d,
    pretty_N_go x s = d ++ s
    /\ forallb_str is_digit d = true
    /\ int_of_digits d = Z.of_N x
    /\ ((0 < x)%N -> d <> "")
    /\ (String.length d <= N.to_nat x)%nat.
Proof.
  induction (N.lt_wf_0 x) as [x _ IH]. intros s.
  destruct (N.eq_dec x 0%N) as [-> | Hx].
  - exists "". rewrite pretty_N_go_0. repeat split; [lia | reflexivity].
  - rewrite pretty_N_go_step by lia.
    destruct (IH (x `div` 10)%N ltac:(apply N.div_lt; lia)
                (String (pretty_N_char (x `mod` 10)) s))
      as (d & E & Hd & Hv & _ & Hlen).
    exists (d ++ String (pretty_N_char (x `mod` 10)) "").
    split; [| split; [| split; [| split]]].
    + now rewrite E, append_assoc, append_cons, append_empty_l.
    + rewrite forallb_str_app, Hd. cbn [forallb_str].
      now rewrite pretty_N_char_digit.
    + unfold int_of_digits in *. rewrite int_of_digits_from_app, Hv.
      cbn [int_of_digits_from].
      rewrite pretty_N_char_val by (apply N.mod_lt; lia).
      pose proof (N.div_mod x 10 ltac:(lia)). lia.
    + intros _. destruct d; discriminate.
    + rewrite string_length_app. cbn [String.length].
      assert (x `div` 10 < x)%N as Hlt by (apply N.div_lt; lia).
      revert Hlen Hlt. generalize (x `div` 10)%N. intros q Hlen Hlt. lia.
Qed.

(** A number that is not negative is written as its decimal digits. *)
Lemma pretty_Z_digits (z : Z) :
  0 <= z ->
  exists c d,
    pretty z = String c d
    /\ forallb_str is_digit (String c d) = true
    /\ int_of_digits (String c d) = z
    /\ (String.length (String c d) <= Z.to_nat (Z.max 1 z))%nat.
Proof.
  intros Hz. destruct z as [|p|p]; [| | lia].
  - exists "0"%char, "". repeat split. cbn. lia.
  - destruct (pretty_N_go_digits (N.pos p) "") as (d & E & Hd & Hv & Hne & Hlen).
    rewrite append_empty_r in E.
    destruct d as [|c d]; [now destruct Hne |].
    exists c, d. split; [exact E |]. split; [exact Hd |]. split; [exact Hv |].
    lia.
Qed.

(** A negative number is written as a minus sign and the digits of its
    absolute value. *)
Lemma pretty_Z_negative (z : Z) :
  z < 0 -> pretty z = String "-" (pretty (- z)).
Proof. destruct z as [|p|p]; [lia | lia |]. reflexivity. Qed.

Lemma digit_not_space (c : ascii) : is_digit c = true -> is_space c = false.
Proof.
  intros Hd. destruct (is_space c) eqn:Hs; [| reflexivity].
  rewrite (space_not_digit c Hs) in Hd. discriminate.
Qed.

Lemma digit_not_comma (c : ascii) :
  is_digit c = true -> Ascii.eqb c "," = false.
Proof.
  destruct c as [[] [] [] [] [] [] [] []]; vm_compute; congruence.
Qed.

Lemma take_while_id (p : ascii -> bool) (s : string) :
  forallb_str p s = true -> take_while p s = s.
Proof.
  induction s as [|c t IH]; [reflexivity |]. cbn [forallb_str take_while].
  intros [-> Ht]%andb_true_iff. now rewrite IH.
Qed.

Lemma drop_while_all (p : ascii -> bool) (s : string) :
  forallb_str p s = true -> drop_while p s = "".
Proof.
  induction s as [|c t IH]; [reflexivity |]. cbn [forallb_str drop_while].
  intros [-> Ht]%andb_true_iff. now apply IH.
Qed.

Lemma take_while_run (p : ascii -> bool) (d : string) (y : ascii) (rest : string) :
  forallb_str p d = true -> p y = false ->
  take_while p (d ++ String y rest) = d
  /\ drop_while p (d ++ String y rest) = String y rest.
Proof.
  intros Hd Hy. induction d as [|c d IH].
  - rewrite append_empty_l. cbn [take_while drop_while]. now rewrite Hy.
  - cbn [forallb_str] in Hd. apply andb_true_iff in Hd as [Hc Hd].
    rewrite append_cons. cbn [take_while drop_while]. rewrite Hc.
    destruct (IH Hd) as [-> ->]. now split.
Qed.

(** A number followed by a character: the scanner of [(\d+)x] yields the
    number when the character is [x], and goes on after it otherwise. *)
Lemma findall_num_then_number (x : ascii) (c : ascii) (d : string)
  (y : ascii) (rest : string) :
  forallb_str is_digit (String c d) = true -> is_digit y = false ->
  head (findall_num_then x [] (String c d ++ String y rest))
  = if Ascii.eqb y x then Some (String c d)
    else head (findall_num_then x [] rest).
Proof.
  intros Hd Hy. cbn [forallb_str] in Hd. apply andb_true_iff in Hd as [Hc Hd].
  rewrite append_cons. cbn [findall_num_then]. rewrite Hc.
  rewrite findall_num_then_acc by discriminate.
  destruct (take_while_run is_digit d y rest Hd Hy) as [-> ->].
  cbn [starts_with]. destruct (Ascii.eqb y x); [reflexivity |].
  cbn [findall_num_then]. now rewrite Hy.
Qed.

Lemma rstrip_app_end (a b : string) :
  b <> "" -> rstrip b = b -> rstrip (a ++ b) = a ++ b.
Proof.
  intros Hne Hb. induction a as [|c a IH]; [exact Hb |].
  rewrite append_cons. cbn [rstrip]. rewrite IH.
  destruct (a ++ b) as [|e t] eqn:E; [| reflexivity].
  destruct a; [now rewrite append_empty_l in E | discriminate].
Qed.

Lemma rstrip_no_space (s : string) :
  existsb_str is_space s = false -> rstrip s = s.
Proof.
  induction s as [|c t IH]; [reflexivity |]. cbn [existsb_str rstrip].
  intros [Hc Ht]%orb_false_iff. rewrite (IH Ht), Hc. now destruct t.
Qed.

Lemma remove_char_absent (x : ascii) (s : string) :
  existsb_str (fun c => Ascii.eqb c x) s = false -> remove_char x s = s.
Proof.
  induction s as [|c t IH]; [reflexivity |]. cbn [existsb_str remove_char].
  intros [-> Ht]%orb_false_iff. now rewrite IH.
Qed.

Lemma digits_no_space (d : string) :
  forallb_str is_digit d = true -> existsb_str is_space d = false.
Proof.
  induction d as [|c d IH]; [reflexivity |]. cbn [forallb_str existsb_str].
  intros [Hc Hd]%andb_true_iff. now rewrite (digit_not_space c Hc), IH.
Qed.

Lemma digits_no_comma (d : string) :
  forallb_str is_digit d = true ->
  existsb_str (fun c => Ascii.eqb c ",") d = false.
Proof.
  induction d as [|c d IH]; [reflexivity |]. cbn [forallb_str existsb_str].
  intros [Hc Hd]%andb_true_iff. now rewrite (digit_not_comma c Hc), IH.
Qed.

(** The duration text the generator writes, read by [_parse_duration]:
    numbers this small are far below the cap of [int]. *)
Lemma parse_duration_written (h m : Z) :
  0 <= h <= 4300 -> 0 <= m <= 4300 -> 0 < 60 * h + m ->
  _parse_duration (pretty h ++ "h " ++ pretty m ++ "m")
  = ok (pretty h ++ "h " ++ pretty m ++ "m", Fin (60 * h + m)).
Proof.
  intros Hh Hm Hpos.
  destruct (pretty_Z_digits h ltac:(lia)) as (c & d & -> & Hd & Hv & Hlen).
  destruct (pretty_Z_digits m ltac:(lia)) as (c' & d' & -> & Hd' & Hv' & Hlen').
  assert (head (findall_num_then "h" []
                  (String c d ++ "h " ++ String c' d' ++ "m"))
          = Some (String c d)) as Hhours.
  { rewrite (append_cons "h" " ").
    now rewrite findall_num_then_number. }
  assert (head (findall_num_then "m" []
                  (String c d ++ "h " ++ String c' d' ++ "m"))
          = Some (String c' d')) as Hminutes.
  { rewrite (append_cons "h" " ").
    rewrite findall_num_then_number by (assumption || reflexivity).
    cbn [Ascii.eqb Bool.eqb]. rewrite append_cons, append_empty_l.
    cbn [findall_num_then is_digit]. change (is_digit " ") with false. cbn iota.
    now rewrite findall_num_then_number. }
  unfold _parse_duration. rewrite append_cons. cbn [truthy negb].
  rewrite <- append_cons.
  destruct (findall_num_then "h" [] _) as [|hh ?]; [discriminate |].
  destruct (findall_num_then "m" [] _) as [|mm ?]; [discriminate |].
  cbn [head] in Hhours, Hminutes.
  injection Hhours as ->. injection Hminutes as ->.
  rewrite !int_within_cap by (unfold int_max_str_digits; lia).
  cbn [bind ok]. rewrite Hv, Hv'.
  replace (0 + h * 60 + m) with (60 * h + m) by lia.
  destruct (Z.ltb_spec 0 (60 * h + m)); [| lia]. unfold ok. do 2 f_equal.
  unfold strip. rewrite append_cons. cbn [lstrip].
  cbn [forallb_str] in Hd. apply andb_true_iff in Hd as [Hc _].
  rewrite (digit_not_space c Hc). rewrite <- append_cons.
  rewrite <- !append_assoc. now apply rstrip_app_end.
Qed.

(** The price text the generator writes, read by [_parse_price]: the sign
    is lost. *)
Lemma parse_price_written (z : Z) :
  Z.abs z < 2 ^ 53 ->
  _parse_price ("$" ++ pretty z) = ("$" ++ pretty z, Fin (Z.abs z)).
Proof.
  intros Hz.
  assert (exists sign c d,
            pretty z = sign ++ String c d
            /\ (sign = "" \/ sign = "-")
            /\ forallb_str is_digit (String c d) = true
            /\ int_of_digits (String c d) = Z.abs z) as (sign & c & d & -> & Hs & Hd & Hv).
  { destruct (Z.lt_ge_cases z 0) as [Hneg | Hpos].
    - destruct (pretty_Z_digits (- z) ltac:(lia)) as (c & d & E & Hd & Hv & _).
      exists "-", c, d. rewrite pretty_Z_negative, E by lia.
      repeat split; auto. lia.
    - destruct (pretty_Z_digits z Hpos) as (c & d & E & Hd & Hv & _).
      exists "", c, d. rewrite E. repeat split; auto. lia. }
  assert (existsb_str is_space ("$" ++ sign ++ String c d) = false) as Hspace.
  { pose proof (digits_no_space _ Hd) as H.
    destruct Hs as [-> | ->]; rewrite !append_cons, !append_empty_l;
      cbn [existsb_str] in *; exact H. }
  assert (existsb_str (fun c => Ascii.eqb c ",") ("$" ++ sign ++ String c d) = false)
    as Hcomma.
  { pose proof (digits_no_comma _ Hd) as H.
    destruct Hs as [-> | ->]; rewrite !append_cons, !append_empty_l;
      cbn [existsb_str] in *; exact H. }
  assert (findall_runs is_digit [] ("$" ++ sign ++ String c d)
          = [String c d]) as Hruns.
  { assert (findall_runs is_digit [] (String c d) = [String c d]) as H.
    { rewrite findall_runs_first. cbn [forallb_str] in Hd.
      apply andb_true_iff in Hd as [Hc Hd]. cbn [drop_while]. rewrite Hc.
      cbn [negb take_while drop_while]. rewrite Hc, (take_while_id _ _ Hd).
      f_equal.
      now rewrite (drop_while_all _ _ Hd). }
    destruct Hs as [-> | ->]; rewrite !append_cons, !append_empty_l;
      cbn [findall_runs]; exact H. }
  unfold _parse_price. rewrite append_cons at 1. cbn [truthy negb].
  rewrite (remove_char_absent _ _ Hcomma).
  rewrite findall_runs_no_comma by exact Hcomma. rewrite Hruns.
  unfold Number.float_of_digits. rewrite Hv, float_of_Z_exact by lia.
  f_equal. unfold strip.
  assert (lstrip ("$" ++ sign ++ String c d) = "$" ++ sign ++ String c d) as ->.
  { now rewrite append_cons. }
  now apply rstrip_no_space.
Qed.

End PrettyFacts.

(** ** The demo generator, field by field *)

Section DemoFieldFacts.

Context {G : Type} `{!RandomGen G}.

Lemma choices_ok {A} (population : list A) (weights : list Z) (g g' : G) (x : A) :
  Random.choices population weights g = (ok x, g') -> x ∈ population.
Proof.
  unfold Random.choices. destruct population as [|y population]; [discriminate |].
  remember (y :: population) as pop eqn:Epop.
  destruct (negb _ || _); [discriminate |].
  unfold bindM, draw, ret. destruct (randbelow _ g) as [v g1].
  intros Hx. injection Hx as <- _. apply list_elem_of_In, nth_In.
  assert (0 < length pop)%nat by (subst pop; cbn [length]; lia). lia.
Qed.

(** Everything [_generate_flight] draws, and the record it builds from
    the draws. *)
Lemma generate_flight_fields (source destination travel_date : string)
  (g g' : G) (flight : Flight) :
  Demo._generate_flight source destination travel_date g = (ok flight, g') ->
  exists (airline : string) (lo hi base jitter dm h mi : Z)
         (dt : Datetime.datetime) (arrival : Z * (Z * Z)) (stops : string)
         (adj : Z),
    flight = list_to_map
               [("airline", VStr airline);
                ("departure_time",
                 VStr (Datetime.pad2 h ++ ":" ++ Datetime.pad2 mi));
                ("arrival_time",
                 VStr (if 0 <? fst arrival
                       then (Datetime.pad2 (fst (snd arrival)) ++ ":"
                             ++ Datetime.pad2 (snd (snd arrival))) ++ " +1"
                       else Datetime.pad2 (fst (snd arrival)) ++ ":"
                            ++ Datetime.pad2 (snd (snd arrival))));
                ("duration",
                 VStr (pretty (dm / 60) ++ "h " ++ pretty (dm mod 60) ++ "m"));
                ("duration_minutes", VNum (Fin dm));
                ("price", VStr ("$" ++ pretty (base + jitter + adj)));
                ("price_numeric", VNum (Fin (base + jitter + adj)));
                ("stops", VStr stops);
                ("departure_airport", VStr (Text.upper source));
                ("arrival_airport", VStr (Text.upper destination));
                ("website", VStr "Demo Data")]
    /\ airline ∈ map fst Demo.airlines
    /\ Demo.airlines_get airline Demo.airlines = ok (lo, hi)
    /\ lo <= base <= hi
    /\ -50 <= jitter <= 100
    /\ fst (Demo.duration_range source destination) <= dm
       <= snd (Demo.duration_range source destination)
    /\ 6 <= h <= 22
    /\ mi ∈ [0; 15; 30; 45]
    /\ Datetime.strptime_ymd_hm
         (travel_date ++ " " ++ Datetime.pad2 h ++ ":" ++ Datetime.pad2 mi)
       = Some dt
    /\ Datetime.add_minutes dt dm = ok arrival
    /\ ((stops = "Nonstop" /\ 50 <= adj <= 150)
        \/ (stops = "1 stop" /\ adj = 0)
        \/ (stops = "2 stops" /\ -100 <= adj <= -30)).
Proof.
  unfold Demo._generate_flight. intros H.
  apply bindM_ok in H as (airline & g1 & E1 & H).
  apply bindM_ok in H as ([lo hi] & g2 & E2 & H). apply lift_ok in E2 as [E2 ->].
  cbn [fst snd] in H.
  apply bindM_ok in H as (base & g3 & E3 & H).
  apply bindM_ok in H as (jitter & g4 & E4 & H).
  apply bindM_ok in H as (dm & g5 & E5 & H).
  apply bindM_ok in H as (h & g6 & E6 & H).
  apply bindM_ok in H as (mi & g7 & E7 & H).
  apply bindM_ok in H as (dt & g8 & E8 & H). apply lift_ok in E8 as [E8 ->].
  apply bindM_ok in H as (arrival & g9 & E9 & H). apply lift_ok in E9 as [E9 ->].
  apply bindM_ok in H as (stops & g10 & E10 & H).
  apply bindM_ok in H as (pn & g11 & E11 & H).
  apply ret_ok in H as [-> ->].
  apply choice_ok in E1. apply randint_ok in E3, E4, E5, E6.
  apply choice_ok in E7. apply choices_ok in E10.
  destruct (Datetime.strptime_ymd_hm _) as [dt'|] eqn:Edt; [| discriminate].
  unfold ok in E8. injection E8 as ->.
  assert (exists adj, pn = base + jitter + adj
            /\ ((stops = "Nonstop" /\ 50 <= adj <= 150)
                \/ (stops = "1 stop" /\ adj = 0)
                \/ (stops = "2 stops" /\ -100 <= adj <= -30)))
    as (adj & -> & Hadj).
  { rewrite !elem_of_cons, elem_of_nil in E10.
    destruct E10 as [-> | [-> | [-> | []]]]; cbn [String.eqb Ascii.eqb Bool.eqb] in E11.
    - apply bindM_ok in E11 as (extra & g12 & E12 & E11).
      apply ret_ok in E11 as [-> _]. apply randint_ok in E12.
      exists extra. split; [reflexivity | left; split; [reflexivity | lia]].
    - apply ret_ok in E11 as [-> _].
      exists 0. split; [lia | right; left; split; [reflexivity | lia]].
    - apply bindM_ok in E11 as (less & g12 & E12 & E11).
      apply ret_ok in E11 as [-> _]. apply randint_ok in E12.
      exists (- less). split; [lia | right; right; split; [reflexivity | lia]]. }
  exists airline, lo, hi, base, jitter, dm, h, mi, dt, arrival, stops, adj.
  repeat (split; [first [reflexivity | assumption] |]). exact Hadj.
Qed.

Lemma airlines_get_range (airline : string) (lo hi : Z) :
  Demo.airlines_get airline Demo.airlines = ok (lo, hi) ->
  100 <= lo /\ lo <= hi /\ hi <= 850.
Proof.
  unfold Demo.airlines, Demo.airlines_get.
  repeat (destruct (String.eqb _ airline);
          [unfold ok; intros [= <- <-]; lia |]).
  discriminate.
Qed.

End DemoFieldFacts.

(** X13. What a demo fare can be.  The price of a generated record lies
    within the range of its airline widened by the adjustments: from 150
    below the range to 250 above it, and more closely by the number of
    stops.  Over all airlines that is from -50 to 1100: a demo fare can be
    zero or negative. *)
Theorem demo_price_bounds {G : Type} `{!RandomGen G}
  (source destination travel_date : string) (g g' : G) (flight : Flight) :
  Demo._generate_flight source destination travel_date g = (ok flight, g') ->
  exists (airline stops : string) (lo hi pn : Z),
    flight !! "airline" = Some (VStr airline)
    /\ Demo.airlines_get airline Demo.airlines = ok (lo, hi)
    /\ flight !! "stops" = Some (VStr stops)
    /\ flight !! "price_numeric" = Some (VNum (Fin pn))
    /\ (stops = "Nonstop" -> lo <= pn <= hi + 250)
    /\ (stops = "1 stop" -> lo - 50 <= pn <= hi + 100)
    /\ (stops = "2 stops" -> lo - 150 <= pn <= hi + 70)
    /\ lo - 150 <= pn <= hi + 250
    /\ -50 <= pn <= 1100.
Proof.
  intros H.
  destruct (generate_flight_fields _ _ _ _ _ _ H)
    as (airline & lo & hi & base & jitter & dm & h & mi & dt & arrival & stops
        & adj & -> & _ & Hget & Hbase & Hjitter & _ & _ & _ & _ & _ & Hadj).
  pose proof (airlines_get_range _ _ _ Hget) as (Hlo & _ & Hhi).
  exists airline, stops, lo, hi, (base + jitter + adj).
  split; [reflexivity |]. split; [exact Hget |].
  split; [reflexivity |]. split; [reflexivity |].
  destruct Hadj as [[-> Ha] | [[-> Ha] | [-> Ha]]];
    repeat split; try discriminate; intros; lia.
Qed.

(** The theorem at work on a replayed tape: the cheapest airline at the low
    end of its range, the largest markdown, two stops. *)
Lemma demo_price_bounds_witness :
  Demo._generate_flight "NYC" "LAX" "2024-01-05" Drawn.cheapest_tape
  = (ok Drawn.cheapest, [])
  /\ exists (airline stops : string) (lo hi pn : Z),
       Drawn.cheapest !! "airline" = Some (VStr airline)
       /\ Demo.airlines_get airline Demo.airlines = ok (lo, hi)
       /\ Drawn.cheapest !! "stops" = Some (VStr stops)
       /\ Drawn.cheapest !! "price_numeric" = Some (VNum (Fin pn))
       /\ (stops = "Nonstop" -> lo <= pn <= hi + 250)
       /\ (stops = "1 stop" -> lo - 50 <= pn <= hi + 100)
       /\ (stops = "2 stops" -> lo - 150 <= pn <= hi + 70)
       /\ lo - 150 <= pn <= hi + 250
       /\ -50 <= pn <= 1100.
Proof.
  assert (Demo._generate_flight "NYC" "LAX" "2024-01-05" Drawn.cheapest_tape
          = (ok Drawn.cheapest, [])) as E by (vm_compute; reflexivity).
  exact (conj E (demo_price_bounds "NYC" "LAX" "2024-01-05" _ _ _ E)).
Defined.

(** X14. In a generated record the duration text and the duration in
    minutes agree: [_parse_duration], the parser the scrapers use, reads the
    text back as it stands and gives the minutes of the record. *)
Theorem demo_duration_reparses {G : Type} `{!RandomGen G}
  (source destination travel_date : string) (g g' : G) (flight : Flight) :
  Demo._generate_flight source destination travel_date g = (ok flight, g') ->
  exists (duration : string) (dm : Z),
    flight !! "duration" = Some (VStr duration)
    /\ flight !! "duration_minutes" = Some (VNum (Fin dm))
    /\ Parsers._parse_duration duration = ok (duration, Fin dm).
Proof.
  intros H.
  destruct (generate_flight_fields _ _ _ _ _ _ H)
    as (airline & lo & hi & base & jitter & dm & h & mi & dt & arrival & stops
        & adj & -> & _ & _ & _ & _ & Hdm & _).
  pose proof (duration_range_bounds source destination) as (Hlo & _ & _).
  exists (pretty (dm / 60) ++ "h " ++ pretty (dm mod 60) ++ "m"), dm.
  split; [reflexivity |]. split; [reflexivity |].
  assert (0 <= dm / 60) by (apply Z.div_pos; lia).
  pose proof (Z.mod_pos_bound dm 60 ltac:(lia)).
  pose proof (Z.div_mod dm 60 ltac:(lia)).
  pose proof (duration_range_bounds source destination) as (_ & _ & Hhi).
  assert (dm / 60 <= 8) by (apply Z.div_le_upper_bound; lia).
  rewrite parse_duration_written by lia. unfold ok. repeat f_equal. lia.
Qed.

(** The theorem at work on a seeded generator. *)
Lemma demo_duration_reparses_witness :
  Demo._generate_flight "NYC" "LAX" "2024-01-05" (1 : Z)
  = (ok Drawn.seeded, 486256185)
  /\ exists (duration : string) (dm : Z),
       Drawn.seeded !! "duration" = Some (VStr duration)
       /\ Drawn.seeded !! "duration_minutes" = Some (VNum (Fin dm))
       /\ Parsers._parse_duration duration = ok (duration, Fin dm).
Proof.
  assert (Demo._generate_flight "NYC" "LAX" "2024-01-05" (1 : Z)
          = (ok Drawn.seeded, 486256185)) as E by (vm_compute; reflexivity).
  exact (conj E (demo_duration_reparses "NYC" "LAX" "2024-01-05" _ _ _ E)).
Defined.

(** X15. In a generated record the price text carries the price without
    its sign: [_parse_price] reads the text back as it stands and gives the
    absolute value of the numeric price, so the two agree exactly when the
    fare is not negative. *)
Theorem demo_price_reparses {G : Type} `{!RandomGen G}
  (source destination travel_date : string) (g g' : G) (flight : Flight) :
  Demo._generate_flight source destination travel_date g = (ok flight, g') ->
  exists (price : string) (pn : Z),
    flight !! "price" = Some (VStr price)
    /\ flight !! "price_numeric" = Some (VNum (Fin pn))
    /\ Parsers._parse_price price = (price, Fin (Z.abs pn)).
Proof.
  intros H.
  destruct (generate_flight_fields _ _ _ _ _ _ H)
    as (airline & lo & hi & base & jitter & dm & h & mi & dt & arrival & stops
        & adj & -> & _ & Hget & Hbase & Hjitter & _ & _ & _ & _ & _ & Hadj).
  pose proof (airlines_get_range _ _ _ Hget) as (Hlo & _ & Hhi).
  exists ("$" ++ pretty (base + jitter + adj)), (base + jitter + adj).
  split; [reflexivity |]. split; [reflexivity |].
  apply parse_price_written.
  assert (Z.abs (base + jitter + adj) <= 1100)
    by (destruct Hadj as [[_ ?] | [[_ ?] | [_ ?]]]; lia).
  assert (1100 < 2 ^ 53) by reflexivity. lia.
Qed.

(** The theorem at work on the tape of the lowest fare: the price text
    '$-50' reads back as 50. *)
Lemma demo_price_reparses_witness :
  Demo._generate_flight "NYC" "LAX" "2024-01-05" Drawn.cheapest_tape
  = (ok Drawn.cheapest, [])
  /\ exists (price : string) (pn : Z),
       Drawn.cheapest !! "price" = Some (VStr price)
       /\ Drawn.cheapest !! "price_numeric" = Some (VNum (Fin pn))
       /\ Parsers._parse_price price = (price, Fin (Z.abs pn)).
Proof.
  assert (Demo._generate_flight "NYC" "LAX" "2024-01-05" Drawn.cheapest_tape
          = (ok Drawn.cheapest, [])) as E by (vm_compute; reflexivity).
  exact (conj E (demo_price_reparses "NYC" "LAX" "2024-01-05" _ _ _ E)).
Defined.

(** X16. The arrival time of a generated record, on a travel date that
    [strptime] accepts: the clock time of the departure plus the duration,
    modulo a day, marked ' +1' exactly when the sum passes midnight.  It
    never passes a second midnight, and the date plays no part in it. *)
Theorem demo_arrival_time {G : Type} `{!RandomGen G}
  (source destination travel_date : string) (date : Datetime.date)
  (g g' : G) (flight : Flight) :
  Datetime.strptime_ymd travel_date = Some date ->
  Demo._generate_flight source destination travel_date g = (ok flight, g') ->
  exists h mi dm : Z,
    6 <= h <= 22 /\ mi ∈ [0; 15; 30; 45]
    /\ flight !! "departure_time"
       = Some (VStr (Datetime.pad2 h ++ ":" ++ Datetime.pad2 mi))
    /\ flight !! "duration_minutes" = Some (VNum (Fin dm))
    /\ 60 * h + mi + dm < 2880
    /\ flight !! "arrival_time"
       = Some (VStr
           (if 1440 <=? 60 * h + mi + dm
            then (Datetime.pad2 ((60 * h + mi + dm) / 60 mod 24) ++ ":"
                  ++ Datetime.pad2 ((60 * h + mi + dm) mod 60)) ++ " +1"
            else Datetime.pad2 ((60 * h + mi + dm) / 60 mod 24) ++ ":"
                 ++ Datetime.pad2 ((60 * h + mi + dm) mod 60))).
Proof.
  intros Hdate H.
  destruct (generate_flight_fields _ _ _ _ _ _ H)
    as (airline & lo & hi & base & jitter & dm & h & mi & dt & arrival & stops
        & adj & -> & _ & _ & _ & _ & Hdm & Hh & Hmi & Hdt & Harr & _).
  pose proof (duration_range_bounds source destination) as (Hlo & _ & Hhi).
  rewrite (strptime_departure _ _ _ _ Hdate Hh Hmi) in Hdt.
  injection Hdt as <-.
  assert (0 <= mi <= 45) as Hmi'.
  { rewrite !elem_of_cons, elem_of_nil in Hmi. lia. }
  exists h, mi, dm.
  split; [exact Hh |]. split; [exact Hmi |].
  split; [reflexivity |]. split; [reflexivity |]. split; [lia |].
  unfold Datetime.add_minutes in Harr. cbn [Datetime.hour Datetime.minute] in Harr.
  replace (h * 60 + mi + dm) with (60 * h + mi + dm) in Harr by lia.
  set (total := 60 * h + mi + dm) in *.
  destruct (_ && _) in Harr; [| discriminate].
  unfold ok in Harr. injection Harr as <-. cbn [fst snd].
  assert (total mod 1440 / 60 = total / 60 mod 24) as -> by
    (Z.to_euclidean_division_equations; lia).
  assert (total mod 1440 mod 60 = total mod 60) as -> by
    (Z.to_euclidean_division_equations; lia).
  assert ((0 <? total / 1440) = (1440 <=? total)) as ->.
  { destruct (Z.ltb_spec 0 (total / 1440)), (Z.leb_spec 1440 total);
      try reflexivity; Z.to_euclidean_division_equations; lia. }
  reflexivity.
Qed.

(** The theorem at work on the tape of the latest departure: 22:45 and
    five and a half hours. *)
Lemma demo_arrival_time_witness :
  Datetime.strptime_ymd "2024-01-05"
  = Some {| Datetime.year := 2024; Datetime.month := 1; Datetime.day := 5 |}
  /\ Demo._generate_flight "NYC" "LAX" "2024-01-05" Drawn.red_eye_tape
     = (ok Drawn.red_eye, [])
  /\ exists h mi dm : Z,
       6 <= h <= 22 /\ mi ∈ [0; 15; 30; 45]
       /\ Drawn.red_eye !! "departure_time"
          = Some (VStr (Datetime.pad2 h ++ ":" ++ Datetime.pad2 mi))
       /\ Drawn.red_eye !! "duration_minutes" = Some (VNum (Fin dm))
       /\ 60 * h + mi + dm < 2880
       /\ Drawn.red_eye !! "arrival_time"
          = Some (VStr
              (if 1440 <=? 60 * h + mi + dm
               then (Datetime.pad2 ((60 * h + mi + dm) / 60 mod 24) ++ ":"
                     ++ Datetime.pad2 ((60 * h + mi + dm) mod 60)) ++ " +1"
               else Datetime.pad2 ((60 * h + mi + dm) / 60 mod 24) ++ ":"
                    ++ Datetime.pad2 ((60 * h + mi + dm) mod 60))).
Proof.
  assert (Datetime.strptime_ymd "2024-01-05"
          = Some {| Datetime.year := 2024; Datetime.month := 1;
                    Datetime.day := 5 |}) as Hdate by (vm_compute; reflexivity).
  assert (Demo._generate_flight "NYC" "LAX" "2024-01-05" Drawn.red_eye_tape
          = (ok Drawn.red_eye, [])) as E by (vm_compute; reflexivity).
  exact (conj Hdate (conj E
           (demo_arrival_time "NYC" "LAX" "2024-01-05" _ _ _ _ Hdate E))).
Defined.

(** ** The demo source seen from the aggregator, and its edges *)

Section DemoAggregatorFacts.

Context {G : Type} `{!RandomGen G}.

Lemma generate_flight_well_typed (source destination travel_date : string)
  (g g' : G) (flight : Flight) :
  Demo._generate_flight source destination travel_date g = (ok flight, g') ->
  RecordSpec.well_typed flight.
Proof.
  intros H.
  destruct (generate_flight_inv _ _ _ _ _ _ H)
    as (airline & dep & arr & dur & price & stops & dm & pn & -> & _).
  split; [split |]; intros v Hv;
    match type of Hv with
    | ?m !! ?k = _ =>
        match goal with
        | |- RecordSpec.is_number _ =>
            assert (exists n, m !! k = Some (VNum n)) as [n E]
              by (eexists; reflexivity);
            rewrite E in Hv; injection Hv as <-; now exists n
        | |- RecordSpec.is_text _ =>
            assert (exists s, m !! k = Some (VStr s)) as [s E]
              by (eexists; reflexivity);
            rewrite E in Hv; injection Hv as <-; now exists s
        end
    end.
Qed.

(** The demo source returns at most [max_results] records, all well typed
    and in price order. *)
Lemma demo_search_shape (config : Cfg.Config)
  (source destination travel_date : string) (return_date : option string)
  (passengers : Z) (flight_class : string) (g g' : G) (flights : list Flight) :
  Demo.search_flights config source destination travel_date return_date
    passengers flight_class g = (ok flights, g') ->
  exists settings m,
    Cfg.search_settings config = Some settings
    /\ Cfg.max_results settings = Some m
    /\ length flights = Z.to_nat (Z.min m 8)
    /\ Forall RecordSpec.well_typed flights
    /\ Agent.sort_flights "price" flights = ok flights.
Proof.
  intros H.
  destruct (demo_search_inv _ _ _ _ _ _ _ _ _ _ H)
    as (settings & m & generated & Hss & Hm & Hgen & ->).
  destruct (generate_flights_inv RecordSpec.well_typed _ _ _
              (generate_flight_well_typed _ _ _) _ _ _ _ Hgen) as [Hlen Hwt].
  assert (Forall RecordSpec.well_typed
            (StableSort.sort Number.ltb
               (fun x => RecordSpec.num_of (Agent.price_key x)) generated))
    as Hwt'.
  { eapply Permutation_Forall; [| exact Hwt]. symmetry. apply stable_sort_perm. }
  exists settings, m. split; [exact Hss |]. split; [exact Hm |].
  split.
  { rewrite <- Hlen. apply Permutation_length, stable_sort_perm. }
  split; [exact Hwt' |].
  rewrite sort_flights_by_price
    by (eapply Forall_impl; [exact Hwt' | now intros x [? _]]).
  f_equal. apply stable_sort_of_sorted.
  exact (stable_sort_sorted _ _ number_ltb_irrefl number_ltb_trans
           number_ltb_cotrans _).
Qed.

(** The draws of [_generate_flight] up to the point where the departure is
    parsed always succeed; a travel date that cannot be parsed with any
    departure time makes it raise [ValueError] there. *)
Lemma generate_flight_bad_date (source destination travel_date : string) (g : G) :
  (forall departure_time,
      Datetime.strptime_ymd_hm (travel_date ++ " " ++ departure_time) = None) ->
  exists msg g',
    Demo._generate_flight source destination travel_date g
    = (raise (ValueError msg), g').
Proof.
  intros Hbad. unfold Demo._generate_flight.
  destruct (choice_total (map fst Demo.airlines) g ltac:(discriminate))
    as (airline & g1 & E1 & Hin).
  rewrite (bindM_step _ _ _ _ _ E1).
  destruct (airlines_get_ok airline Hin) as (lo & hi & Eget & Hle).
  rewrite (bindM_step (lift _) _ g1 g1 (lo, hi))
    by (unfold lift; now rewrite Eget).
  cbn [fst snd].
  destruct (randint_total lo hi g1 Hle) as (base & g2 & E2 & _).
  rewrite (bindM_step _ _ _ _ _ E2).
  destruct (randint_total (-50) 100 g2 ltac:(lia)) as (jitter & g3 & E3 & _).
  rewrite (bindM_step _ _ _ _ _ E3).
  pose proof (duration_range_bounds source destination) as (Hlo & Hr & Hhi).
  destruct (randint_total _ _ g3 Hr) as (dm & g4 & E4 & Hdm).
  rewrite (bindM_step _ _ _ _ _ E4).
  destruct (randint_total 6 22 g4 ltac:(lia)) as (h & g5 & E5 & Hh).
  rewrite (bindM_step _ _ _ _ _ E5).
  destruct (choice_total [0; 15; 30; 45] g5 ltac:(discriminate))
    as (mi & g6 & E6 & Hmi).
  rewrite (bindM_step _ _ _ _ _ E6).
  rewrite Hbad. unfold bindM, lift. eauto.
Qed.

End DemoAggregatorFacts.

(** X17. The demo source and the aggregator agree on the order.  The list
    the demo source returns is well typed, so the sort step returns on it
    for every key; and unless the configured key is 'duration' or
    'departure_time', sorting and cutting in the aggregator give back the
    very list the demo source returned. *)
Theorem demo_list_kept_by_aggregator {G : Type} `{!RandomGen G}
  (config : Cfg.Config) (source destination travel_date : string)
  (return_date : option string) (passengers : Z) (flight_class : string)
  (g g' : G) (flights : list Flight) :
  Demo.search_flights config source destination travel_date return_date
    passengers flight_class g = (ok flights, g') ->
  (forall sort_key, exists sorted,
      Agent.sort_flights sort_key flights = ok sorted
      /\ Permutation sorted flights)
  /\ (ChainSpec.configured_sort config ∉ ["duration"; "departure_time"] ->
      Agent.sort_and_limit config flights = ok flights).
Proof.
  intros H.
  destruct (demo_search_shape _ _ _ _ _ _ _ _ _ _ H)
    as (settings & m & Hss & Hm & Hlen & Hwt & Hprice).
  split.
  - intros sort_key.
    destruct (sort_flights_returns sort_key flights Hwt) as [sorted Hs].
    exists sorted. split; [exact Hs | exact (sort_flights_perm _ _ _ Hs)].
  - intros Hkey. unfold ChainSpec.configured_sort in Hkey. rewrite Hss in Hkey.
    unfold Agent.sort_and_limit. rewrite Hss. cbn. rewrite Hm. cbn.
    assert (Agent.sort_flights (default "price" (Cfg.sort_by settings)) flights
            = ok flights) as ->.
    { destruct (decide (default "price" (Cfg.sort_by settings) = "price"))
        as [-> | Hne]; [exact Hprice |].
      apply sort_flights_unknown. rewrite !elem_of_cons, elem_of_nil.
      rewrite !elem_of_cons, elem_of_nil in Hkey. tauto. }
    cbn. f_equal. unfold PyList.slice_to.
    destruct (Z.leb_spec 0 m).
    + apply take_ge. lia.
    + assert (flights = []) as -> by (apply length_zero_iff_nil; lia).
      apply take_nil.
Qed.

(** The theorem at work: the tape draws the dearest record first, then the
    cheapest, then the one between them; the demo source returns them by
    price, and the sort and the cut of the aggregator, with room for three,
    leave that list as it is. *)
Lemma demo_list_kept_witness :
  Demo.search_flights (Sample.document "kayak" [] "2024-01-05" (Some 3) None)
    "NYC" "LAX" "2024-01-05" None 1 "economy"
    (Drawn.dearest_tape ++ Drawn.cheapest_tape ++ Drawn.red_eye_tape)%list
  = (ok [Drawn.cheapest; Drawn.red_eye; Drawn.dearest], [])
  /\ (forall sort_key, exists sorted,
        Agent.sort_flights sort_key
          [Drawn.cheapest; Drawn.red_eye; Drawn.dearest] = ok sorted
        /\ Permutation sorted [Drawn.cheapest; Drawn.red_eye; Drawn.dearest])
  /\ (ChainSpec.configured_sort
        (Sample.document "kayak" [] "2024-01-05" (Some 3) None)
      ∉ ["duration"; "departure_time"] ->
      Agent.sort_and_limit
        (Sample.document "kayak" [] "2024-01-05" (Some 3) None)
        [Drawn.cheapest; Drawn.red_eye; Drawn.dearest]
      = ok [Drawn.cheapest; Drawn.red_eye; Drawn.dearest]).
Proof.
  assert (Demo.search_flights
            (Sample.document "kayak" [] "2024-01-05" (Some 3) None)
            "NYC" "LAX" "2024-01-05" None 1 "economy"
            (Drawn.dearest_tape ++ Drawn.cheapest_tape ++ Drawn.red_eye_tape)%list
          = (ok [Drawn.cheapest; Drawn.red_eye; Drawn.dearest], [])) as E
    by (vm_compute; reflexivity).
  exact (conj E (demo_list_kept_by_aggregator _ _ _ _ _ _ _ _ _ _ E)).
Defined.

(** X18. The edges of the demo source.  Without [max_results] it raises
    [KeyError] before anything is drawn.  With a [max_results] of zero or
    less it returns the empty list without drawing and without looking at
    the travel date.  With a positive [max_results] and a travel date that
    does not parse it raises [ValueError], after the draws of the first
    record up to its departure time. *)
Theorem demo_search_edges {G : Type} `{!RandomGen G}
  (config : Cfg.Config) (settings : Cfg.SearchSettings)
  (source destination travel_date : string) (return_date : option string)
  (passengers : Z) (flight_class : string) (g : G) :
  Cfg.search_settings config = Some settings ->
  (Cfg.max_results settings = None ->
   Demo.search_flights config source destination travel_date return_date
     passengers flight_class g = (raise (KeyError "max_results"), g))
  /\ (forall m, Cfg.max_results settings = Some m -> m <= 0 ->
      Demo.search_flights config source destination travel_date return_date
        passengers flight_class g = (ok [], g))
  /\ (forall m, Cfg.max_results settings = Some m -> 1 <= m ->
      (forall departure_time,
          Datetime.strptime_ymd_hm (travel_date ++ " " ++ departure_time)
          = None) ->
      exists msg g',
        Demo.search_flights config source destination travel_date return_date
          passengers flight_class g = (raise (ValueError msg), g')).
Proof.
  intros Hss. unfold Demo.search_flights. rewrite Hss. cbn.
  split; [| split].
  - now intros ->.
  - intros m -> Hm. cbn.
    replace (Z.to_nat (Z.min m 8)) with 0%nat by lia. reflexivity.
  - intros m -> Hm Hbad. cbn.
    destruct (Z.to_nat (Z.min m 8)) as [|n] eqn:En; [lia |].
    cbn [Demo.generate_flights].
    destruct (generate_flight_bad_date source destination travel_date g Hbad)
      as (msg & g' & E).
    exists msg, g'. unfold bindM, lift. rewrite E. reflexivity.
Qed.

(** The theorem at work: a travel date in words, with room for no record
    and with room for three. *)
Lemma demo_search_edges_witness :
  Demo.search_flights (Sample.document "kayak" [] "tomorrow" (Some 0) None)
    "NYC" "LAX" "tomorrow" None 1 "economy" (1 : Z) = (ok [], 1)
  /\ exists msg g',
       Demo.search_flights (Sample.document "kayak" [] "tomorrow" (Some 3) None)
         "NYC" "LAX" "tomorrow" None 1 "economy" (1 : Z)
       = (raise (ValueError msg), g').
Proof.
  split.
  - exact (proj1 (proj2 (demo_search_edges
             (Sample.document "kayak" [] "tomorrow" (Some 0) None) _
             "NYC" "LAX" "tomorrow" None 1 "economy" (1 : Z) eq_refl))
             0 eq_refl ltac:(lia)).
  - exact (proj2 (proj2 (demo_search_edges
             (Sample.document "kayak" [] "tomorrow" (Some 3) None) _
             "NYC" "LAX" "tomorrow" None 1 "economy" (1 : Z) eq_refl))
             3 eq_refl ltac:(lia) (fun departure_time => eq_refl)).
Defined.

(** ** [format_airport_code] *)

Section AirportFacts.

Import Text.

Lemma upper_char_idem (c : ascii) : upper_char (upper_char c) = upper_char c.
Proof. destruct c as [[] [] [] [] [] [] [] []]; reflexivity. Qed.

Lemma upper_char_space (c : ascii) : is_space (upper_char c) = is_space c.
Proof. destruct c as [[] [] [] [] [] [] [] []]; reflexivity. Qed.

Lemma upper_idem (s : string) : upper (upper s) = upper s.
Proof.
  unfold upper. induction s as [|c t IH]; [reflexivity |].
  cbn [map_chars]. now rewrite upper_char_idem, IH.
Qed.

Lemma lstrip_upper (s : string) : lstrip (upper s) = upper (lstrip s).
Proof.
  unfold upper. induction s as [|c t IH]; [reflexivity |].
  cbn [map_chars lstrip]. rewrite upper_char_space.
  destruct (is_space c); [exact IH | reflexivity].
Qed.

Lemma rstrip_upper (s : string) : rstrip (upper s) = upper (rstrip s).
Proof.
  unfold upper. induction s as [|c t IH]; [reflexivity |].
  cbn [map_chars rstrip]. rewrite IH, upper_char_space.
  destruct (rstrip t); cbn [map_chars]; [| reflexivity].
  now destruct (is_space c).
Qed.

Lemma strip_upper (s : string) : strip (upper s) = upper (strip s).
Proof. unfold strip. now rewrite lstrip_upper, rstrip_upper. Qed.

Lemma rstrip_idem (s : string) : rstrip (rstrip s) = rstrip s.
Proof.
  induction s as [|c t IH]; [reflexivity |]. cbn [rstrip].
  destruct (rstrip t) as [|d t'] eqn:R.
  - destruct (is_space c) eqn:Hc; [reflexivity |]. cbn [rstrip]. now rewrite Hc.
  - cbn [rstrip]. cbn [rstrip] in IH. now rewrite IH.
Qed.

(** What [lstrip] returns does not begin with white space, and [rstrip]
    keeps that. *)
Lemma lstrip_rstrip_lstrip (s : string) :
  lstrip (rstrip (lstrip s)) = rstrip (lstrip s).
Proof.
  induction s as [|c t IH]; [reflexivity |]. cbn [lstrip].
  destruct (is_space c) eqn:Hc; [exact IH |]. cbn [rstrip].
  destruct (rstrip t); rewrite ?Hc; cbn [lstrip]; now rewrite Hc.
Qed.

Lemma strip_idem (s : string) : strip (strip s) = strip s.
Proof. unfold strip. now rewrite lstrip_rstrip_lstrip, rstrip_idem. Qed.

End AirportFacts.

(** X19. [format_airport_code] trims and upper-cases, and does nothing
    else: its three return statements return the same value, so neither the
    length nor the letters of a code are ever checked.  A result that is not
    empty is a fixed point of the function; text of white space alone gives
    the empty code, which the function itself then refuses. *)
Theorem format_airport_code_fixed_point (code r : string) :
  Airports.format_airport_code code = ok r ->
  r = Text.upper (Text.strip code)
  /\ (r <> "" -> Airports.format_airport_code r = ok r)
  /\ (r = "" ->
      Airports.format_airport_code r
      = raise (ValueError "Airport code cannot be empty")).
Proof.
  assert (forall c, c <> "" ->
            Airports.format_airport_code c = ok (Text.upper (Text.strip c)))
    as Hformat.
  { intros c Hc. unfold Airports.format_airport_code.
    rewrite (truthy_nonempty _ Hc). cbn [negb].
    destruct (_ <? _)%nat; [reflexivity |]. now destruct (_ && _). }
  intros H. destruct code as [|c t]; [discriminate |].
  rewrite Hformat in H by discriminate. unfold ok in H. injection H as <-.
  split; [reflexivity |]. split.
  - intros Hne. rewrite Hformat by exact Hne.
    now rewrite strip_upper, upper_idem, strip_idem.
  - now intros ->.
Qed.

(** The theorem at work: a padded lower-case code, and a code that is no
    airport code. *)
Lemma format_airport_code_witness :
  Airports.format_airport_code " lax " = ok "LAX"
  /\ Airports.format_airport_code "LAX" = ok "LAX"
  /\ Airports.format_airport_code "x9" = ok "X9".
Proof.
  split; [reflexivity |]. split; [| reflexivity].
  exact (proj1 (proj2 (format_airport_code_fixed_point " lax " "LAX" eq_refl))
           ltac:(discriminate)).
Defined.

(** ** [KayakScraper] *)

Section KayakFacts.

Lemma omap_length_le {A B} (f : A -> option B) (l : list A) :
  (length (omap f l) <= length l)%nat.
Proof.
  induction l as [|x l IH]; [reflexivity |]. cbn [omap list_omap length].
  destruct (f x); cbn [length]; lia.
Qed.

Lemma omap_all_some {A B} (f : A -> option B) (l : list A) :
  Forall (fun x => is_Some (f x)) l -> length (omap f l) = length l.
Proof.
  induction 1 as [|x l [y Hy] Hl IH]; [reflexivity |].
  cbn [omap list_omap length]. rewrite Hy. cbn [length]. now rewrite IH.
Qed.

Lemma omap_Forall {A B} (f : A -> option B) (P : B -> Prop) (l : list A) :
  (forall x y, f x = Some y -> P y) -> Forall P (omap f l).
Proof.
  intros HP. induction l as [|x l IH]; [constructor |].
  cbn [omap list_omap]. destruct (f x) as [y|] eqn:E; [| exact IH].
  constructor; [exact (HP x y E) | exact IH].
Qed.

End KayakFacts.

(** What a record parsed from a Kayak element holds. *)
Lemma parse_kayak_flight_fields (element : Kayak.Element)
  (source destination : string) (flight : Flight) :
  Kayak._parse_kayak_flight element source destination = Some flight ->
  exists (airline : pyval) (price_elem duration_elem stops duration : string)
         (duration_minutes : number),
    Kayak.price_text element = Some price_elem
    /\ Kayak.duration_text element = Some duration_elem
    /\ Parsers._parse_duration duration_elem = ok (duration, duration_minutes)
    /\ flight = list_to_map
         [("airline", airline);
          ("departure_time", VStr (nth 0 (Kayak.time_texts element) "N/A"));
          ("arrival_time", VStr (nth 1 (Kayak.time_texts element) "N/A"));
          ("duration", VStr duration);
          ("duration_minutes", VNum duration_minutes);
          ("price", VStr (fst (Parsers._parse_price price_elem)));
          ("price_numeric", VNum (snd (Parsers._parse_price price_elem)));
          ("stops", VStr stops);
          ("departure_airport", VStr source);
          ("arrival_airport", VStr destination)].
Proof.
  unfold Kayak._parse_kayak_flight.
  destruct (Kayak.airline_title element) as [title|]; [| discriminate].
  cbn [mbind option_bind].
  destruct (Kayak.duration_text element) as [duration_elem|]; [| discriminate].
  cbn [mbind option_bind].
  destruct (Parsers._parse_duration duration_elem) as [e | [duration dm]] eqn:ED;
    [discriminate |].
  cbn [mbind option_bind].
  destruct (Kayak.price_text element) as [price_elem|]; [| discriminate].
  cbn [mbind option_bind].
  destruct (Parsers._parse_price price_elem) as [price pn] eqn:EP.
  destruct (Kayak.stops_text element) as [stops|]; [| discriminate].
  cbn [mbind option_bind]. intros [= <-].
  exists (match title with Some t => VStr t | None => VNone end),
    price_elem, duration_elem, stops, duration, dm.
  rewrite EP. split; [reflexivity |]. split; [reflexivity |].
  split; [exact ED | reflexivity].
Qed.

(** An element is kept exactly when it has its four parts and
    [_parse_duration] returns on its duration text. *)
Lemma parse_kayak_flight_kept (element : Kayak.Element)
  (source destination : string) :
  is_Some (Kayak._parse_kayak_flight element source destination)
  <-> is_Some (Kayak.airline_title element)
      /\ is_Some (Kayak.price_text element)
      /\ is_Some (Kayak.stops_text element)
      /\ exists duration_elem parsed,
           Kayak.duration_text element = Some duration_elem
           /\ Parsers._parse_duration duration_elem = ok parsed.
Proof.
  unfold Kayak._parse_kayak_flight.
  destruct (Kayak.airline_title element) as [title|]; cbn [mbind option_bind].
  2:{ split; [intros [? [=]] | intros ([? [=]] & _)]. }
  destruct (Kayak.duration_text element) as [duration_elem|];
    cbn [mbind option_bind].
  2:{ split; [intros [? [=]] | intros (_ & _ & _ & ? & ? & [=] & _)]. }
  destruct (Parsers._parse_duration duration_elem) as [e | [duration dm]] eqn:ED;
    cbn [mbind option_bind].
  { split; [intros [? [=]] |].
    intros (_ & _ & _ & d & parsed & [= <-] & H).
    rewrite ED in H. discriminate H. }
  destruct (Kayak.price_text element) as [price_elem|]; cbn [mbind option_bind].
  2:{ split; [intros [? [=]] | intros (_ & [? [=]] & _)]. }
  destruct (Parsers._parse_price price_elem) as [price pn].
  destruct (Kayak.stops_text element) as [stops|]; cbn [mbind option_bind].
  2:{ split; [intros [? [=]] | intros (_ & _ & [? [=]] & _)]. }
  split; [| eauto]. intros _. repeat split; eauto.
Qed.

(** X20. Every record the Kayak scraper collects is labelled 'Kayak',
    carries the airports as they were passed (not upper-cased), has a price
    that is +inf or at least 0 and a duration that is +inf or at least 1,
    both as [_parse_price] and [_parse_duration] read them from the element,
    and has a textual departure time; so the sort step of the aggregator
    returns on the collected list for every sort key. *)
Theorem kayak_records_schema (max_results : Z)
  (flight_elements : list Kayak.Element) (source destination : string) :
  Forall (fun flight : Flight =>
            flight !! "website" = Some (VStr "Kayak")
            /\ flight !! "departure_airport" = Some (VStr source)
            /\ flight !! "arrival_airport" = Some (VStr destination)
            /\ RecordSpec.well_typed flight
            /\ exists p d,
                 flight !! "price_numeric" = Some (VNum p)
                 /\ flight !! "duration_minutes" = Some (VNum d)
                 /\ (forall z, p = Fin z -> 0 <= z)
                 /\ (forall z, d = Fin z -> 0 < z))
    (Kayak.collect max_results flight_elements source destination)
  /\ forall sort_key, exists sorted,
       Agent.sort_flights sort_key
         (Kayak.collect max_results flight_elements source destination)
       = ok sorted
       /\ Permutation sorted
            (Kayak.collect max_results flight_elements source destination).
Proof.
  assert (Forall (fun flight : Flight =>
            flight !! "website" = Some (VStr "Kayak")
            /\ flight !! "departure_airport" = Some (VStr source)
            /\ flight !! "arrival_airport" = Some (VStr destination)
            /\ RecordSpec.well_typed flight
            /\ exists p d,
                 flight !! "price_numeric" = Some (VNum p)
                 /\ flight !! "duration_minutes" = Some (VNum d)
                 /\ (forall z, p = Fin z -> 0 <= z)
                 /\ (forall z, d = Fin z -> 0 < z))
            (Kayak.collect max_results flight_elements source destination))
    as Hall.
  { unfold Kayak.collect. apply omap_Forall. intros element flight.
    destruct (Kayak._parse_kayak_flight element source destination)
      as [flight_data|] eqn:E; [| discriminate].
    cbn [mbind option_bind]. intros [= <-].
    destruct (parse_kayak_flight_fields _ _ _ _ E)
      as (airline & price_elem & duration_elem & stops & duration & dm
          & _ & _ & Hparsed & ->).
    split; [reflexivity |]. split; [reflexivity |]. split; [reflexivity |].
    split.
    - split; [split |]; intros v Hv.
      + assert (v = VNum (snd (Parsers._parse_price price_elem))) as ->
          by (symmetry; now injection Hv).
        now eexists.
      + assert (v = VNum dm) as -> by (symmetry; now injection Hv).
        now eexists.
      + assert (v = VStr (nth 0 (Kayak.time_texts element) "N/A")) as ->
          by (symmetry; now injection Hv).
        now eexists.
    - exists (snd (Parsers._parse_price price_elem)), dm.
      split; [reflexivity |]. split; [reflexivity |]. split.
      + intros z. apply parse_price_nonneg.
      + intros z ->. exact (parse_duration_positive _ _ _ Hparsed). }
  split; [exact Hall |]. intros sort_key.
  destruct (sort_flights_returns sort_key
              (Kayak.collect max_results flight_elements source destination))
    as [sorted Hs].
  { eapply Forall_impl; [exact Hall |]. now intros x (_ & _ & _ & H & _). }
  exists sorted. split; [exact Hs | exact (sort_flights_perm _ _ _ Hs)].
Qed.

(** X21. How many records the Kayak scraper returns from a page of [n]
    result elements.  With [max_results = m] it looks at the elements of the
    slice [[:m]] only, so it returns at most min(m, n) records, or
    max(0, n + m) for a negative [m].  An element is kept exactly when it has
    its airline, duration, price and stops parts and [_parse_duration]
    returns on its duration text; any other element is skipped, also one
    whose duration text makes [int] raise.  So the scraper returns exactly
    the bound when every element it looks at is such an element.  Without
    [max_results] the lookup fails inside the [try] block and the scraper
    returns the empty list. *)
Theorem kayak_results_count (config : Cfg.Config)
  (flight_elements : list Kayak.Element) (source destination : string) :
  (forall settings m,
      Cfg.search_settings config = Some settings ->
      Cfg.max_results settings = Some m ->
      Z.of_nat (length (Kayak.results config flight_elements source destination))
      <= (if 0 <=? m then Z.min m (Z.of_nat (length flight_elements))
          else Z.max 0 (Z.of_nat (length flight_elements) + m))
      /\ (Forall (fun element =>
                    is_Some (Kayak.airline_title element)
                    /\ is_Some (Kayak.price_text element)
                    /\ is_Some (Kayak.stops_text element)
                    /\ exists duration_elem parsed,
                         Kayak.duration_text element = Some duration_elem
                         /\ Parsers._parse_duration duration_elem = ok parsed)
            (PyList.slice_to flight_elements m) ->
          Z.of_nat (length (Kayak.results config flight_elements source destination))
          = (if 0 <=? m then Z.min m (Z.of_nat (length flight_elements))
             else Z.max 0 (Z.of_nat (length flight_elements) + m))))
  /\ (forall element,
        Kayak._parse_kayak_flight element source destination = None
        <-> ~ (is_Some (Kayak.airline_title element)
               /\ is_Some (Kayak.price_text element)
               /\ is_Some (Kayak.stops_text element)
               /\ exists duration_elem parsed,
                    Kayak.duration_text element = Some duration_elem
                    /\ Parsers._parse_duration duration_elem = ok parsed))
  /\ (forall settings,
        Cfg.search_settings config = Some settings ->
        Cfg.max_results settings = None ->
        Kayak.results config flight_elements source destination = []).
Proof.
  split; [| split].
  - intros settings m Hss Hm. unfold Kayak.results. rewrite Hss. cbn.
    rewrite Hm. cbn. unfold Kayak.collect. rewrite <- slice_to_count. split.
    + apply inj_le, omap_length_le.
    + intros Hall. f_equal. apply omap_all_some.
      eapply Forall_impl; [exact Hall |].
      intros element Hkept.
      apply (parse_kayak_flight_kept element source destination) in Hkept
        as [flight ->].
      cbn [mbind option_bind]. eauto.
  - intros element.
    rewrite <- (parse_kayak_flight_kept element source destination).
    rewrite <- eq_None_not_Some. reflexivity.
  - intros settings Hss Hm. unfold Kayak.results. rewrite Hss. cbn.
    now rewrite Hm.
Qed.

(** A page of four elements, cut at three: the second has no price, and
    the duration of the third has more digits than [int] converts. *)
Example kayak_page :
  Kayak.collect 3
    [ {| Kayak.airline_title := Some (Some "Delta");
         Kayak.time_texts := ["7:05 am"; "10:20 am"];
         Kayak.duration_text := Some "6h 15m";
         Kayak.price_text := Some "$1,204";
         Kayak.stops_text := Some "nonstop" |};
      {| Kayak.airline_title := Some None;
         Kayak.time_texts := [];
         Kayak.duration_text := Some "5h";
         Kayak.price_text := None;
         Kayak.stops_text := Some "1 stop" |};
      {| Kayak.airline_title := Some (Some "Alaska");
         Kayak.time_texts := ["8:00 am"; "11:00 am"];
         Kayak.duration_text := Some (Digits.ones 4301 ++ "h");
         Kayak.price_text := Some "$300";
         Kayak.stops_text := Some "nonstop" |};
      {| Kayak.airline_title := Some (Some "United");
         Kayak.time_texts := ["9:00 am"];
         Kayak.duration_text := Some "";
         Kayak.price_text := Some "call";
         Kayak.stops_text := Some "" |} ]
    "nyc" "lax"
  = [ list_to_map
        [("airline", VStr "Delta"); ("departure_time", VStr "7:05 am");
         ("arrival_time", VStr "10:20 am"); ("duration", VStr "6h 15m");
         ("duration_minutes", VNum (Fin 375)); ("price", VStr "$1,204");
         ("price_numeric", VNum (Fin 1204)); ("stops", VStr "nonstop");
         ("departure_airport", VStr "nyc"); ("arrival_airport", VStr "lax");
         ("website", VStr "Kayak")] ].
Proof. vm_compute. reflexivity. Qed.
